(** * Civilian drone assistance core: route planner, advisory generator and
    subject tracker.

    A shallow embedding of
      - src/modules/civilian/civilian_route_planner.py
      - src/modules/civilian/civilian_ai_advisor.py
      - src/modules/civilian/filming_tracker.py
      - src/modules/civilian/claude_integration.py
      - the route endpoints of src/ground_control_station/server.py
    together with the properties of the specification that concern them and
    further properties of the code.

    Numbers.  Python and numpy floats are idealised as real numbers: every
    arithmetic operation is exact.  The values a float can take outside the
    reals are kept where the code can produce them from real operands:
    [np.sqrt] of a negative number is NaN and a numpy division by zero is
    infinite or NaN ([npfloat]).  A Python [int] is unbounded, and raises
    OverflowError where it has to become a float and is too large for one.
    Rounding is not modelled, with one exception: the length of a route,
    where rounding decides between a number and NaN, is modelled a second
    time on IEEE 754 floats ([FloatGeodesy]).

    Effects.  Methods that mutate their object take the object and return the
    new one next to their result; a raised exception is the [Raise] result.
    [time.time()] is an argument of the method that reads the clock.
    TrackedSubject objects are shared between the live map, the history and
    the returned list, so the tracker keeps them in a store and passes
    references. *)

From Stdlib Require Import Reals Lra Lia ZArith.
From Stdlib Require Floats.
From stdpp Require Import gmap strings list pretty sorting.

Set Default Proof Using "Type".
Set Warnings "-register-all".
Local Open Scope R_scope.

(* ================================================================== *)
(** ** Python runtime notions *)
(* ================================================================== *)

(** The exceptions the modelled code can raise or catch. *)
Inductive exn : Type :=
  | AttributeError
  | TypeError
  | ValueError
  | ZeroDivisionError
  | OverflowError
  | JSONDecodeError
  | ServiceError (msg : string).

Inductive result (A : Type) : Type :=
  | Ok (a : A)
  | Raise (e : exn).
Arguments Ok {A} a.
Arguments Raise {A} e.

Definition rbind {A B} (r : result A) (k : A → result B) : result B :=
  match r with
  | Ok a => k a
  | Raise e => Raise e
  end.

(** Values of type [Any]: what [json.loads] returns and what the advisor
    stores in the fields of its advice objects without checking them. *)
Inductive pyval : Type :=
  | PyNone
  | PyBool (b : bool)
  | PyInt (z : Z)
  | PyFloat (r : R)
  | PyStr (s : string)
  | PyList (l : list pyval)
  | PyDict (kv : list (string * pyval)).

(** [d.get(key, default)] on a dict given by its items. *)
Fixpoint dict_get (key : string) (default : pyval) (kv : list (string * pyval)) : pyval :=
  match kv with
  | [] => default
  | (k, v) :: rest => if String.eqb k key then v else dict_get key default rest
  end.

(** [v.get(key, default)]: only a dict has the method. *)
Definition py_get (v : pyval) (key : string) (default : pyval) : result pyval :=
  match v with
  | PyDict kv => Ok (dict_get key default kv)
  | _ => Raise AttributeError
  end.

#[global] Instance Rlt_decision (x y : R) : Decision (x < y) := Rlt_dec x y.
#[global] Instance Req_decision : EqDecision R := Req_dec_T.

(** [int(x)] on a float: truncation towards zero. *)
Definition py_int (x : R) : Z :=
  if decide (x < 0) then (- Int_part (- x))%Z else Int_part x.

(** [x % m] on floats, for a positive [m]: the result has the sign of [m]. *)
Definition py_mod (x m : R) : R := x - m * IZR (Int_part (x / m)).

(** [max(a, b)] and [min(a, b)]: the first argument is kept unless the second
    is strictly greater (smaller). *)
Definition py_max (a b : R) : R := if decide (a < b) then b else a.
Definition py_min (a b : R) : R := if decide (b < a) then b else a.

(** The integer a value of type [int] or [bool] stands for. *)
Definition py_int_like (v : pyval) : option Z :=
  match v with
  | PyInt z => Some z
  | PyBool b => Some (if b then 1 else 0)%Z
  | _ => None
  end.

(** The number a value of a numeric type stands for. *)
Definition py_num (v : pyval) : option R :=
  match v with
  | PyFloat r => Some r
  | _ => IZR <$> py_int_like v
  end.

(** The least magnitude that does not round to a float: 2^1024 - 2^970,
    half a unit in the last place above the largest float. *)
Definition FLOAT_OVERFLOW : R := IZR (2 ^ 1024 - 2 ^ 970).

(** The float an exactly known number rounds to, as far as the model goes:
    the number itself, or OverflowError when it is beyond the floats. *)
Definition float_of_real (x : R) : result R :=
  if decide (Rabs x < FLOAT_OVERFLOW) then Ok x else Raise OverflowError.

(** The conversion of an [int] to a float, as [float(z)] and the float
    operators do it: "int too large to convert to float". *)
Definition int_to_float (z : Z) : result R := float_of_real (IZR z).

(** An operand of a float operator: [None] for a value that is not a number,
    the conversion of an [int] or [bool], the float itself. *)
Definition float_operand (v : pyval) : option (result R) :=
  match v with
  | PyFloat r => Some (Ok r)
  | _ => int_to_float <$> py_int_like v
  end.

(** A float operator on two values: both must be numbers (TypeError), then
    the left and the right operand are converted (OverflowError). *)
Definition float_operator (op : R → R → result pyval) (a b : pyval) : result pyval :=
  match float_operand a, float_operand b with
  | Some x, Some y => rbind x (λ x, rbind y (λ y, op x y))
  | _, _ => Raise TypeError
  end.

(** [a + b]: exact on two ints, a float operator when a float takes part,
    concatenation on two strings or two lists. *)
Definition py_add (a b : pyval) : result pyval :=
  match py_int_like a, py_int_like b with
  | Some x, Some y => Ok (PyInt (x + y))
  | _, _ =>
      match a, b with
      | PyStr s, PyStr t => Ok (PyStr (s +:+ t))
      | PyList l, PyList m => Ok (PyList (l ++ m))
      | _, _ => float_operator (λ x y, Ok (PyFloat (x + y))) a b
      end
  end.

(** [a - b] *)
Definition py_sub (a b : pyval) : result pyval :=
  match py_int_like a, py_int_like b with
  | Some x, Some y => Ok (PyInt (x - y))
  | _, _ => float_operator (λ x y, Ok (PyFloat (x - y))) a b
  end.

(** [a / b]: on two ints the quotient is rounded once, and raises
    OverflowError ("integer division result too large for a float") when it
    is beyond the floats, whatever the size of the operands; otherwise a
    float operator.  A zero divisor raises ZeroDivisionError. *)
Definition py_truediv (a b : pyval) : result pyval :=
  match py_int_like a, py_int_like b with
  | Some x, Some y =>
      if decide (y = 0%Z) then Raise ZeroDivisionError
      else rbind (float_of_real (IZR x / IZR y)) (λ q, Ok (PyFloat q))
  | _, _ =>
      float_operator
        (λ x y, if decide (y = 0) then Raise ZeroDivisionError
                else Ok (PyFloat (x / y))) a b
  end.

(** [l[start:]]: a negative [start] counts from the end. *)
Definition py_slice_from {A} (start : Z) (l : list A) : list A :=
  let len := Z.of_nat (length l) in
  let first := if (start <? 0)%Z then Z.max (len + start) 0 else Z.min start len in
  drop (Z.to_nat first) l.

(* ================================================================== *)
(** ** numpy scalars *)
(* ================================================================== *)

Inductive npfloat : Type :=
  | Finite (r : R)
  | Inf
  | NaN.

Definition np_radians (x : R) : R := x * (PI / 180).
Definition np_degrees (x : R) : R := x * (180 / PI).
Definition np_sin (x : R) : R := sin x.
Definition np_cos (x : R) : R := cos x.

(** [np.arctan2(y, x)], with the IEEE value 0 at the origin. *)
Definition np_arctan2 (y x : R) : R :=
  if decide (0 < x) then atan (y / x)
  else if decide (x < 0) then
    (if decide (y < 0) then atan (y / x) - PI else atan (y / x) + PI)
  else if decide (0 < y) then PI / 2
  else if decide (y < 0) then - PI / 2
  else 0.

(** [np.sqrt]: NaN below zero. *)
Definition np_sqrt (x : R) : npfloat :=
  if decide (x < 0) then NaN else Finite (sqrt x).

(** NaN-propagating lifting of a total binary operation whose real operands
    give a real result. *)
Definition np_lift2 (f : R → R → R) (a b : npfloat) : npfloat :=
  match a, b with
  | Finite x, Finite y => Finite (f x y)
  | NaN, _ | _, NaN => NaN
  | Inf, _ | _, Inf => Inf
  end.

Definition np_add : npfloat → npfloat → npfloat := np_lift2 Rplus.

(** Multiplication by a positive constant. *)
Definition np_scale (k : R) (a : npfloat) : npfloat :=
  match a with
  | Finite x => Finite (k * x)
  | Inf => Inf
  | NaN => NaN
  end.

(** [np.arctan2] on two numpy scalars. *)
Definition np_arctan2f (y x : npfloat) : npfloat :=
  match y, x with
  | Finite a, Finite b => Finite (np_arctan2 a b)
  | NaN, _ | _, NaN => NaN
  | Inf, _ => Finite (PI / 2)
  | _, Inf => Finite 0
  end.

(** [a / b] for a numpy scalar [a]: a zero divisor gives inf or nan (and a
    warning), not an exception. *)
Definition np_truediv (a : npfloat) (b : R) : npfloat :=
  match a with
  | Finite x =>
      if decide (b = 0) then (if decide (x = 0) then NaN else Inf)
      else Finite (x / b)
  | Inf => Inf
  | NaN => NaN
  end.

Definition is_nan (a : npfloat) : bool :=
  match a with NaN => true | _ => false end.

(* ================================================================== *)
(** ** civilian_route_planner.py: data model *)
(* ================================================================== *)

Module RoutePlanner.

Inductive RouteType : Type :=
  | FILMING | MUSTERING | HUNTING | SURVEYING | INSPECTION | GENERAL.

(** A position argument, [{"lat": ..., "lon": ...}]. *)
Record Position : Type := mkPosition { lat : R; lon : R }.

Record CivilianWaypoint : Type := mkWaypoint {
  wp_lat : R;
  wp_lon : R;
  altitude : R;
  heading : R;
  speed : R;
  description : string;
  shot_type : option string;
  camera_angle : option string;
  duration : option R
}.

Record RoutePlan : Type := mkRoutePlan {
  route_id : string;
  route_type : RouteType;
  waypoints : list CivilianWaypoint;
  total_distance : npfloat;
  estimated_duration : npfloat;
  safety_score : R;
  optimization_tips : list string;
  weather_considerations : string;
  terrain_notes : list string
}.

(** The [planning] section of the configuration; an absent key is [None]. *)
Record PlanningConfig : Type := mkPlanningConfig {
  cfg_max_altitude : option R;
  cfg_min_altitude : option R;
  cfg_cruise_speed : option R;
  cfg_filming_speed : option R
}.

(** The planner object.  [approach_speed] is an attribute that
    [plan_general_route] reads; it is [None] while no assignment has created
    it, and reading it then raises AttributeError. *)
Record CivilianRoutePlanner : Type := mkPlanner {
  planner_config : PlanningConfig;
  max_altitude : R;
  min_altitude : R;
  cruise_speed : R;
  filming_speed : R;
  approach_speed : option R;
  generated_routes : list RoutePlan
}.

(** [CivilianRoutePlanner.__init__] *)
Definition planner_init (config : PlanningConfig) : CivilianRoutePlanner :=
  {| planner_config := config;
     max_altitude := default 120 (cfg_max_altitude config);
     min_altitude := default 5 (cfg_min_altitude config);
     cruise_speed := default 5 (cfg_cruise_speed config);
     filming_speed := default 2 (cfg_filming_speed config);
     approach_speed := None;
     generated_routes := [] |}.

Definition append_route (self : CivilianRoutePlanner) (route : RoutePlan)
  : CivilianRoutePlanner :=
  {| planner_config := planner_config self;
     max_altitude := max_altitude self;
     min_altitude := min_altitude self;
     cruise_speed := cruise_speed self;
     filming_speed := filming_speed self;
     approach_speed := approach_speed self;
     generated_routes := generated_routes self ++ [route] |}.

(** One entry of an advice's [shot_sequence]. *)
Record ShotInfo : Type := mkShotInfo {
  si_shot_type : option string;
  si_description : option string;
  si_duration : option R
}.

(** The [filming_advice] dict, typed as the FilmingAdvice it is built from;
    an absent key is [None].  The argument itself is [None] for Python's
    [None] and for the empty dict, which the code does not distinguish. *)
Record FilmingAdviceDict : Type := mkFilmingAdviceDict {
  fa_recommended_altitude : option R;
  fa_recommended_speed : option R;
  fa_camera_angles : option (list string);
  fa_shot_sequence : option (list ShotInfo);
  fa_framing_tips : option (list string);
  fa_weather_considerations : option string
}.

(* ================================================================== *)
(** ** civilian_route_planner.py: geodesy *)
(* ================================================================== *)

(** [_calculate_heading] *)
Definition _calculate_heading (start end_ : Position) : R :=
  let lat1 := np_radians (lat start) in
  let lat2 := np_radians (lat end_) in
  let dlon := np_radians (lon end_ - lon start) in
  let y := np_sin dlon * np_cos lat2 in
  let x := np_cos lat1 * np_sin lat2 - np_sin lat1 * np_cos lat2 * np_cos dlon in
  let heading := np_degrees (np_arctan2 y x) in
  py_mod (heading + 360) 360.

(** The haversine intermediate term [a] of one segment. *)
Definition haversine_a (lat1_deg lon1_deg lat2_deg lon2_deg : R) : R :=
  let lat1 := np_radians lat1_deg in
  let lat2 := np_radians lat2_deg in
  let dlat := lat2 - lat1 in
  let dlon := np_radians (lon2_deg - lon1_deg) in
  (np_sin (dlat / 2)) ^ 2 + np_cos lat1 * np_cos lat2 * (np_sin (dlon / 2)) ^ 2.

(** The inverse-trigonometric step, [c = 2 * arctan2(sqrt(a), sqrt(1 - a))]. *)
Definition haversine_c (a : R) : npfloat :=
  np_scale 2 (np_arctan2f (np_sqrt a) (np_sqrt (1 - a))).

Definition EARTH_RADIUS : R := 6371000.

(** The body of the loop of [_calculate_total_distance]: the length of the
    segment from [wp1] to [wp2], in exact arithmetic.  The exact term [a]
    never leaves [0, 1]; the computed one does, see [FloatGeodesy]. *)
Definition segment_distance (wp1 wp2 : CivilianWaypoint) : npfloat :=
  let a := haversine_a (wp_lat wp1) (wp_lon wp1) (wp_lat wp2) (wp_lon wp2) in
  let c := haversine_c a in
  np_scale EARTH_RADIUS c.

(** [for i in range(len(waypoints) - 1): ... total += distance] *)
Fixpoint sum_segments (total : npfloat) (wps : list CivilianWaypoint) : npfloat :=
  match wps with
  | wp1 :: ((wp2 :: _) as rest) =>
      sum_segments (np_add total (segment_distance wp1 wp2)) rest
  | _ => total
  end.

(** [_calculate_total_distance] *)
Definition _calculate_total_distance (wps : list CivilianWaypoint) : npfloat :=
  if (length wps <? 2)%nat then Finite 0
  else sum_segments (Finite 0) wps.

(** The position of the last waypoint, [waypoints[-1]]; the list is never
    empty where the code reads it. *)
Definition last_position (wps : list CivilianWaypoint) : Position :=
  match last wps with
  | Some w => mkPosition (wp_lat w) (wp_lon w)
  | None => mkPosition 0 0
  end.

(* ================================================================== *)
(** ** civilian_route_planner.py: planning operations *)
(* ================================================================== *)

(** [l[i % len(l)]]: the modulo raises ZeroDivisionError on an empty list. *)
Definition py_cycle_index {A} (i : nat) (l : list A) : result A :=
  match l with
  | [] => Raise ZeroDivisionError
  | x :: _ => Ok (nth (i mod length l) l x)
  end.

(** [filming_advice.get("recommended_altitude", 30.0) if filming_advice else 30.0] *)
Definition advice_altitude (filming_advice : option FilmingAdviceDict) : R :=
  match filming_advice with
  | Some d => default 30 (fa_recommended_altitude d)
  | None => 30
  end.

(** [filming_advice.get("recommended_speed", 2.0) if filming_advice else 2.0] *)
Definition advice_speed (filming_advice : option FilmingAdviceDict) : R :=
  match filming_advice with
  | Some d => default 2 (fa_recommended_speed d)
  | None => 2
  end.

(** [X if filming_advice else None] *)
Definition if_advice (filming_advice : option FilmingAdviceDict) (x : string)
  : option string :=
  match filming_advice with Some _ => Some x | None => None end.

(** [shot_sequence[i % len(shot_sequence)] if shot_sequence else {}]; the
    empty dict is [None]. *)
Definition advice_shot_info (filming_advice : option FilmingAdviceDict) (i : nat)
  : option ShotInfo :=
  let shot_sequence :=
    match filming_advice with
    | Some d => default [] (fa_shot_sequence d)
    | None => []
    end in
  match shot_sequence with
  | [] => None
  | x :: _ => Some (nth (i mod length shot_sequence) shot_sequence x)
  end.

(** The [camera_angle] argument of the film waypoint. *)
Definition advice_camera_angle (filming_advice : option FilmingAdviceDict) (i : nat)
  : result string :=
  match filming_advice with
  | Some d => py_cycle_index i (default ["overhead"] (fa_camera_angles d))
  | None => Ok "overhead"
  end.

(** The body of [for i, subject_pos in enumerate(subject_positions)]: the
    waypoints appended for one subject. *)
Definition filming_subject_waypoints
    (n_subjects : nat) (operation_type : string)
    (filming_advice : option FilmingAdviceDict)
    (waypoints : list CivilianWaypoint) (i : nat) (subject_pos : Position)
  : result (list CivilianWaypoint) :=
  let approach_lat := lat subject_pos - 0.0001 in
  let approach_lon := lon subject_pos in
  let waypoints := waypoints ++ [
    {| wp_lat := approach_lat;
       wp_lon := approach_lon;
       altitude := advice_altitude filming_advice;
       heading := _calculate_heading (last_position waypoints) subject_pos;
       speed := advice_speed filming_advice;
       description := "Approach subject " +:+ pretty (i + 1)%nat;
       shot_type := if_advice filming_advice "approach";
       camera_angle := if_advice filming_advice "side";
       duration := Some 3 |} ] in
  let shot_info := advice_shot_info filming_advice i in
  rbind (advice_camera_angle filming_advice i) (λ angle,
  let waypoints := waypoints ++ [
    {| wp_lat := lat subject_pos;
       wp_lon := lon subject_pos;
       altitude := advice_altitude filming_advice;
       heading := 0;
       speed := advice_speed filming_advice;
       description := "Film subject " +:+ pretty (i + 1)%nat;
       shot_type :=
         Some (match shot_info with
               | Some si => default "following" (si_shot_type si)
               | None => "following"
               end);
       camera_angle := Some angle;
       duration :=
         Some (match shot_info with
               | Some si => default 10 (si_duration si)
               | None => 10
               end) |} ] in
  if bool_decide (1 < n_subjects)%nat || String.eqb operation_type "advertisement"
  then
    let orbit_lat := lat subject_pos + 0.0001 in
    let orbit_lon := lon subject_pos + 0.0001 in
    Ok (waypoints ++ [
      {| wp_lat := orbit_lat;
         wp_lon := orbit_lon;
         altitude := advice_altitude filming_advice;
         heading := _calculate_heading subject_pos (mkPosition orbit_lat orbit_lon);
         speed := advice_speed filming_advice;
         description := "Orbit around subject " +:+ pretty (i + 1)%nat;
         shot_type := if_advice filming_advice "orbit";
         camera_angle := if_advice filming_advice "orbit";
         duration := Some 8 |} ])
  else Ok waypoints).

(** The loop over [enumerate(subject_positions)], from index [i]. *)
Fixpoint filming_loop
    (n_subjects : nat) (operation_type : string)
    (filming_advice : option FilmingAdviceDict)
    (waypoints : list CivilianWaypoint) (i : nat) (subjects : list Position)
  : result (list CivilianWaypoint) :=
  match subjects with
  | [] => Ok waypoints
  | subject_pos :: rest =>
      rbind (filming_subject_waypoints n_subjects operation_type filming_advice
               waypoints i subject_pos)
            (λ waypoints, filming_loop n_subjects operation_type filming_advice
                            waypoints (S i) rest)
  end.

(** [wp.duration or 10.0] *)
Definition duration_or_default (wp : CivilianWaypoint) : R :=
  match duration wp with
  | Some d => if decide (d = 0) then 10 else d
  | None => 10
  end.

(** [plan_filming_route] *)
Definition plan_filming_route
    (self : CivilianRoutePlanner) (start_pos : Position)
    (subject_positions : list Position) (operation_type : string)
    (filming_advice : option FilmingAdviceDict) (now : R)
  : result RoutePlan * CivilianRoutePlanner :=
  let waypoints := [
    {| wp_lat := lat start_pos;
       wp_lon := lon start_pos;
       altitude := advice_altitude filming_advice;
       heading := 0;
       speed := advice_speed filming_advice;
       description := "Starting position - prepare for filming";
       shot_type := if_advice filming_advice "establishing";
       camera_angle := if_advice filming_advice "overhead";
       duration := Some 5 |} ] in
  match filming_loop (length subject_positions) operation_type filming_advice
          waypoints 0 subject_positions with
  | Raise e => (Raise e, self)
  | Ok waypoints =>
      let total_distance := _calculate_total_distance waypoints in
      let estimated_duration :=
        Finite (foldr Rplus 0 (duration_or_default <$> waypoints)) in
      let route_plan :=
        {| route_id := "filming_" +:+ pretty (py_int now);
           route_type := FILMING;
           waypoints := waypoints;
           total_distance := total_distance;
           estimated_duration := estimated_duration;
           safety_score := 0.9;
           optimization_tips :=
             match filming_advice with
             | Some d => default [] (fa_framing_tips d)
             | None => ["Maintain smooth camera movements";
                        "Keep subjects in frame";
                        "Use rule of thirds for composition"]
             end;
           weather_considerations :=
             match filming_advice with
             | Some d => default "Check weather before flight"
                           (fa_weather_considerations d)
             | None => "Check weather conditions"
             end;
           terrain_notes := ["Ensure clear line of sight"; "Avoid obstacles"] |} in
      (Ok route_plan, append_route self route_plan)
  end.

(** [plan_mustering_route] *)
Definition plan_mustering_route
    (self : CivilianRoutePlanner) (herd_location destination : Position)
    (herd_size : option Z) (terrain : option pyval) (now : R)
  : result RoutePlan * CivilianRoutePlanner :=
  let approach_lat := lat herd_location - 0.0002 in
  let approach_lon := lon herd_location - 0.0002 in
  let mid_lat := (lat herd_location + lat destination) / 2 in
  let mid_lon := (lon herd_location + lon destination) / 2 in
  let dest_approach_lat := lat destination - 0.0001 in
  let dest_approach_lon := lon destination in
  let waypoints := [
    {| wp_lat := approach_lat; wp_lon := approach_lon; altitude := 25;
       heading := _calculate_heading herd_location destination;
       speed := 3;
       description := "Approach herd from side - begin gathering";
       shot_type := None; camera_angle := None; duration := None |};
    {| wp_lat := lat herd_location; wp_lon := lon herd_location; altitude := 25;
       heading := _calculate_heading herd_location destination;
       speed := 2;
       description := "Herd location - maintain safe distance";
       shot_type := None; camera_angle := None; duration := None |};
    {| wp_lat := mid_lat; wp_lon := mid_lon; altitude := 30;
       heading := _calculate_heading herd_location destination;
       speed := 3;
       description := "Midpoint - guide herd direction";
       shot_type := None; camera_angle := None; duration := None |};
    {| wp_lat := dest_approach_lat; wp_lon := dest_approach_lon; altitude := 25;
       heading := _calculate_heading (mkPosition mid_lat mid_lon) destination;
       speed := 2;
       description := "Approach destination - final guidance";
       shot_type := None; camera_angle := None; duration := None |};
    {| wp_lat := lat destination; wp_lon := lon destination; altitude := 25;
       heading := 0;
       speed := 1;
       description := "Destination - herd arrival point";
       shot_type := None; camera_angle := None; duration := None |} ] in
  let total_distance := _calculate_total_distance waypoints in
  let estimated_duration := np_truediv total_distance 3 in
  let route_plan :=
    {| route_id := "mustering_" +:+ pretty (py_int now);
       route_type := MUSTERING;
       waypoints := waypoints;
       total_distance := total_distance;
       estimated_duration := estimated_duration;
       safety_score := 0.85;
       optimization_tips := [
         "Use wide arcs to avoid stressing animals";
         "Maintain consistent altitude (20-30m)";
         "Work with ground crew if available";
         "Monitor animal behavior and adjust approach" ];
       weather_considerations :=
         "Early morning or late afternoon when animals are most active. Avoid extreme heat.";
       terrain_notes := [
         "Avoid obstacles (fences, water, steep slopes)";
         "Use natural terrain features to guide movement";
         "Plan route to minimize animal stress" ] |} in
  (Ok route_plan, append_route self route_plan).

(** [plan_hunting_route] *)
Definition plan_hunting_route
    (self : CivilianRoutePlanner) (start_pos target_location : Position)
    (animal_type : string) (terrain : option pyval) (wind_direction : option R)
    (now : R)
  : result RoutePlan * CivilianRoutePlanner :=
  let '(approach_lat, approach_lon) :=
    match wind_direction with
    | Some wind =>
        let wind_rad := np_radians (wind + 180) in
        let offset_lat := 0.0002 * np_cos wind_rad in
        let offset_lon := 0.0002 * np_sin wind_rad in
        (lat target_location + offset_lat, lon target_location + offset_lon)
    | None => (lat target_location - 0.0002, lon target_location)
    end in
  let waypoints := [
    {| wp_lat := lat start_pos; wp_lon := lon start_pos; altitude := 50;
       heading := 0;
       speed := 4;
       description := "Starting position - begin scouting";
       shot_type := None; camera_angle := None; duration := None |};
    {| wp_lat := approach_lat; wp_lon := approach_lon; altitude := 40;
       heading := _calculate_heading start_pos target_location;
       speed := 3;
       description := "Approach point - downwind side for stealth";
       shot_type := None; camera_angle := None; duration := None |};
    {| wp_lat := lat target_location; wp_lon := lon target_location; altitude := 35;
       heading := 0;
       speed := 1;
       description := "Target location - observe " +:+ animal_type;
       shot_type := None; camera_angle := None; duration := None |} ] in
  let total_distance := _calculate_total_distance waypoints in
  let estimated_duration := np_truediv total_distance 3 in
  let route_plan :=
    {| route_id := "hunting_" +:+ pretty (py_int now);
       route_type := HUNTING;
       waypoints := waypoints;
       total_distance := total_distance;
       estimated_duration := estimated_duration;
       safety_score := 0.8;
       optimization_tips := [
         "Approach from downwind to avoid detection";
         "Use terrain for cover when possible";
         "Maintain legal altitude limits";
         "Plan escape routes";
         "Monitor wind direction and adjust approach" ];
       weather_considerations :=
         "Early morning or late afternoon when animals are most active. Consider wind direction for approach.";
       terrain_notes := [
         "Use terrain features (ridges, valleys) for cover";
         "Avoid open areas when possible";
         "Plan approach to minimize noise and visual disturbance" ] |} in
  (Ok route_plan, append_route self route_plan).

(** The loop [for i in range(1, waypoint_count)] of [plan_general_route],
    over the indices it visits. *)
Fixpoint general_loop
    (self : CivilianRoutePlanner) (start_pos end_pos : Position)
    (waypoint_count : Z) (waypoints : list CivilianWaypoint) (indices : list nat)
  : list CivilianWaypoint :=
  match indices with
  | [] => waypoints
  | i :: rest =>
      let t := INR i / IZR waypoint_count in
      let lat_i := lat start_pos + t * (lat end_pos - lat start_pos) in
      let lon_i := lon start_pos + t * (lon end_pos - lon start_pos) in
      general_loop self start_pos end_pos waypoint_count
        (waypoints ++ [
          {| wp_lat := lat_i; wp_lon := lon_i; altitude := 50;
             heading := _calculate_heading (last_position waypoints) end_pos;
             speed := cruise_speed self;
             description := "Waypoint " +:+ pretty i;
             shot_type := None; camera_angle := None; duration := None |} ])
        rest
  end.

(** [plan_general_route].  The end waypoint reads [self.approach_speed]. *)
Definition plan_general_route
    (self : CivilianRoutePlanner) (start_pos end_pos : Position)
    (waypoint_count : Z) (now : R)
  : result RoutePlan * CivilianRoutePlanner :=
  let waypoints := [
    {| wp_lat := lat start_pos; wp_lon := lon start_pos; altitude := 50;
       heading := 0;
       speed := cruise_speed self;
       description := "Starting position";
       shot_type := None; camera_angle := None; duration := None |} ] in
  let waypoints :=
    general_loop self start_pos end_pos waypoint_count waypoints
      (seq 1 (Z.to_nat (waypoint_count - 1))) in
  match approach_speed self with
  | None => (Raise AttributeError, self)
  | Some approach_speed =>
      let waypoints := waypoints ++ [
        {| wp_lat := lat end_pos; wp_lon := lon end_pos; altitude := 50;
           heading := 0;
           speed := approach_speed;
           description := "Destination";
           shot_type := None; camera_angle := None; duration := None |} ] in
      let total_distance := _calculate_total_distance waypoints in
      let estimated_duration := np_truediv total_distance (cruise_speed self) in
      let route_plan :=
        {| route_id := "general_" +:+ pretty (py_int now);
           route_type := GENERAL;
           waypoints := waypoints;
           total_distance := total_distance;
           estimated_duration := estimated_duration;
           safety_score := 0.9;
           optimization_tips := [
             "Maintain safe altitude";
             "Follow local regulations";
             "Monitor weather conditions" ];
           weather_considerations := "Check weather before flight";
           terrain_notes := ["Ensure clear line of sight"] |} in
      (Ok route_plan, append_route self route_plan)
  end.

(** [route.route_type.value] *)
Definition route_type_value (t : RouteType) : string :=
  match t with
  | FILMING => "filming" | MUSTERING => "mustering" | HUNTING => "hunting"
  | SURVEYING => "surveying" | INSPECTION => "inspection" | GENERAL => "general"
  end.

(** An entry of [get_route_history]. *)
Record RouteSummary : Type := mkRouteSummary {
  rs_route_id : string;
  rs_route_type : string;
  rs_waypoint_count : nat;
  rs_total_distance : npfloat;
  rs_estimated_duration : npfloat;
  rs_safety_score : R
}.

(** [get_route_history] *)
Definition get_route_history (self : CivilianRoutePlanner) : list RouteSummary :=
  (λ route,
     {| rs_route_id := route_id route;
        rs_route_type := route_type_value (route_type route);
        rs_waypoint_count := length (waypoints route);
        rs_total_distance := total_distance route;
        rs_estimated_duration := estimated_duration route;
        rs_safety_score := safety_score route |}) <$> generated_routes self.

(** *** Vocabulary of the planner's properties *)

(** The planner objects a program can hold: the one [__init__] builds, and
    those the planning operations leave behind. *)
Inductive planner_reachable : CivilianRoutePlanner → Prop :=
  | planner_reach_init config :
      planner_reachable (planner_init config)
  | planner_reach_filming self start_pos subject_positions operation_type
      filming_advice now :
      planner_reachable self →
      planner_reachable
        (plan_filming_route self start_pos subject_positions operation_type
           filming_advice now).2
  | planner_reach_mustering self herd_location destination herd_size terrain now :
      planner_reachable self →
      planner_reachable
        (plan_mustering_route self herd_location destination herd_size terrain now).2
  | planner_reach_hunting self start_pos target_location animal_type terrain
      wind_direction now :
      planner_reachable self →
      planner_reachable
        (plan_hunting_route self start_pos target_location animal_type terrain
           wind_direction now).2
  | planner_reach_general self start_pos end_pos waypoint_count now :
      planner_reachable self →
      planner_reachable
        (plan_general_route self start_pos end_pos waypoint_count now).2.

(** The advice, when there is one, does not carry an empty [camera_angles]
    list (on which the film waypoint's [i % len(...)] divides by zero). *)
Definition angles_available (filming_advice : option FilmingAdviceDict) : Prop :=
  match filming_advice with
  | Some d => fa_camera_angles d ≠ Some []
  | None => True
  end.

(** What identifies a waypoint of a filming route: its description and its
    position. *)
Definition wp_summary (w : CivilianWaypoint) : string * R * R :=
  (description w, wp_lat w, wp_lon w).

Definition start_summary (start_pos : Position) : string * R * R :=
  ("Starting position - prepare for filming", lat start_pos, lon start_pos).
Definition approach_summary (i : nat) (p : Position) : string * R * R :=
  ("Approach subject " +:+ pretty (i + 1)%nat, lat p - 0.0001, lon p).
Definition film_summary (i : nat) (p : Position) : string * R * R :=
  ("Film subject " +:+ pretty (i + 1)%nat, lat p, lon p).
Definition orbit_summary (i : nat) (p : Position) : string * R * R :=
  ("Orbit around subject " +:+ pretty (i + 1)%nat,
   lat p + 0.0001, lon p + 0.0001).

Definition no_planning_config : PlanningConfig :=
  mkPlanningConfig None None None None.

(** A heading the normalisation [(h + 360) % 360] can give. *)
Definition heading_normalized (w : CivilianWaypoint) : Prop := 0 <= heading w < 360.

(** What holds of every route the planner has recorded: it is not a general
    route, it has a waypoint and its headings are normalised.  Nothing is
    said of [total_distance]: see [FloatGeodesy]. *)
Definition route_well_formed (route : RoutePlan) : Prop :=
  route_type route ≠ GENERAL
  ∧ waypoints route ≠ []
  ∧ Forall heading_normalized (waypoints route).

(** The condition of the orbit waypoint: [len(subject_positions) > 1 or
    operation_type == "advertisement"]. *)
Definition orbit_flown (n_subjects : nat) (operation_type : string) : bool :=
  bool_decide (1 < n_subjects)%nat || String.eqb operation_type "advertisement".

(** [sum(wp.duration or 10.0 for wp in waypoints)] *)
Definition total_duration (wps : list CivilianWaypoint) : R :=
  foldr Rplus 0 (duration_or_default <$> wps).

(** The waypoint lies at fraction [t] of the straight line, in coordinates,
    from [start_pos] to [end_pos]. *)
Definition on_segment (start_pos end_pos : Position) (t : R) (w : CivilianWaypoint)
  : Prop :=
  wp_lat w = lat start_pos + t * (lat end_pos - lat start_pos)
  ∧ wp_lon w = lon start_pos + t * (lon end_pos - lon start_pos).

(** The waypoint is flown at the altitude and the speed of the advice (30.0
    and 2.0 without one). *)
Definition flown_as_advised (advice : option FilmingAdviceDict) (w : CivilianWaypoint)
  : Prop :=
  altitude w = advice_altitude advice ∧ speed w = advice_speed advice.

(** The real number the segment distance is in exact arithmetic. *)
Definition great_circle (wp1 wp2 : CivilianWaypoint) : R :=
  let a := haversine_a (wp_lat wp1) (wp_lon wp1) (wp_lat wp2) (wp_lon wp2) in
  EARTH_RADIUS * (2 * np_arctan2 (sqrt a) (sqrt (1 - a))).

(** The sum of the segments of a path. *)
Fixpoint path_length (wps : list CivilianWaypoint) : R :=
  match wps with
  | wp1 :: ((wp2 :: _) as rest) => great_circle wp1 wp2 + path_length rest
  | _ => 0
  end.

(** The last leg of a path that is extended by one waypoint. *)
Definition leg (w : option CivilianWaypoint) (w' : CivilianWaypoint) : R :=
  match w with Some x => great_circle x w' | None => 0 end.

(** *** Closed examples for the planner *)

Definition two_subjects : list Position := [mkPosition 1 1; mkPosition 2 2].

(** An advice with three camera angles, one shot and an altitude above the
    planner's [max_altitude]. *)
Definition cycling_advice : FilmingAdviceDict :=
  {| fa_recommended_altitude := Some 500;
     fa_recommended_speed := None;
     fa_camera_angles := Some ["overhead"; "side"; "follow"];
     fa_shot_sequence := Some [mkShotInfo (Some "reveal") None (Some 8)];
     fa_framing_tips := None;
     fa_weather_considerations := None |}.

(** The advice [{"camera_angles": []}]: no camera angle to choose from. *)
Definition no_angles_advice : FilmingAdviceDict :=
  {| fa_recommended_altitude := None;
     fa_recommended_speed := None;
     fa_camera_angles := Some [];
     fa_shot_sequence := None;
     fa_framing_tips := None;
     fa_weather_considerations := None |}.

(** A planner object on which the attribute [approach_speed] has been set. *)
Definition configured_planner : CivilianRoutePlanner :=
  mkPlanner no_planning_config 120 5 5 2 (Some 1.5) [].

End RoutePlanner.

(* ================================================================== *)
(** ** civilian_route_planner.py: the route length in floating point *)
(* ================================================================== *)

(** [_calculate_total_distance] once more, on IEEE 754 binary64 numbers with
    every operation rounded as the code rounds it.  The real-number model of
    [RoutePlanner] cannot show what rounding does to the haversine term, whose
    exact value reaches 1 at antipodal points; this one can.  Addition,
    subtraction, multiplication, division and the square root are the
    processor's; sine, cosine, the power and the arc tangent are the C
    library's, and are arguments of the model. *)
Module FloatGeodesy.
Import PrimFloat.
Local Open Scope float_scope.

(** The fields of a CivilianWaypoint that the computation reads. *)
Record FloatWaypoint : Type := mkFloatWaypoint {
  lat : float;
  lon : float
}.

(** [NPY_PI], the float nearest to pi. *)
Definition NPY_PI : float := 0x1.921fb54442d18p+1.

(** [np.radians(x)]: [x * (NPY_PI / 180.0)]. *)
Definition np_radians (x : float) : float := x * (NPY_PI / 180).

(** [np.sqrt]; the square root of a negative number is NaN. *)
Definition np_sqrt (x : float) : float := sqrt x.

Section WithLibm.

(** [np.sin], [np.cos], [x ** y] and [np.arctan2(y, x)]. *)
Variables np_sin np_cos : float → float.
Variables np_power np_arctan2 : float → float → float.

(** The haversine intermediate term [a] of one segment. *)
Definition haversine_a (wp1 wp2 : FloatWaypoint) : float :=
  let lat1 := np_radians (lat wp1) in
  let lat2 := np_radians (lat wp2) in
  let dlat := lat2 - lat1 in
  let dlon := np_radians (lon wp2 - lon wp1) in
  np_power (np_sin (dlat / 2)) 2
  + np_cos lat1 * np_cos lat2 * np_power (np_sin (dlon / 2)) 2.

(** [c = 2 * np.arctan2(np.sqrt(a), np.sqrt(1-a))] and [distance = R * c],
    with [R = 6371000]. *)
Definition haversine_distance (a : float) : float :=
  let c := 2 * np_arctan2 (np_sqrt a) (np_sqrt (1 - a)) in
  6371000 * c.

(** The body of the loop of [_calculate_total_distance]. *)
Definition segment_distance (wp1 wp2 : FloatWaypoint) : float :=
  haversine_distance (haversine_a wp1 wp2).

(** [for i in range(len(waypoints) - 1): ... total += distance] *)
Fixpoint sum_segments (total : float) (wps : list FloatWaypoint) : float :=
  match wps with
  | wp1 :: ((wp2 :: _) as rest) =>
      sum_segments (total + segment_distance wp1 wp2) rest
  | _ => total
  end.

(** [_calculate_total_distance] *)
Definition _calculate_total_distance (wps : list FloatWaypoint) : float :=
  if (length wps <? 2)%nat then 0 else sum_segments 0 wps.

(** What the specification asks for and the code does not do: the term is
    clamped to [0, 1] before the inverse-trigonometric step. *)
Definition clamp01 (a : float) : float :=
  if a <? 0 then 0 else if 1 <? a then 1 else a.

(** The segment distance of the specification. *)
Definition clamped_segment_distance (wp1 wp2 : FloatWaypoint) : float :=
  haversine_distance (clamp01 (haversine_a wp1 wp2)).

(** The values of the C library that the segment from (8, 0) to (-8, 180)
    asks for, as glibc returns them: the sine of half the latitude
    difference and of half the longitude difference, the cosine of the two
    latitudes, the two squares, and the arc tangent of a NaN and of (1, 0). *)
Record libm_near_antipodes : Prop := {
  sin_half_dlat : np_sin (-0x1.1df46a2529d39p-3) = -0x1.1d06c968d9e19p-3;
  sin_half_dlon : np_sin 0x1.921fb54442d18p+0 = 1;
  cos_lat1 : np_cos 0x1.1df46a2529d39p-3 = 0x1.fb046a930947ap-1;
  cos_lat2 : np_cos (-0x1.1df46a2529d39p-3) = 0x1.fb046a930947ap-1;
  sin_half_dlat_squared :
    np_power (-0x1.1d06c968d9e19p-3) 2 = 0x1.3d581ca184804p-6;
  sin_half_dlon_squared : np_power 1 2 = 1;
  arctan2_nan : ∀ y, np_arctan2 y nan = nan;
  arctan2_one_zero : np_arctan2 1 0 = 0x1.921fb54442d18p+0
}.

End WithLibm.

(** The two waypoints of the example: 8 degrees north on the Greenwich
    meridian, and 8 degrees south on the opposite meridian. *)
Definition north : FloatWaypoint := mkFloatWaypoint 8 0.
Definition south : FloatWaypoint := mkFloatWaypoint (-8) 180.

(** A C library that is known on the arguments of the example only, and
    answers NaN elsewhere. *)
Definition table_sin (x : float) : float :=
  if x =? -0x1.1df46a2529d39p-3 then -0x1.1d06c968d9e19p-3
  else if x =? 0x1.921fb54442d18p+0 then 1
  else nan.

Definition table_cos (x : float) : float :=
  if abs x =? 0x1.1df46a2529d39p-3 then 0x1.fb046a930947ap-1 else nan.

Definition table_power (x y : float) : float :=
  if y =? 2 then
    if x =? -0x1.1d06c968d9e19p-3 then 0x1.3d581ca184804p-6
    else if x =? 1 then 1
    else nan
  else nan.

Definition table_arctan2 (y x : float) : float :=
  if is_nan x then nan
  else if (y =? 1) && (x =? 0) then 0x1.921fb54442d18p+0
  else nan.

End FloatGeodesy.

(* ================================================================== *)
(** ** civilian_ai_advisor.py *)
(* ================================================================== *)

Module AIAdvisor.

Inductive OperationType : Type :=
  | FILMING_WEDDING
  | FILMING_ADVERTISEMENT
  | FILMING_EVENT
  | MUSTERING
  | HUNTING
  | SURVEYING
  | INSPECTION
  | SEARCH_RESCUE.

(** [operation_type.value] *)
Definition value (op : OperationType) : string :=
  match op with
  | FILMING_WEDDING => "filming_wedding"
  | FILMING_ADVERTISEMENT => "filming_advertisement"
  | FILMING_EVENT => "filming_event"
  | MUSTERING => "mustering"
  | HUNTING => "hunting"
  | SURVEYING => "surveying"
  | INSPECTION => "inspection"
  | SEARCH_RESCUE => "search_rescue"
  end.

(** The dataclass does not check its fields: on the parsed path they hold
    whatever the JSON document holds. *)
Record FilmingAdvice : Type := mkFilmingAdvice {
  recommended_altitude : pyval;
  recommended_speed : pyval;
  camera_angles : pyval;
  shot_sequence : pyval;
  lighting_advice : pyval;
  weather_considerations : pyval;
  framing_tips : pyval;
  tracking_strategy : pyval
}.

(** The reasoning-service capability: any object with a
    [generate_expert_advice(question, context)] method, which returns the
    service's text or raises. *)
Record Capability : Type := mkCapability {
  generate_expert_advice : string → pyval → result string
}.

(** The advisor object; [claude_integration] is [None] when no capability is
    configured.  A capability object is always truthy. *)
Record CivilianAIAdvisor : Type := mkAdvisor {
  claude_integration : option Capability;
  running : bool
}.

(** [CivilianAIAdvisor.__init__] *)
Definition advisor_init (claude_integration : option Capability) : CivilianAIAdvisor :=
  {| claude_integration := claude_integration; running := false |}.

Definition shot (shot_type description : string) (duration : Z) : pyval :=
  PyDict [("shot_type", PyStr shot_type);
          ("description", PyStr description);
          ("duration", PyInt duration)].

(** [_get_filming_advice_default]; the arguments after the operation type are
    not read. *)
Definition _get_filming_advice_default (operation_type : OperationType)
  : FilmingAdvice :=
  match operation_type with
  | FILMING_WEDDING =>
      {| recommended_altitude := PyFloat 25;
         recommended_speed := PyFloat 2;
         camera_angles :=
           PyList [PyStr "overhead"; PyStr "side"; PyStr "follow"; PyStr "reveal"];
         shot_sequence := PyList [
           shot "establishing" "Wide shot of venue" 5;
           shot "following" "Follow couple walking" 10;
           shot "overhead" "Aerial view of ceremony" 15;
           shot "reveal" "Reveal shot of venue" 8 ];
         lighting_advice :=
           PyStr "Golden hour (sunrise/sunset) provides best lighting. Avoid harsh midday sun.";
         weather_considerations :=
           PyStr "Clear skies preferred. Wind speeds should be below 10 m/s for stable footage.";
         framing_tips := PyList [
           PyStr "Keep couple centered in frame";
           PyStr "Use rule of thirds for composition";
           PyStr "Maintain smooth, gradual movements";
           PyStr "Capture both wide and close-up shots" ];
         tracking_strategy :=
           PyStr "Use smooth follow mode with gradual altitude changes. Maintain consistent distance from subjects." |}
  | FILMING_ADVERTISEMENT =>
      {| recommended_altitude := PyFloat 40;
         recommended_speed := PyFloat 4;
         camera_angles :=
           PyList [PyStr "overhead"; PyStr "orbit"; PyStr "dolly"; PyStr "crane"];
         shot_sequence := PyList [
           shot "establishing" "Wide establishing shot" 3;
           shot "orbit" "Orbit around subject" 8;
           shot "dolly" "Forward tracking shot" 5;
           shot "reveal" "Dramatic reveal" 4 ];
         lighting_advice :=
           PyStr "Professional lighting setup recommended. Consider time of day for natural lighting.";
         weather_considerations :=
           PyStr "Controlled environment preferred. Check for wind and precipitation.";
         framing_tips := PyList [
           PyStr "Dynamic camera movements";
           PyStr "Multiple angles for variety";
           PyStr "Smooth transitions between shots";
           PyStr "Focus on product/subject" ];
         tracking_strategy :=
           PyStr "Precise tracking with multiple waypoints. Use orbit and dolly movements for dynamic shots." |}
  | _ =>
      {| recommended_altitude := PyFloat 30;
         recommended_speed := PyFloat 3;
         camera_angles := PyList [PyStr "overhead"; PyStr "side"; PyStr "follow"];
         shot_sequence := PyList [];
         lighting_advice := PyStr "Use natural lighting when possible";
         weather_considerations := PyStr "Check weather conditions before flight";
         framing_tips := PyList [PyStr "Keep subject centered"; PyStr "Use rule of thirds"];
         tracking_strategy := PyStr "Smooth tracking with gradual movements" |}
  end.

(** Truth value of a Python value. *)
Definition py_truthy (v : pyval) : bool :=
  match v with
  | PyNone => false
  | PyBool b => b
  | PyInt z => negb (z =? 0)%Z
  | PyFloat r => negb (bool_decide (r = 0))
  | PyStr s => negb (String.eqb s "")
  | PyList l => negb (bool_decide (length l = 0%nat))
  | PyDict kv => negb (bool_decide (length kv = 0%nat))
  end.

(** [x or {}] *)
Definition or_empty_dict (x : pyval) : pyval :=
  if py_truthy x then x else PyDict [].

(** [FilmingAdvice(recommended_altitude=advice_json.get(...), ...)] *)
Definition advice_of_json (advice_json : pyval) : result FilmingAdvice :=
  match advice_json with
  | PyDict kv =>
      Ok {| recommended_altitude := dict_get "recommended_altitude" (PyFloat 30) kv;
            recommended_speed := dict_get "recommended_speed" (PyFloat 3) kv;
            camera_angles :=
              dict_get "camera_angles"
                (PyList [PyStr "overhead"; PyStr "side"; PyStr "follow"]) kv;
            shot_sequence := dict_get "shot_sequence" (PyList []) kv;
            lighting_advice :=
              dict_get "lighting_advice" (PyStr "Use natural lighting when possible") kv;
            weather_considerations :=
              dict_get "weather_considerations"
                (PyStr "Check weather conditions before flight") kv;
            framing_tips :=
              dict_get "framing_tips"
                (PyList [PyStr "Keep subject centered"; PyStr "Use rule of thirds"]) kv;
            tracking_strategy :=
              dict_get "tracking_strategy"
                (PyStr "Smooth tracking with gradual movements") kv |}
  | _ => Raise AttributeError
  end.

Section WithJson.

(** [json.loads]: the parsed value, or [Raise JSONDecodeError]. *)
Variable json_loads : string → result pyval.

(** [_get_filming_advice_from_ai] *)
Definition _get_filming_advice_from_ai
    (integration : Capability) (operation_type : OperationType)
    (location subject_info weather : pyval)
  : result FilmingAdvice :=
  let context := PyDict [
    ("operation_type", PyStr (value operation_type));
    ("location", location);
    ("subject_info", or_empty_dict subject_info);
    ("weather", or_empty_dict weather) ] in
  let question :=
    "Provide expert filming advice for a " +:+ value operation_type
      +:+ " operation at this location." in
  let default_ := _get_filming_advice_default operation_type in
  (* the outer [try] *)
  let attempt :=
    rbind (generate_expert_advice integration question context) (λ advice_text,
      (* the inner [try] *)
      match rbind (json_loads advice_text) advice_of_json with
      | Raise JSONDecodeError => Ok default_
      | r => r
      end) in
  match attempt with
  | Raise _ => Ok default_        (* except Exception *)
  | Ok advice => Ok advice
  end.

(** [get_filming_advice]; [None] arguments are [PyNone]. *)
Definition get_filming_advice
    (self : CivilianAIAdvisor) (operation_type : OperationType)
    (location subject_info weather : pyval)
  : result FilmingAdvice :=
  match claude_integration self with
  | Some integration =>
      _get_filming_advice_from_ai integration operation_type
        location subject_info weather
  | None => Ok (_get_filming_advice_default operation_type)
  end.

End WithJson.

(** [get_general_advice] *)
Definition get_general_advice
    (self : CivilianAIAdvisor) (question : string) (context : pyval)
  : result string :=
  match claude_integration self with
  | Some integration => generate_expert_advice integration question context
  | None => Ok "AI advice is currently unavailable. Please consult your operation manual."
  end.

(** A waypoint dict of a RouteAdvice:
    [{"position": [...], "altitude": ..., "description": ...}]. *)
Record AdviceWaypoint : Type := mkAdviceWaypoint {
  aw_position : list pyval;
  aw_altitude : R;
  aw_description : string
}.

Record RouteAdvice : Type := mkRouteAdvice {
  waypoints : list AdviceWaypoint;
  recommended_path : string;
  timing_advice : string;
  safety_considerations : list string;
  optimization_tips : list string
}.

(** [_generate_mustering_waypoints]; [start] and [end_] are dicts, given by
    their items. *)
Definition _generate_mustering_waypoints (start end_ : list (string * pyval))
  : result (list AdviceWaypoint) :=
  let start_lat := dict_get "lat" (PyInt 0) start in
  let start_lon := dict_get "lon" (PyInt 0) start in
  let end_lat := dict_get "lat" (PyInt 0) end_ in
  let end_lon := dict_get "lon" (PyInt 0) end_ in
  rbind (rbind (py_add start_lat end_lat) (λ s, py_truediv s (PyInt 2))) (λ mid_lat,
  rbind (rbind (py_add start_lon end_lon) (λ s, py_truediv s (PyInt 2))) (λ mid_lon,
  Ok [ {| aw_position := [start_lat; start_lon; PyFloat 25];
          aw_altitude := 25;
          aw_description := "Start position - approach herd from side" |};
       {| aw_position := [mid_lat; mid_lon; PyFloat 30];
          aw_altitude := 30;
          aw_description := "Midpoint - guide herd direction" |};
       {| aw_position := [end_lat; end_lon; PyFloat 25];
          aw_altitude := 25;
          aw_description := "Destination - final approach" |} ])).

(** [_generate_hunting_waypoints]; [terrain] is not read. *)
Definition _generate_hunting_waypoints (target : list (string * pyval))
  : result (list AdviceWaypoint) :=
  let target_lat := dict_get "lat" (PyInt 0) target in
  let target_lon := dict_get "lon" (PyInt 0) target in
  rbind (py_sub target_lat (PyFloat 0.001)) (λ approach_lat,
  Ok [ {| aw_position := [approach_lat; target_lon; PyFloat 40];
          aw_altitude := 40;
          aw_description := "Approach point - downwind side" |};
       {| aw_position := [target_lat; target_lon; PyFloat 35];
          aw_altitude := 35;
          aw_description := "Target location - maintain safe distance" |} ]).

(** [_get_mustering_advice_default]; [herd_size] and [terrain] are not read. *)
Definition _get_mustering_advice_default
    (herd_location destination : list (string * pyval)) : result RouteAdvice :=
  rbind (_generate_mustering_waypoints herd_location destination) (λ wps,
  Ok {| waypoints := wps;
        recommended_path :=
          "Gradual approach with wide arcs to avoid stressing animals";
        timing_advice :=
          "Early morning (6-8 AM) or late afternoon (4-6 PM) when animals are most active and temperatures are moderate";
        safety_considerations := [
          "Maintain minimum 20m altitude to avoid spooking animals";
          "Use gradual movements - avoid sudden direction changes";
          "Watch for terrain obstacles (fences, water, steep slopes)";
          "Monitor animal stress levels - if animals scatter, increase altitude";
          "Ensure clear communication with ground crew if present" ];
        optimization_tips := [
          "Start with wide arcs around the herd to gather them";
          "Use side-to-side movements to guide direction";
          "Maintain consistent altitude (20-30m recommended)";
          "Work with natural terrain features (valleys, ridges)";
          "Plan route to avoid obstacles and hazards";
          "Consider wind direction - animals may move with or against wind" ] |}).

(** [herd_size or 'unknown size'], formatted. *)
Definition herd_size_text (herd_size : option Z) : string :=
  match herd_size with
  | Some z => if (z =? 0)%Z then "unknown size" else pretty z
  | None => "unknown size"
  end.

(** An [Optional[int]] argument as a value. *)
Definition optional_int (z : option Z) : pyval :=
  match z with Some z => PyInt z | None => PyNone end.

(** [_get_mustering_advice_from_ai]: the text of the service is bound to
    [advice_text] and not read. *)
Definition _get_mustering_advice_from_ai
    (integration : Capability) (herd_location destination : list (string * pyval))
    (herd_size : option Z) (terrain : pyval) : result RouteAdvice :=
  let context := PyDict [
    ("herd_location", PyDict herd_location);
    ("destination", PyDict destination);
    ("herd_size", optional_int herd_size);
    ("terrain", or_empty_dict terrain) ] in
  let question :=
    "Provide expert mustering advice for moving a herd of "
      +:+ herd_size_text herd_size
      +:+ " from the current location to the destination." in
  let attempt :=
    rbind (generate_expert_advice integration question context) (λ advice_text,
    rbind (_generate_mustering_waypoints herd_location destination) (λ wps,
    Ok {| waypoints := wps;
          recommended_path := "Gradual approach with wide arcs";
          timing_advice :=
            "Early morning or late afternoon when animals are most active";
          safety_considerations := [
            "Maintain safe distance from animals";
            "Avoid sudden movements";
            "Watch for obstacles and terrain hazards" ];
          optimization_tips := [
            "Use wide arcs to guide herd";
            "Maintain consistent altitude";
            "Work with ground crew if available" ] |})) in
  match attempt with
  | Raise _ => _get_mustering_advice_default herd_location destination
  | Ok advice => Ok advice
  end.

(** [get_mustering_advice] *)
Definition get_mustering_advice
    (self : CivilianAIAdvisor) (herd_location destination : list (string * pyval))
    (herd_size : option Z) (terrain : pyval) : result RouteAdvice :=
  match claude_integration self with
  | Some integration =>
      _get_mustering_advice_from_ai integration herd_location destination
        herd_size terrain
  | None => _get_mustering_advice_default herd_location destination
  end.

(** [_get_hunting_advice_default]; [animal_type], [terrain] and [weather] are
    not read. *)
Definition _get_hunting_advice_default (target_location : list (string * pyval))
  : result RouteAdvice :=
  rbind (_generate_hunting_waypoints target_location) (λ wps,
  Ok {| waypoints := wps;
        recommended_path :=
          "Stealth approach using terrain cover, approach from downwind direction";
        timing_advice :=
          "Early morning (dawn) or late afternoon (dusk) when animals are most active. Avoid midday when animals rest.";
        safety_considerations := [
          "Maintain legal altitude (typically 120m/400ft maximum)";
          "Respect wildlife - do not harass or stress animals";
          "Follow all local hunting regulations and seasons";
          "Ensure safe shooting angles - never shoot toward populated areas";
          "Maintain visual line of sight at all times";
          "Check for other hunters in the area" ];
        optimization_tips := [
          "Approach from downwind to avoid detection by scent";
          "Use terrain features (ridges, valleys) for cover";
          "Plan approach route to minimize noise";
          "Consider animal behavior patterns for the species";
          "Use low altitude (30-50m) for stealth when legal";
          "Plan multiple approach angles as backup";
          "Monitor wind direction and adjust approach accordingly" ] |}).

(** [_get_hunting_advice_from_ai] *)
Definition _get_hunting_advice_from_ai
    (integration : Capability) (target_location : list (string * pyval))
    (animal_type : string) (terrain weather : pyval) : result RouteAdvice :=
  let context := PyDict [
    ("target_location", PyDict target_location);
    ("animal_type", PyStr animal_type);
    ("terrain", or_empty_dict terrain);
    ("weather", or_empty_dict weather) ] in
  let question :=
    "Provide expert hunting advice for locating and approaching "
      +:+ animal_type +:+ " at the target location." in
  let attempt :=
    rbind (generate_expert_advice integration question context) (λ advice_text,
    rbind (_generate_hunting_waypoints target_location) (λ wps,
    Ok {| waypoints := wps;
          recommended_path := "Stealth approach with wind consideration";
          timing_advice :=
            "Early morning or late afternoon when animals are most active";
          safety_considerations := [
            "Maintain legal altitude limits";
            "Respect wildlife and avoid harassment";
            "Follow all local hunting regulations";
            "Ensure safe shooting angles" ];
          optimization_tips := [
            "Approach from downwind";
            "Use terrain for cover";
            "Minimize noise and visual disturbance";
            "Plan escape routes" ] |})) in
  match attempt with
  | Raise _ => _get_hunting_advice_default target_location
  | Ok advice => Ok advice
  end.

(** [get_hunting_advice] *)
Definition get_hunting_advice
    (self : CivilianAIAdvisor) (target_location : list (string * pyval))
    (animal_type : string) (terrain weather : pyval) : result RouteAdvice :=
  match claude_integration self with
  | Some integration =>
      _get_hunting_advice_from_ai integration target_location animal_type
        terrain weather
  | None => _get_hunting_advice_default target_location
  end.

(** *** Vocabulary of the advisor's properties *)

(** The text is not a structured document: [json.loads] does not give a dict
    for it (it raises, or gives a value of another type). *)
Definition unparsable (json_loads : string → result pyval) (text : string) : Prop :=
  ∀ kv, json_loads text ≠ Ok (PyDict kv).

(** No reasoning-service capability is configured. *)
Definition capability_absent (self : CivilianAIAdvisor) : Prop :=
  claude_integration self = None.

(** The configured capability answers with text that is not a structured
    document. *)
Definition capability_unparsable (json_loads : string → result pyval)
    (self : CivilianAIAdvisor) : Prop :=
  ∃ integration,
    claude_integration self = Some integration ∧
    ∀ question context text,
      generate_expert_advice integration question context = Ok text →
      unparsable json_loads text.

(** A capability that is configured without an API key: the text
    [ClaudeIntegration.generate_expert_advice] returns then. *)
Definition unconfigured_service : Capability :=
  {| generate_expert_advice := λ _ _,
       Ok "AI advice not available. Please configure Anthropic API key." |}.

(** A stand-in for [json.loads] that reads the empty object and rejects every
    other text. *)
Definition empty_object_loads (text : string) : result pyval :=
  if String.eqb text "{}" then Ok (PyDict []) else Raise JSONDecodeError.

(** The number under [key] in a location dict; an absent key reads as 0. *)
Definition coordinate (key : string) (location : list (string * pyval)) : option R :=
  py_num (dict_get key (PyInt 0) location).

(** The capability answers every request with some text. *)
Definition answers (integration : Capability) : Prop :=
  ∀ question context, ∃ text,
    generate_expert_advice integration question context = Ok text.

(** A capability that answers with the empty JSON object. *)
Definition empty_object_service : Capability :=
  {| generate_expert_advice := λ _ _, Ok "{}" |}.

End AIAdvisor.

(* ================================================================== *)
(** ** claude_integration.py *)
(* ================================================================== *)

Module Claude.

(** The integration object.  [api_url] is assigned only when a key was
    found. *)
Record ClaudeIntegration : Type := mkIntegration {
  api_key : option string;
  api_url : option string;
  running : bool
}.

(** Truth value of an optional string: [None] and the empty string are
    false. *)
Definition key_present (key : option string) : bool :=
  match key with
  | Some s => negb (String.eqb s "")
  | None => false
  end.

(** [api_key or os.getenv("ANTHROPIC_API_KEY")]; [env_key] is the value of
    the environment variable. *)
Definition key_or_env (api_key env_key : option string) : option string :=
  if key_present api_key then api_key else env_key.

(** [ClaudeIntegration.__init__] *)
Definition integration_init (api_key env_key : option string) : ClaudeIntegration :=
  let key := key_or_env api_key env_key in
  if negb (key_present key) then
    {| api_key := key; api_url := None; running := false |}
  else
    {| api_key := key;
       api_url := Some "https://api.anthropic.com/v1/messages";
       running := true |}.

(** [start]: without a key the object is left as it is. *)
Definition start (self : ClaudeIntegration) : ClaudeIntegration :=
  if key_present (api_key self) then
    {| api_key := api_key self; api_url := api_url self; running := true |}
  else self.

(** [shutdown] *)
Definition shutdown (self : ClaudeIntegration) : ClaudeIntegration :=
  {| api_key := api_key self; api_url := api_url self; running := false |}.

Definition NOT_AVAILABLE : string :=
  "AI advice not available. Please configure Anthropic API key.".

Section WithExchange.

(** The [try] statement of [generate_expert_advice]: the request to the API
    and the three handlers.  Every path through it returns a string, the
    text of the response or an error message. *)
Variable api_exchange : ClaudeIntegration → string → pyval → option string → string.

(** [generate_expert_advice] *)
Definition generate_expert_advice (self : ClaudeIntegration)
    (question : string) (context : pyval) (system_prompt : option string)
  : result string :=
  if negb (running self) || negb (key_present (api_key self)) then Ok NOT_AVAILABLE
  else Ok (api_exchange self question context system_prompt).

(** The integration as the advisor uses it: the advisor calls
    [generate_expert_advice(question, context)]. *)
Definition as_capability (self : ClaudeIntegration) : AIAdvisor.Capability :=
  {| AIAdvisor.generate_expert_advice := λ question context,
       generate_expert_advice self question context None |}.

End WithExchange.

(** The states of an integration object built from [api_key] in an
    environment where the variable holds [env_key]. *)
Inductive integration_reachable (key env_key : option string)
  : ClaudeIntegration → Prop :=
  | reach_integration_init :
      integration_reachable key env_key (integration_init key env_key)
  | reach_integration_start self :
      integration_reachable key env_key self →
      integration_reachable key env_key (start self)
  | reach_integration_shutdown self :
      integration_reachable key env_key self →
      integration_reachable key env_key (shutdown self).

End Claude.

(* ================================================================== *)
(** ** filming_tracker.py *)
(* ================================================================== *)

Module Tracker.

(** A camera / drone position, [{"lat": ..., "lon": ..., "alt": ...}]. *)
Record CameraPosition : Type := mkCameraPosition {
  cam_lat : R; cam_lon : R; cam_alt : R
}.

Record TrackedSubject : Type := mkTrackedSubject {
  subject_id : string;
  position : CameraPosition;
  bbox : list R;
  confidence : R;
  frame_number : Z;
  timestamp : R;
  camera_angle : string;
  framing_quality : R;
  tracking_status : string
}.

(** Real-time filming advice. *)
Record FilmingAdvice : Type := mkFilmingAdvice {
  advice_type : string;
  message : string;
  priority : string;
  advice_timestamp : R
}.

(** A detection dict; an absent key is [None]. *)
Record Detection : Type := mkDetection {
  det_subject_id : option string;
  det_bbox : option (list R);
  det_confidence : option R
}.

Record TrackerConfig : Type := mkTrackerConfig {
  cfg_max_tracking_distance : option R;
  cfg_framing_threshold : option R;
  cfg_lost_timeout : option R
}.

(** A reference to a TrackedSubject object: its index in the store. *)
Abbreviation ref := nat.

(** The tracker object, with the store of the TrackedSubject objects it has
    created.  [tracked_subjects], [tracking_history] and the lists the methods
    return hold references into the store: an assignment to a field of a
    tracked subject is seen through every one of them. *)
Record FilmingTracker : Type := mkTracker {
  config : TrackerConfig;
  ai_advisor : option AIAdvisor.CivilianAIAdvisor;
  tracked_subjects : gmap string ref;
  tracking_history : list ref;
  advice_history : list FilmingAdvice;
  running : bool;
  max_tracking_distance : R;
  framing_threshold : R;
  lost_timeout : R;
  store : list TrackedSubject
}.

(** [FilmingTracker.__init__] *)
Definition tracker_init (config : TrackerConfig)
    (ai_advisor : option AIAdvisor.CivilianAIAdvisor) : FilmingTracker :=
  {| config := config;
     ai_advisor := ai_advisor;
     tracked_subjects := ∅;
     tracking_history := [];
     advice_history := [];
     running := false;
     max_tracking_distance := default 50 (cfg_max_tracking_distance config);
     framing_threshold := default 0.7 (cfg_framing_threshold config);
     lost_timeout := default 2 (cfg_lost_timeout config);
     store := [] |}.

(** Field assignments on the tracker object. *)
Definition set_running (b : bool) (self : FilmingTracker) : FilmingTracker :=
  mkTracker (config self) (ai_advisor self) (tracked_subjects self)
    (tracking_history self) (advice_history self) b
    (max_tracking_distance self) (framing_threshold self) (lost_timeout self)
    (store self).

Definition set_tracked_subjects (m : gmap string ref) (self : FilmingTracker)
  : FilmingTracker :=
  mkTracker (config self) (ai_advisor self) m
    (tracking_history self) (advice_history self) (running self)
    (max_tracking_distance self) (framing_threshold self) (lost_timeout self)
    (store self).

Definition set_tracking_history (h : list ref) (self : FilmingTracker)
  : FilmingTracker :=
  mkTracker (config self) (ai_advisor self) (tracked_subjects self)
    h (advice_history self) (running self)
    (max_tracking_distance self) (framing_threshold self) (lost_timeout self)
    (store self).

Definition set_advice_history (a : list FilmingAdvice) (self : FilmingTracker)
  : FilmingTracker :=
  mkTracker (config self) (ai_advisor self) (tracked_subjects self)
    (tracking_history self) a (running self)
    (max_tracking_distance self) (framing_threshold self) (lost_timeout self)
    (store self).

Definition set_store (s : list TrackedSubject) (self : FilmingTracker)
  : FilmingTracker :=
  mkTracker (config self) (ai_advisor self) (tracked_subjects self)
    (tracking_history self) (advice_history self) (running self)
    (max_tracking_distance self) (framing_threshold self) (lost_timeout self)
    s.

(** [start] and [shutdown] *)
Definition start (self : FilmingTracker) : FilmingTracker := set_running true self.
Definition shutdown (self : FilmingTracker) : FilmingTracker := set_running false self.

(** [clear_history] *)
Definition clear_history (self : FilmingTracker) : FilmingTracker :=
  set_tracked_subjects ∅ (set_advice_history [] (set_tracking_history [] self)).

Definition frame_width : R := 1920.
Definition frame_height : R := 1080.

(** [_calculate_framing_quality].  The unpacking [x1, y1, x2, y2 = bbox]
    raises ValueError on a list of more than four values. *)
Definition _calculate_framing_quality (detection : Detection) : result R :=
  let bbox := default [0; 0; 0; 0] (det_bbox detection) in
  if (length bbox <? 4)%nat then Ok 0.5
  else
    match bbox with
    | [x1; y1; x2; y2] =>
        let center_x := (x1 + x2) / 2 in
        let center_y := (y1 + y2) / 2 in
        let width := x2 - x1 in
        let height := y2 - y1 in
        let center_score := 1 - Rabs (center_x - frame_width / 2) / (frame_width / 2) in
        let center_score := py_max 0 center_score in
        let size_ratio := (width * height) / (frame_width * frame_height) in
        let size_score :=
          if bool_decide (0.1 < size_ratio) && bool_decide (size_ratio < 0.5) then 1
          else if decide (size_ratio < 0.05) then 0.3
          else if decide (0.7 < size_ratio) then 0.5
          else 0.7 in
        let confidence := default 0.5 (det_confidence detection) in
        let quality := center_score * 0.4 + size_score * 0.4 + confidence * 0.2 in
        Ok (py_min 1 (py_max 0 quality))
    | _ => Raise ValueError
    end.

(** [_determine_camera_angle]; a [camera_position] that is [None] or empty is
    [None]. *)
Definition _determine_camera_angle (detection : Detection)
    (camera_position : option CameraPosition) : string :=
  match camera_position with
  | None => "unknown"
  | Some _ =>
      let bbox := default [0; 0; 0; 0] (det_bbox detection) in
      if (length bbox <? 4)%nat then "unknown"
      else
        let y1 := nth 1 bbox 0 in
        if decide (y1 < frame_height * 0.3) then "overhead"
        else if decide (y1 < frame_height * 0.6) then "side"
        else "low_angle"
  end.

(** [detection.get("subject_id") or f"subject_{len(self.tracked_subjects)}"] *)
Definition detection_subject_id (self : FilmingTracker) (detection : Detection)
  : string :=
  match det_subject_id detection with
  | Some s => if String.eqb s "" then "subject_" +:+ pretty (size (tracked_subjects self))
              else s
  | None => "subject_" +:+ pretty (size (tracked_subjects self))
  end.

(** The assignments of the "update existing track" branch to the object. *)
Definition update_tracked (detection : Detection) (frame_number : Z)
    (current_time : R) (camera_angle : string) (framing_quality : R)
    (camera_position : option CameraPosition) (tracked : TrackedSubject)
  : TrackedSubject :=
  {| subject_id := subject_id tracked;
     position := default (position tracked) camera_position;
     bbox := default (bbox tracked) (det_bbox detection);
     confidence := default (confidence tracked) (det_confidence detection);
     frame_number := frame_number;
     timestamp := current_time;
     camera_angle := camera_angle;
     framing_quality := framing_quality;
     tracking_status := "tracking" |}.

(** The object of the "create new track" branch. *)
Definition new_tracked (subject_id : string) (detection : Detection)
    (frame_number : Z) (current_time : R) (camera_angle : string)
    (framing_quality : R) (camera_position : option CameraPosition)
  : TrackedSubject :=
  {| subject_id := subject_id;
     position := default (mkCameraPosition 0 0 0) camera_position;
     bbox := default [0; 0; 0; 0] (det_bbox detection);
     confidence := default 0 (det_confidence detection);
     frame_number := frame_number;
     timestamp := current_time;
     camera_angle := camera_angle;
     framing_quality := framing_quality;
     tracking_status := "tracking" |}.

(** The body of [for detection in detections]: the reference of the updated
    or created subject and the tracker after it, or the exception raised. *)
Definition process_detection (frame_number : Z)
    (camera_position : option CameraPosition) (current_time : R)
    (self : FilmingTracker) (detection : Detection)
  : result ref * FilmingTracker :=
  let subject_id := detection_subject_id self detection in
  match _calculate_framing_quality detection with
  | Raise e => (Raise e, self)
  | Ok framing_quality =>
      let camera_angle := _determine_camera_angle detection camera_position in
      let '(tracked, self) :=
        match tracked_subjects self !! subject_id with
        | Some tracked =>
            (tracked,
             set_store
               (alter (update_tracked detection frame_number current_time
                         camera_angle framing_quality camera_position)
                      tracked (store self))
               self)
        | None =>
            let tracked := length (store self) in
            (tracked,
             set_tracked_subjects (<[subject_id := tracked]> (tracked_subjects self))
               (set_store
                  (store self ++ [new_tracked subject_id detection frame_number
                                    current_time camera_angle framing_quality
                                    camera_position])
                  self))
        end in
      (Ok tracked, set_tracking_history (tracking_history self ++ [tracked]) self)
  end.

(** The loop over the detections, with [updated_subjects] as accumulator. *)
Fixpoint detection_loop (frame_number : Z)
    (camera_position : option CameraPosition) (current_time : R)
    (self : FilmingTracker) (updated_subjects : list ref)
    (detections : list Detection)
  : result (list ref) * FilmingTracker :=
  match detections with
  | [] => (Ok updated_subjects, self)
  | detection :: rest =>
      match process_detection frame_number camera_position current_time
              self detection with
      | (Raise e, self) => (Raise e, self)
      | (Ok tracked, self) =>
          detection_loop frame_number camera_position current_time self
            (updated_subjects ++ [tracked]) rest
      end
  end.

(** [tracked.tracking_status = "lost"] *)
Definition mark_lost (tracked : TrackedSubject) : TrackedSubject :=
  {| subject_id := subject_id tracked;
     position := position tracked;
     bbox := bbox tracked;
     confidence := confidence tracked;
     frame_number := frame_number tracked;
     timestamp := timestamp tracked;
     camera_angle := camera_angle tracked;
     framing_quality := framing_quality tracked;
     tracking_status := "lost" |}.

(** The body of the "check for lost tracks" loop, with [lost_subjects] as
    accumulator. *)
Definition check_lost_step (current_time : R)
    (acc : list ref * FilmingTracker) (item : string * ref)
  : list ref * FilmingTracker :=
  let '(lost_subjects, self) := acc in
  let '(subject_id, tracked) := item in
  match store self !! tracked with
  | Some obj =>
      if decide (lost_timeout self < current_time - timestamp obj) then
        (lost_subjects ++ [tracked],
         set_tracked_subjects (delete subject_id (tracked_subjects self))
           (set_store (alter mark_lost tracked (store self)) self))
      else (lost_subjects, self)
  | None => (lost_subjects, self)
  end.

(** The items of the live dict in the order Python iterates them, the order
    in which the keys were inserted.  A key is inserted when its subject is
    created, with the next free reference of the store (a key that was
    deleted and comes back is inserted anew, at the end), and an update of a
    present key leaves it in place: the order of insertion is the order of
    the references. *)
Definition inserted_before (x y : string * ref) : Prop := (x.2 ≤ y.2)%nat.

#[global] Instance inserted_before_dec x y : Decision (inserted_before x y) :=
  decide (x.2 ≤ y.2)%nat.

Definition dict_items (m : gmap string ref) : list (string * ref) :=
  merge_sort inserted_before (map_to_list m).

(** [for subject_id, tracked in list(self.tracked_subjects.items())] *)
Definition check_lost (current_time : R) (self : FilmingTracker)
  : list ref * FilmingTracker :=
  foldl (check_lost_step current_time) ([], self)
        (dict_items (tracked_subjects self)).

Section WithFormat.

(** The float formatting of [f"{x:.2f}"]. *)
Variable format_2f : R → string.

(** The advice [_generate_tracking_advice] appends for one subject. *)
Definition subject_advice (self : FilmingTracker) (current_time : R)
    (tracked : TrackedSubject) : list FilmingAdvice :=
  (if decide (framing_quality tracked < framing_threshold self) then
     [ {| advice_type := "framing";
          message := "Subject " +:+ subject_id tracked
                       +:+ " framing quality low ("
                       +:+ format_2f (framing_quality tracked)
                       +:+ "). Adjust camera position to center subject.";
          priority := "medium";
          advice_timestamp := current_time |} ]
   else [])
  ++
  (if String.eqb (tracking_status tracked) "lost" then
     [ {| advice_type := "movement";
          message := "Subject " +:+ subject_id tracked
                       +:+ " lost. Attempting to reacquire...";
          priority := "high";
          advice_timestamp := current_time |} ]
   else [])
  ++
  (match ai_advisor self with
   | Some advisor =>
       if decide (framing_quality tracked < 0.6) then
         match AIAdvisor.get_general_advice advisor
                 ("How should I improve framing for subject at camera angle "
                    +:+ camera_angle tracked +:+ "?")
                 (PyDict [("framing_quality", PyFloat (framing_quality tracked));
                          ("camera_angle", PyStr (camera_angle tracked));
                          ("bbox", PyList (PyFloat <$> bbox tracked))]) with
         | Ok ai_advice =>
             [ {| advice_type := "composition";
                  message := String.substring 0 200 ai_advice;
                  priority := "low";
                  advice_timestamp := current_time |} ]
         | Raise _ => []             (* except Exception: logged *)
         end
       else []
   | None => []
   end).

(** [_generate_tracking_advice]: the subjects are read through their
    references when the advice is generated. *)
Definition _generate_tracking_advice (self : FilmingTracker)
    (tracked_subjects : list ref) (camera_position : option CameraPosition)
    (current_time : R) : list FilmingAdvice :=
  flat_map
    (λ r, match store self !! r with
          | Some tracked => subject_advice self current_time tracked
          | None => []
          end)
    tracked_subjects.

(** [update_tracking].  [current_time] is the clock read at the top of the
    method, [advice_time] the one read by [_generate_tracking_advice].  The
    list [lost_subjects] is built and not used. *)
Definition update_tracking (self : FilmingTracker)
    (detections : list Detection) (frame_number : Z)
    (camera_position : option CameraPosition)
    (current_time advice_time : R)
  : result (list ref) * FilmingTracker :=
  if negb (running self) then (Ok [], self)
  else
    match detection_loop frame_number camera_position current_time
            self [] detections with
    | (Raise e, self) => (Raise e, self)
    | (Ok updated_subjects, self) =>
        let '(lost_subjects, self) := check_lost current_time self in
        let self :=
          match updated_subjects with
          | [] => self
          | _ :: _ =>
              let advice :=
                _generate_tracking_advice self updated_subjects
                  camera_position advice_time in
              match advice with
              | [] => self
              | _ :: _ => set_advice_history (advice_history self ++ advice) self
              end
          end in
        (Ok updated_subjects, self)
    end.

(** The states a tracker object goes through: the object [__init__] builds,
    and those the public methods lead to. *)
Inductive reachable : FilmingTracker → Prop :=
  | reach_init config ai_advisor :
      reachable (tracker_init config ai_advisor)
  | reach_start self :
      reachable self → reachable (start self)
  | reach_shutdown self :
      reachable self → reachable (shutdown self)
  | reach_clear_history self :
      reachable self → reachable (clear_history self)
  | reach_update_tracking self detections frame_number camera_position
      current_time advice_time :
      reachable self →
      reachable (update_tracking self detections frame_number camera_position
                   current_time advice_time).2.

End WithFormat.

(** *** The queries *)

(** An entry of the [subjects] list of [get_tracking_status]. *)
Record SubjectStatus : Type := mkSubjectStatus {
  ss_subject_id : string;
  ss_tracking_status : string;
  ss_framing_quality : R;
  ss_camera_angle : string
}.

Record TrackingStatus : Type := mkTrackingStatus {
  active_tracks : nat;
  total_tracked : nat;
  advice_count : nat;
  subjects : list SubjectStatus
}.

(** One entry of [subjects]. *)
Definition subject_status (sub : TrackedSubject) : SubjectStatus :=
  {| ss_subject_id := subject_id sub;
     ss_tracking_status := tracking_status sub;
     ss_framing_quality := framing_quality sub;
     ss_camera_angle := camera_angle sub |}.

(** [get_tracking_status].  The values of the live dict are read through the
    store, in the order of the dict. *)
Definition get_tracking_status (self : FilmingTracker) : TrackingStatus :=
  {| active_tracks := size (tracked_subjects self);
     total_tracked := length (tracking_history self);
     advice_count := length (advice_history self);
     subjects :=
       omap (λ item, subject_status <$> store self !! item.2)
            (dict_items (tracked_subjects self)) |}.

(** [get_recent_advice]: the entries are returned as dicts with the four
    fields of the advice. *)
Definition get_recent_advice (self : FilmingTracker) (count : Z) : list FilmingAdvice :=
  py_slice_from (- count) (advice_history self).

(** *** Vocabulary of the tracker's properties *)

(** The bounding box [_calculate_framing_quality] reads. *)
Definition bbox_of (d : Detection) : list R := default [0; 0; 0; 0] (det_bbox d).

(** What one iteration of the detection loop does. *)
Inductive detection_outcome (frame_number : Z)
    (camera_position : option CameraPosition) (current_time : R)
    (self : FilmingTracker) (detection : Detection)
  : result nat * FilmingTracker → Prop :=
  | outcome_raise e :
      _calculate_framing_quality detection = Raise e →
      detection_outcome frame_number camera_position current_time self detection
        (Raise e, self)
  | outcome_update q r :
      _calculate_framing_quality detection = Ok q →
      tracked_subjects self !! detection_subject_id self detection = Some r →
      detection_outcome frame_number camera_position current_time self detection
        (Ok r,
         set_tracking_history (tracking_history self ++ [r])
           (set_store
              (alter (update_tracked detection frame_number current_time
                        (_determine_camera_angle detection camera_position) q
                        camera_position) r (store self)) self))
  | outcome_create q :
      _calculate_framing_quality detection = Ok q →
      tracked_subjects self !! detection_subject_id self detection = None →
      detection_outcome frame_number camera_position current_time self detection
        (Ok (length (store self)),
         set_tracking_history (tracking_history self ++ [length (store self)])
           (set_tracked_subjects
              (<[detection_subject_id self detection := length (store self)]>
                 (tracked_subjects self))
              (set_store
                 (store self ++
                    [new_tracked (detection_subject_id self detection) detection
                       frame_number current_time
                       (_determine_camera_angle detection camera_position) q
                       camera_position]) self))).

(** Every live subject is an object of the store that carries its key and was
    recorded in the history. *)
Definition live_in_history (self : FilmingTracker) : Prop :=
  ∀ sid r, tracked_subjects self !! sid = Some r →
    r ∈ tracking_history self ∧
    ∃ obj, store self !! r = Some obj ∧ subject_id obj = sid.

(** A subject the current call has matched: refreshed at [t], tracking, with a
    quality in range. *)
Definition refreshed (t : R) (obj : TrackedSubject) : Prop :=
  timestamp obj = t ∧ tracking_status obj = "tracking"
  ∧ 0 <= framing_quality obj <= 1.

(** The fields no iteration of either loop assigns. *)
Definition same_settings (self self' : FilmingTracker) : Prop :=
  ai_advisor self' = ai_advisor self
  ∧ advice_history self' = advice_history self
  ∧ running self' = running self
  ∧ framing_threshold self' = framing_threshold self
  ∧ lost_timeout self' = lost_timeout self.

(** What one iteration of the detection loop establishes for the reference
    [r] it appends. *)
Record detection_step_spec (t : R) (self : FilmingTracker) (r : nat)
    (self' : FilmingTracker) : Prop := {
  step_settings : same_settings self self';
  step_history : tracking_history self' = tracking_history self ++ [r];
  step_live : ∀ sid r0, tracked_subjects self !! sid = Some r0 →
                tracked_subjects self' !! sid = Some r0;
  step_refreshed : ∀ obj, store self' !! r = Some obj → refreshed t obj;
  step_inv : live_in_history self →
             live_in_history self' ∧ is_Some (store self' !! r)
}.

(** What the detection loop establishes, for the references [new] it appends
    to [updated_subjects]. *)
Record detection_loop_spec (t : R) (self : FilmingTracker) (new : list nat)
    (self' : FilmingTracker) : Prop := {
  loop_settings : same_settings self self';
  loop_history : ∃ ext, tracking_history self' = tracking_history self ++ ext;
  loop_live : ∀ sid r0, tracked_subjects self !! sid = Some r0 →
                tracked_subjects self' !! sid = Some r0;
  loop_frame : ∀ r, r ∉ new → store self' !! r = store self !! r;
  loop_refreshed : ∀ r obj, r ∈ new → store self' !! r = Some obj → refreshed t obj;
  loop_inv : live_in_history self →
             live_in_history self' ∧ ∀ r, r ∈ new → is_Some (store self' !! r)
}.

(** What the lost-track loop can do to a tracker. *)
Record lost_spec (t : R) (self self' : FilmingTracker) : Prop := {
  lost_settings : same_settings self self';
  lost_history : tracking_history self' = tracking_history self;
  lost_live : ∀ sid r, tracked_subjects self' !! sid = Some r →
                tracked_subjects self !! sid = Some r;
  lost_store : ∀ r,
    store self' !! r = store self !! r ∨
    ∃ obj, store self !! r = Some obj
           ∧ lost_timeout self < t - timestamp obj
           ∧ store self' !! r = Some (mark_lost obj)
}.

Section Outcome.

Variable format_2f : R → string.

(** The three ways [update_tracking] ends. *)
Inductive update_outcome (self : FilmingTracker) (detections : list Detection)
    (frame_number : Z) (camera_position : option CameraPosition)
    (current_time advice_time : R)
  : result (list nat) * FilmingTracker → Prop :=
  | update_not_running :
      running self = false →
      update_outcome self detections frame_number camera_position
        current_time advice_time (Ok [], self)
  | update_raise e self1 :
      running self = true →
      detection_loop frame_number camera_position current_time self []
        detections = (Raise e, self1) →
      update_outcome self detections frame_number camera_position
        current_time advice_time (Raise e, self1)
  | update_ok updated self1 :
      running self = true →
      detection_loop frame_number camera_position current_time self []
        detections = (Ok updated, self1) →
      update_outcome self detections frame_number camera_position
        current_time advice_time
        (Ok updated,
         set_advice_history
           (advice_history (check_lost current_time self1).2 ++
              match updated with
              | [] => []
              | _ :: _ =>
                  _generate_tracking_advice format_2f
                    (check_lost current_time self1).2
                    updated camera_position advice_time
              end)
           (check_lost current_time self1).2).

End Outcome.

(** What holds of the objects a tracker has created: each carries one of the
    two statuses the code assigns and a quality in range, and the object of
    a live subject carries its key and is being tracked. *)
Definition store_invariant (self : FilmingTracker) : Prop :=
  (∀ r obj, store self !! r = Some obj →
     (tracking_status obj = "tracking" ∨ tracking_status obj = "lost")
     ∧ 0 <= framing_quality obj <= 1)
  ∧ (∀ sid r, tracked_subjects self !! sid = Some r →
       ∃ obj, store self !! r = Some obj
              ∧ subject_id obj = sid
              ∧ tracking_status obj = "tracking").

(** The bounding box has more coordinates than the unpacking takes. *)
Definition oversized (d : Detection) : Prop := (4 < length (bbox_of d))%nat.

#[global] Instance oversized_dec (d : Detection) : Decision (oversized d) :=
  Nat.lt_dec 4%nat (length (bbox_of d)).

(** A detection with a four-coordinate box. *)
Definition box_detection (sid : option string) (x1 y1 x2 y2 : R)
    (confidence : option R) : Detection :=
  mkDetection sid (Some [x1; y1; x2; y2]) confidence.

(** The three kinds of entry [_generate_tracking_advice] appends. *)
Definition advice_shape (t : R) (a : FilmingAdvice) : Prop :=
  advice_timestamp a = t
  ∧ ((advice_type a = "framing" ∧ priority a = "medium")
     ∨ (advice_type a = "movement" ∧ priority a = "high")
     ∨ (advice_type a = "composition" ∧ priority a = "low"
        ∧ (String.length (message a) ≤ 200)%nat)).

(** The "framing" entry for a subject of quality [q]. *)
Definition framing_notice (format_2f : R → string) (sid : string) (q t : R)
  : FilmingAdvice :=
  {| advice_type := "framing";
     message := "Subject " +:+ sid +:+ " framing quality low ("
                  +:+ format_2f q
                  +:+ "). Adjust camera position to center subject.";
     priority := "medium";
     advice_timestamp := t |}.

(** The "composition" entry an advisor without a capability gives rise to:
    its message is the advisor's own notice. *)
Definition unavailable_notice (t : R) : FilmingAdvice :=
  {| advice_type := "composition";
     message := "AI advice is currently unavailable. Please consult your operation manual.";
     priority := "low";
     advice_timestamp := t |}.

(** *** A closed scenario *)

(** A rendering of floats for the closed examples. *)
Definition render : R → string := λ _, "0.00".

Definition default_config : TrackerConfig := mkTrackerConfig None None None.

(** A detection centred in the 1920 x 1080 frame, covering 0.3 of it, with
    confidence 1. *)
Definition centered (sid : string) : Detection :=
  mkDetection (Some sid) (Some [480; 216; 1440; 864]) (Some 1).

(** Two malformed detections: a box of two coordinates, and one of five. *)
Definition short_box : Detection := mkDetection None (Some [1; 2]) None.
Definition long_box : Detection :=
  mkDetection (Some "s1") (Some [0; 0; 100; 100; 1]) (Some 0.9).

(** A started tracker after one frame, at time 0, with subject "s1". *)
Definition one_subject : FilmingTracker :=
  (update_tracking render (start (tracker_init default_config None))
     [centered "s1"] 1 None 0 0).2.

(** The same tracker after [shutdown]. *)
Definition stopped_tracker : FilmingTracker := shutdown one_subject.

(** The next call, at time 10, with one detection, of subject "s2". *)
Definition late_call : result (list nat) * FilmingTracker :=
  update_tracking render one_subject [centered "s2"] 2 None 10 10.

End Tracker.

(* ================================================================== *)
(** ** ground_control_station/server.py: the route endpoints *)
(* ================================================================== *)

Module Server.

Import RoutePlanner.

(** What an endpoint gives: the body of the response, or the HTTPException
    its [except Exception as e] clause raises, whose [detail] is [str(e)]. *)
Inductive http (A : Type) : Type :=
  | Response (body : A)
  | HTTPException (status_code : Z) (detail : exn).

Arguments Response {A} body.

Arguments HTTPException {A} status_code detail.

(** [RoutePlanRequest]: a position dict that is given and not empty carries
    both coordinates; [None] stands for an absent and for an empty dict,
    which [or] does not distinguish. *)
Record RoutePlanRequest : Type := mkRoutePlanRequest {
  operation : string;
  mode : string;
  location : option Position;
  destination : option Position
}.

(** The ["route"] object of a response. *)
Record RouteBody : Type := mkRouteBody {
  body_waypoints : list (R * R * R);
  body_distance : npfloat;
  body_estimated_time : npfloat
}.

Definition route_body (route : RoutePlan) : RouteBody :=
  {| body_waypoints := (λ wp, (wp_lat wp, wp_lon wp, altitude wp)) <$> waypoints route;
     body_distance := total_distance route;
     body_estimated_time := estimated_duration route |}.

(** The answer of a route endpoint without a planner. *)
Definition no_route : RouteBody :=
  {| body_waypoints := []; body_distance := Finite 0;
     body_estimated_time := Finite 0 |}.

Definition ORIGIN : Position := mkPosition 0 0.

(** The module-level [route_planner]: [default_config] has no ["planning"]
    section. *)
Definition route_planner_init : option CivilianRoutePlanner :=
  Some (planner_init no_planning_config).

(** The end of a route endpoint: the response built from the route, or the
    HTTPException for the exception of the planner.  The planner object is
    the one the call has left. *)
Definition answer (r : result RoutePlan * CivilianRoutePlanner)
  : http RouteBody * option CivilianRoutePlanner :=
  match r with
  | (Ok route, planner) => (Response (route_body route), Some planner)
  | (Raise e, planner) => (HTTPException 500 e, Some planner)
  end.

(** [x or default] on a string. *)
Definition str_or (x default : string) : string :=
  if String.eqb x "" then default else x.

(** POST /api/civilian/route/plan-filming *)
Definition plan_filming_route_endpoint
    (route_planner : option CivilianRoutePlanner) (request : RoutePlanRequest)
    (now : R) : http RouteBody * option CivilianRoutePlanner :=
  match route_planner with
  | None => (Response no_route, None)
  | Some planner =>
      let start_pos := default ORIGIN (location request) in
      let subject_positions :=
        match destination request with
        | Some d => [d]
        | None => [start_pos]
        end in
      answer (plan_filming_route planner start_pos subject_positions
                (str_or (operation request) "wedding") None now)
  end.

(** POST /api/civilian/route/plan-hunting *)
Definition plan_hunting_route_endpoint
    (route_planner : option CivilianRoutePlanner) (request : RoutePlanRequest)
    (now : R) : http RouteBody * option CivilianRoutePlanner :=
  match route_planner with
  | None => (Response no_route, None)
  | Some planner =>
      let start_pos := default ORIGIN (location request) in
      let target_location := default ORIGIN (destination request) in
      answer (plan_hunting_route planner start_pos target_location
                (str_or (operation request) "deer") None None now)
  end.

(** POST /api/civilian/route/plan-fishing *)
Definition plan_fishing_route_endpoint
    (route_planner : option CivilianRoutePlanner) (request : RoutePlanRequest)
    (now : R) : http RouteBody * option CivilianRoutePlanner :=
  match route_planner with
  | None => (Response no_route, None)
  | Some planner =>
      let start_pos := default ORIGIN (location request) in
      let end_pos := default ORIGIN (destination request) in
      answer (plan_general_route planner start_pos end_pos 5 now)
  end.

(** POST /api/civilian/route/plan *)
Definition plan_general_route_endpoint
    (route_planner : option CivilianRoutePlanner) (request : RoutePlanRequest)
    (now : R) : http RouteBody * option CivilianRoutePlanner :=
  match route_planner with
  | None => (Response no_route, None)
  | Some planner =>
      let start_pos := default ORIGIN (location request) in
      let end_pos := default ORIGIN (destination request) in
      answer (plan_general_route planner start_pos end_pos 5 now)
  end.

(** A waypoint of the mining route response. *)
Record MiningWaypoint : Type := mkMiningWaypoint {
  mw_id : string;
  mw_lat : R;
  mw_lon : R;
  mw_alt : R;
  mw_name : string
}.

Record MiningBody : Type := mkMiningBody {
  mining_waypoints : list MiningWaypoint;
  distance_km : npfloat;
  estimated_time_minutes : npfloat
}.

Section WithFloat.

(** [float(s)] on a string: the number it spells, or ValueError. *)
Variable float_of_str : string → result R.

(** [float(v)] *)
Definition py_float (v : pyval) : result R :=
  match v with
  | PyFloat r => Ok r
  | PyInt z => int_to_float z
  | PyBool b => Ok (if b then 1 else 0)
  | PyStr s => float_of_str s
  | _ => Raise TypeError
  end.

(** [{"lat": float(p.get("lat", 0)), "lon": float(p.get("lon", 0))}] *)
Definition float_position (p : pyval) : result Position :=
  rbind (py_get p "lat" (PyInt 0)) (λ a, rbind (py_float a) (λ lat_,
  rbind (py_get p "lon" (PyInt 0)) (λ b, rbind (py_float b) (λ lon_,
  Ok (mkPosition lat_ lon_))))).

(** POST /api/mining/route/plan; [request] is the JSON object of the
    request, given by its items. *)
Definition plan_mining_route_endpoint
    (route_planner : option CivilianRoutePlanner)
    (request : list (string * pyval)) (now : R)
  : http MiningBody * option CivilianRoutePlanner :=
  let start :=
    let v := dict_get "location" PyNone request in
    if AIAdvisor.py_truthy v then v
    else PyDict [("lat", PyFloat 0); ("lon", PyFloat 0)] in
  let end_ :=
    let v := dict_get "destination" PyNone request in
    if AIAdvisor.py_truthy v then v else start in
  match route_planner with
  | Some planner =>
      match rbind (float_position start) (λ start_pos,
            rbind (float_position end_) (λ end_pos, Ok (start_pos, end_pos))) with
      | Raise e => (HTTPException 500 e, Some planner)
      | Ok (start_pos, end_pos) =>
          match plan_general_route planner start_pos end_pos 5 now with
          | (Ok route, planner) =>
              (Response
                 {| mining_waypoints :=
                      imap (λ i wp,
                              {| mw_id := "wp_" +:+ pretty i;
                                 mw_lat := wp_lat wp; mw_lon := wp_lon wp;
                                 mw_alt := altitude wp;
                                 mw_name := description wp |})
                           (waypoints route);
                    distance_km := np_truediv (total_distance route) 1000;
                    estimated_time_minutes :=
                      np_truediv (estimated_duration route) 60 |},
               Some planner)
          | (Raise e, planner) => (HTTPException 500 e, Some planner)
          end
      end
  | None =>
      match rbind (float_position start) (λ start_pos,
            rbind (float_position end_) (λ end_pos, Ok (start_pos, end_pos))) with
      | Raise e => (HTTPException 500 e, None)
      | Ok (start_pos, end_pos) =>
          (Response
             {| mining_waypoints := [
                  {| mw_id := "wp_0"; mw_lat := lat start_pos;
                     mw_lon := lon start_pos; mw_alt := 50; mw_name := "Start" |};
                  {| mw_id := "wp_1"; mw_lat := lat end_pos;
                     mw_lon := lon end_pos; mw_alt := 50; mw_name := "End" |} ];
                distance_km := Finite 0;
                estimated_time_minutes := Finite 0 |},
           None)
      end
  end.

End WithFloat.

(** The positions a typed request stands for. *)
Definition request_start (request : RoutePlanRequest) : Position :=
  default ORIGIN (location request).

Definition request_subject (request : RoutePlanRequest) : Position :=
  default (request_start request) (destination request).

Definition request_target (request : RoutePlanRequest) : Position :=
  default ORIGIN (destination request).

End Server.

(* ================================================================== *)
(** * Properties *)
(* ================================================================== *)

(* ------------------------------------------------------------------ *)
(** ** Geodesy *)
(* ------------------------------------------------------------------ *)

Section Geodesy.
Import RoutePlanner.

Lemma sin_half_sq x y :
  (sin ((y - x) / 2)) ^ 2 = (1 - (cos y * cos x + sin y * sin x)) / 2.
Proof.
  rewrite <- cos_minus.
  replace (y - x) with (2 * ((y - x) / 2)) at 2 by field.
  rewrite cos_2a_sin. field.
Qed.

Lemma sin_sq_bound x : 0 <= (sin x) ^ 2 <= 1.
Proof. pose proof (SIN_bound x). nra. Qed.

(** In exact arithmetic the haversine term is a convex combination of
    [(1 - cos (lat2 - lat1)) / 2] and [(1 + cos (lat2 + lat1)) / 2]. *)
Lemma haversine_a_bounds lat1 lon1 lat2 lon2 :
  0 <= haversine_a lat1 lon1 lat2 lon2 <= 1.
Proof.
  unfold haversine_a, np_sin, np_cos.
  set (L1 := np_radians lat1). set (L2 := np_radians lat2).
  set (D := np_radians (lon2 - lon1)).
  rewrite sin_half_sq.
  pose proof (sin_sq_bound (D / 2)) as Hu.
  set (u := sin (D / 2) ^ 2) in *.
  pose proof (COS_bound (L2 - L1)) as HU. rewrite cos_minus in HU.
  pose proof (COS_bound (L2 + L1)) as HV. rewrite cos_plus in HV.
  set (c1 := cos L1) in *. set (c2 := cos L2) in *.
  set (s1 := sin L1) in *. set (s2 := sin L2) in *.
  split; nra.
Qed.

Lemma haversine_a_sym lat1 lon1 lat2 lon2 :
  haversine_a lat1 lon1 lat2 lon2 = haversine_a lat2 lon2 lat1 lon1.
Proof.
  unfold haversine_a, np_sin, np_cos, np_radians.
  replace ((lat1 * (PI / 180) - lat2 * (PI / 180)) / 2)
    with (- ((lat2 * (PI / 180) - lat1 * (PI / 180)) / 2)) by field.
  replace ((lon1 - lon2) * (PI / 180) / 2)
    with (- ((lon2 - lon1) * (PI / 180) / 2)) by field.
  rewrite !sin_neg. ring.
Qed.


Lemma haversine_c_finite a :
  0 <= a <= 1 →
  haversine_c a = Finite (2 * np_arctan2 (sqrt a) (sqrt (1 - a))).
Proof.
  intros [H0 H1]. unfold haversine_c, np_sqrt.
  rewrite !decide_False by lra. reflexivity.
Qed.



Lemma np_arctan2_1_0 : np_arctan2 1 0 = PI / 2.
Proof.
  unfold np_arctan2. rewrite !decide_False by lra.
  rewrite decide_True by lra. reflexivity.
Qed.


Lemma segment_distance_sym w1 w2 :
  segment_distance w1 w2 = segment_distance w2 w1.
Proof. unfold segment_distance. by rewrite haversine_a_sym. Qed.

Lemma segment_distance_finite w1 w2 : ∃ d, segment_distance w1 w2 = Finite d.
Proof.
  unfold segment_distance.
  rewrite haversine_c_finite by apply haversine_a_bounds. by eexists.
Qed.

Lemma sum_segments_cons total w1 w2 wps :
  sum_segments total (w1 :: w2 :: wps)
  = sum_segments (np_add total (segment_distance w1 w2)) (w2 :: wps).
Proof. reflexivity. Qed.

Lemma sum_segments_finite wps : ∀ t, ∃ d, sum_segments (Finite t) wps = Finite d.
Proof.
  induction wps as [|w1 wps IH]; intros t; [by eexists|].
  destruct wps as [|w2 wps]; [by eexists|].
  rewrite sum_segments_cons.
  destruct (segment_distance_finite w1 w2) as [d ->]. apply IH.
Qed.

Lemma total_distance_finite wps : ∃ d, _calculate_total_distance wps = Finite d.
Proof.
  unfold _calculate_total_distance.
  case_match; [by eexists|apply sum_segments_finite].
Qed.


Lemma py_mod_range x m : 0 < m → 0 <= py_mod x m < m.
Proof.
  intros Hm. unfold py_mod.
  destruct (base_Int_part (x / m)) as [H1 H2].
  set (k := IZR (Int_part (x / m))) in *.
  assert (x = (x / m) * m) as Hx by (field; lra).
  split.
  - assert (k * m <= x / m * m) by nra. lra.
  - assert ((x / m - k) * m < 1 * m) by (apply Rmult_lt_compat_r; lra). lra.
Qed.

Lemma heading_range p q : 0 <= _calculate_heading p q < 360.
Proof. apply py_mod_range. lra. Qed.



End Geodesy.

(* ------------------------------------------------------------------ *)
(** ** Geodesy in floating point *)
(* ------------------------------------------------------------------ *)

Section FloatGeodesyProperties.
Import PrimFloat FloatGeodesy.
Local Open Scope float_scope.

Lemma haversine_a_near_antipodes np_sin np_cos np_power np_arctan2 :
  libm_near_antipodes np_sin np_cos np_power np_arctan2 →
  haversine_a np_sin np_cos np_power north south = 0x1.0000000000001p+0.
Proof.
  intros [H1 H2 H3 H4 H5 H6 _ _]. unfold haversine_a, north, south.
  cbn [lat lon].
  change ((np_radians (-8) - np_radians 8) / 2) with (-0x1.1df46a2529d39p-3).
  change (np_radians (180 - 0) / 2) with 0x1.921fb54442d18p+0.
  change (np_radians 8) with 0x1.1df46a2529d39p-3.
  change (np_radians (-8)) with (-0x1.1df46a2529d39p-3).
  rewrite H1, H2, H3, H4, H5, H6. reflexivity.
Qed.

(** C7.  The code does not clamp the haversine term, and rounding takes it
    above 1.  For the segment from (8, 0) to (-8, 180), two antipodal
    points, with the values glibc gives for the sines, cosines and squares
    involved: the computed term is 1 + 2^-52, which is greater than 1; the
    square root of 1 - a is then taken of a negative number, so the distance
    of the segment is NaN and so is the total distance of the route made of
    the two waypoints.  With the clamp the specification asks for, the same
    segment has the length of half a great circle, 20015086.79602057 m. *)
Theorem total_distance_is_nan_near_antipodes np_sin np_cos np_power np_arctan2 :
  libm_near_antipodes np_sin np_cos np_power np_arctan2 →
  haversine_a np_sin np_cos np_power north south = 0x1.0000000000001p+0
  ∧ (1 <? haversine_a np_sin np_cos np_power north south) = true
  ∧ is_nan (segment_distance np_sin np_cos np_power np_arctan2 north south) = true
  ∧ is_nan (_calculate_total_distance np_sin np_cos np_power np_arctan2
              [north; south]) = true
  ∧ clamped_segment_distance np_sin np_cos np_power np_arctan2 north south
    = 0x1.3167eecbc8011p+24.
Proof.
  intros H. pose proof (haversine_a_near_antipodes _ _ _ _ H) as Ha.
  destruct H as [_ _ _ _ _ _ Hnan H10].
  split_and!.
  - done.
  - by rewrite Ha.
  - unfold segment_distance, haversine_distance. rewrite Ha.
    change (np_sqrt (1 - 0x1.0000000000001p+0)) with nan.
    by rewrite Hnan.
  - unfold _calculate_total_distance, sum_segments, segment_distance,
      haversine_distance. cbn [length Nat.ltb Nat.leb]. rewrite Ha.
    change (np_sqrt (1 - 0x1.0000000000001p+0)) with nan.
    by rewrite Hnan.
  - unfold clamped_segment_distance, haversine_distance. rewrite Ha.
    change (clamp01 0x1.0000000000001p+0) with 1.
    change (np_sqrt 1) with 1. change (np_sqrt (1 - 1)) with 0.
    by rewrite H10.
Qed.

Lemma total_distance_is_nan_near_antipodes_witness :
  haversine_a table_sin table_cos table_power north south = 0x1.0000000000001p+0
  ∧ (1 <? haversine_a table_sin table_cos table_power north south) = true
  ∧ is_nan (segment_distance table_sin table_cos table_power table_arctan2
              north south) = true
  ∧ is_nan (_calculate_total_distance table_sin table_cos table_power
              table_arctan2 [north; south]) = true
  ∧ clamped_segment_distance table_sin table_cos table_power table_arctan2
      north south
    = 0x1.3167eecbc8011p+24.
Proof.
  apply (total_distance_is_nan_near_antipodes table_sin table_cos table_power
           table_arctan2).
  split; try reflexivity.
Defined.

End FloatGeodesyProperties.

(* ------------------------------------------------------------------ *)
(** ** Route planner *)
(* ------------------------------------------------------------------ *)

Section RoutePlannerProperties.
Import RoutePlanner.

(** C2, counterexample.  On the example of the specification the route does
    not have 6 waypoints. *)
Lemma mustering_example_has_not_six_waypoints :
  ¬ ∃ route,
      (plan_mustering_route (planner_init no_planning_config)
         (mkPosition 0 0) (mkPosition 0 0.01) (Some 50%Z) None 0).1 = Ok route
      ∧ length (waypoints route) = 6%nat.
Proof.
  intros (route & H & Hlen). cbn in H. inversion H; subst.
  cbn in Hlen. discriminate.
Qed.

(** C2, amended.  For every pair of positions [plan_mustering_route] returns a
    route of exactly 5 waypoints (wide-arc approach, herd, midpoint,
    destination approach, destination) and records it in the history; the
    last waypoint is at the destination and its speed, 1.0, is strictly below
    the speed of every other waypoint. *)
Theorem plan_mustering_route_shape self herd_location destination herd_size
    terrain now :
  ∃ route,
    plan_mustering_route self herd_location destination herd_size terrain now
      = (Ok route, append_route self route)
    ∧ length (waypoints route) = 5%nat
    ∧ ∃ final,
        last (waypoints route) = Some final
        ∧ wp_lat final = lat destination
        ∧ wp_lon final = lon destination
        ∧ speed final = 1
        ∧ ∀ i w, (i < 4)%nat → waypoints route !! i = Some w →
                 speed final < speed w.
Proof.
  eexists. split; [reflexivity|]. split; [reflexivity|].
  eexists. split; [reflexivity|]. cbn. split_and!; try reflexivity.
  intros i w Hi Hw.
  destruct i as [|[|[|[|i]]]]; try lia; cbn in Hw; inversion Hw; subst; cbn; lra.
Qed.

Lemma planner_reachable_approach_speed self :
  planner_reachable self → approach_speed self = None.
Proof.
  induction 1 as [config
                 |self start_pos subjects kind advice now _ IH
                 |self herd dest size terrain now _ IH
                 |self start_pos target animal terrain wind now _ IH
                 |self start_pos end_pos n now _ IH].
  - reflexivity.
  - unfold plan_filming_route. by destruct (filming_loop _ _ _ _ _ _).
  - exact IH.
  - unfold plan_hunting_route. by destruct wind.
  - unfold plan_general_route. by rewrite IH.
Qed.

(** C3, the failing call.  [__init__] never assigns [approach_speed] and no
    operation does: on every planner object a program can hold, and for every
    start, end and waypoint count, [plan_general_route] raises AttributeError
    when it builds the end waypoint, and returns no route. *)
Theorem plan_general_route_raises self start_pos end_pos waypoint_count now :
  planner_reachable self →
  plan_general_route self start_pos end_pos waypoint_count now
    = (Raise AttributeError, self).
Proof.
  intros Hreach. unfold plan_general_route.
  by rewrite (planner_reachable_approach_speed self Hreach).
Qed.

Lemma plan_general_route_raises_witness :
  plan_general_route (planner_init no_planning_config)
    (mkPosition 0 0) (mkPosition 0 0.01) 5 0
  = (Raise AttributeError, planner_init no_planning_config).
Proof.
  apply (plan_general_route_raises (planner_init no_planning_config)).
  apply planner_reach_init.
Defined.

Lemma advice_camera_angle_ok filming_advice i :
  angles_available filming_advice →
  ∃ angle, advice_camera_angle filming_advice i = Ok angle.
Proof.
  unfold angles_available, advice_camera_angle.
  destruct filming_advice as [d|]; [|by eexists].
  intros H. destruct (fa_camera_angles d) as [[|x l]|]; cbn; [done| |]; by eexists.
Qed.

Lemma subject_waypoints_with_orbit n kind filming_advice wps i p :
  angles_available filming_advice →
  bool_decide (1 < n)%nat || String.eqb kind "advertisement" = true →
  ∃ wps',
    filming_subject_waypoints n kind filming_advice wps i p = Ok wps'
    ∧ wp_summary <$> wps'
      = (wp_summary <$> wps)
          ++ [approach_summary i p; film_summary i p; orbit_summary i p].
Proof.
  intros Ha Hn. unfold filming_subject_waypoints.
  destruct (advice_camera_angle_ok filming_advice i Ha) as [a ->].
  cbn [rbind]. rewrite Hn.
  eexists; split; [reflexivity|]. rewrite !fmap_app, <- !app_assoc. reflexivity.
Qed.

Lemma subject_waypoints_without_orbit n kind filming_advice wps i p :
  angles_available filming_advice →
  bool_decide (1 < n)%nat || String.eqb kind "advertisement" = false →
  ∃ wps',
    filming_subject_waypoints n kind filming_advice wps i p = Ok wps'
    ∧ wp_summary <$> wps'
      = (wp_summary <$> wps) ++ [approach_summary i p; film_summary i p].
Proof.
  intros Ha Hn. unfold filming_subject_waypoints.
  destruct (advice_camera_angle_ok filming_advice i Ha) as [a ->].
  cbn [rbind]. rewrite Hn.
  eexists; split; [reflexivity|]. rewrite !fmap_app, <- !app_assoc. reflexivity.
Qed.

Lemma filming_loop_with_orbit n kind filming_advice subjects :
  angles_available filming_advice →
  bool_decide (1 < n)%nat || String.eqb kind "advertisement" = true →
  ∀ wps i, ∃ wps',
    filming_loop n kind filming_advice wps i subjects = Ok wps'
    ∧ wp_summary <$> wps'
      = (wp_summary <$> wps)
          ++ concat (imap (λ j p, [approach_summary (i + j) p;
                                   film_summary (i + j) p;
                                   orbit_summary (i + j) p]) subjects).
Proof.
  intros Ha Hn. induction subjects as [|p subjects IH]; intros wps i.
  - eexists; split; [reflexivity|]. cbn. by rewrite app_nil_r.
  - cbn [filming_loop].
    destruct (subject_waypoints_with_orbit n kind filming_advice wps i p Ha Hn)
      as (wps1 & -> & H1).
    cbn [rbind]. destruct (IH wps1 (S i)) as (wps' & -> & H').
    eexists; split; [reflexivity|]. rewrite H', H1. cbn [imap concat].
    rewrite <- app_assoc. f_equal. rewrite Nat.add_0_r. cbn [app]. do 3 f_equal.
    f_equal. apply imap_ext. intros j q _. cbn. by rewrite Nat.add_succ_r.
Qed.

(** The shape of a filming route when the advice, if there is one, has a
    camera angle to offer (the input on which the call raises is set apart
    below): with exactly one subject position and an operation kind other than
    "advertisement" the route has exactly 3 waypoints, the start, the approach
    and the film waypoint, and no orbit; with two or more subject positions
    the start waypoint is followed, for each subject in turn, by its approach
    waypoint, its film waypoint and, immediately after it, its orbit
    waypoint. *)
Theorem plan_filming_route_waypoints self start_pos subject_positions
    operation_type filming_advice now :
  angles_available filming_advice →
  (∀ p, subject_positions = [p] → operation_type ≠ "advertisement" →
     ∃ route,
       plan_filming_route self start_pos subject_positions operation_type
         filming_advice now = (Ok route, append_route self route)
       ∧ length (waypoints route) = 3%nat
       ∧ wp_summary <$> waypoints route
         = [start_summary start_pos; approach_summary 0 p; film_summary 0 p])
  ∧ ((2 ≤ length subject_positions)%nat →
     ∃ route,
       plan_filming_route self start_pos subject_positions operation_type
         filming_advice now = (Ok route, append_route self route)
       ∧ wp_summary <$> waypoints route
         = start_summary start_pos
           :: concat (imap (λ i p, [approach_summary i p;
                                    film_summary i p;
                                    orbit_summary i p]) subject_positions)).
Proof.
  intros Ha. split.
  - intros p -> Hk. unfold plan_filming_route. cbn [length filming_loop].
    assert (bool_decide (1 < 1)%nat || String.eqb operation_type "advertisement"
            = false) as Hn.
    { rewrite bool_decide_eq_false_2 by lia. cbn. by apply String.eqb_neq. }
    edestruct (subject_waypoints_without_orbit 1 operation_type filming_advice)
      as (wps & -> & H); [done..|].
    cbn [rbind]. eexists; split; [reflexivity|]. cbn [waypoints].
    split; [|by rewrite H].
    apply (f_equal length) in H. by rewrite length_fmap in H.
  - intros Hlen. unfold plan_filming_route.
    edestruct (filming_loop_with_orbit (length subject_positions) operation_type
                 filming_advice subject_positions Ha) as (wps & -> & H).
    { rewrite bool_decide_eq_true_2 by lia. reflexivity. }
    eexists; split; [reflexivity|]. cbn [waypoints]. by rewrite H.
Qed.

Lemma plan_filming_route_waypoints_witness :
  (∃ route,
     plan_filming_route (planner_init no_planning_config) (mkPosition 0 0)
       [mkPosition 1 1] "wedding" None 0
     = (Ok route, append_route (planner_init no_planning_config) route)
     ∧ length (waypoints route) = 3%nat
     ∧ wp_summary <$> waypoints route
       = [start_summary (mkPosition 0 0); approach_summary 0 (mkPosition 1 1);
          film_summary 0 (mkPosition 1 1)]).
Proof.
  refine (proj1 (plan_filming_route_waypoints (planner_init no_planning_config)
                   (mkPosition 0 0) [mkPosition 1 1] "wedding" None 0 I)
                (mkPosition 1 1) eq_refl _).
  discriminate.
Defined.

(** *** The other operations, and the one input on which filming raises *)

Lemma filming_loop_returns n kind filming_advice subjects :
  angles_available filming_advice →
  ∀ wps i, ∃ wps', filming_loop n kind filming_advice wps i subjects = Ok wps'.
Proof.
  intros Ha. induction subjects as [|p subjects IH]; intros wps i; [by eexists|].
  cbn [filming_loop].
  destruct (bool_decide (1 < n)%nat || String.eqb kind "advertisement") eqn:Hn.
  - destruct (subject_waypoints_with_orbit n kind filming_advice wps i p Ha Hn)
      as (wps1 & -> & _). apply IH.
  - destruct (subject_waypoints_without_orbit n kind filming_advice wps i p Ha Hn)
      as (wps1 & -> & _). apply IH.
Qed.

Lemma plan_filming_route_returns self start_pos subject_positions operation_type
    filming_advice now :
  angles_available filming_advice →
  ∃ route,
    plan_filming_route self start_pos subject_positions operation_type
      filming_advice now = (Ok route, append_route self route).
Proof.
  intros Ha. unfold plan_filming_route.
  edestruct (filming_loop_returns (length subject_positions) operation_type
               filming_advice subject_positions Ha) as [wps ->].
  by eexists.
Qed.

(** With an advice whose [camera_angles] list is empty and at least one
    subject, the film waypoint's [i % len(...)] raises ZeroDivisionError and
    no route is built. *)
Lemma plan_filming_route_empty_angles self start_pos p subject_positions
    operation_type d now :
  fa_camera_angles d = Some [] →
  plan_filming_route self start_pos (p :: subject_positions) operation_type
    (Some d) now = (Raise ZeroDivisionError, self).
Proof.
  intros Hd. unfold plan_filming_route. cbn [filming_loop].
  unfold filming_subject_waypoints, advice_camera_angle. by rewrite Hd.
Qed.

(** C6.  On an advice whose [camera_angles] list is empty the call returns
    no route in either case of the claim: with exactly one subject position
    and an operation kind other than "advertisement", and with two or more
    subject positions, [plan_filming_route] raises ZeroDivisionError at the
    first film waypoint ([camera_angles[i % len(camera_angles)]], where the
    neighbouring [shot_sequence] is guarded against emptiness) and leaves
    the planner without a new route. *)
Theorem plan_filming_route_raises_without_camera_angles self start_pos
    subject_positions operation_type d now :
  fa_camera_angles d = Some [] →
  (∀ p, subject_positions = [p] → operation_type ≠ "advertisement" →
     plan_filming_route self start_pos subject_positions operation_type
       (Some d) now = (Raise ZeroDivisionError, self))
  ∧ ((2 ≤ length subject_positions)%nat →
     plan_filming_route self start_pos subject_positions operation_type
       (Some d) now = (Raise ZeroDivisionError, self)).
Proof.
  intros Hd. split.
  - intros p -> _. by apply plan_filming_route_empty_angles.
  - destruct subject_positions as [|p rest]; cbn [length]; [lia|].
    intros _. by apply plan_filming_route_empty_angles.
Qed.

Lemma plan_filming_route_raises_without_camera_angles_witness :
  plan_filming_route (planner_init no_planning_config) (mkPosition 0 0)
    [mkPosition 1 1] "wedding" (Some no_angles_advice) 0
  = (Raise ZeroDivisionError, planner_init no_planning_config).
Proof.
  refine (proj1 (plan_filming_route_raises_without_camera_angles
                   (planner_init no_planning_config) (mkPosition 0 0)
                   [mkPosition 1 1] "wedding" no_angles_advice 0 eq_refl)
                (mkPosition 1 1) eq_refl _).
  discriminate.
Defined.

Lemma plan_hunting_route_returns self start_pos target_location animal_type
    terrain wind_direction now :
  ∃ route,
    plan_hunting_route self start_pos target_location animal_type terrain
      wind_direction now = (Ok route, append_route self route)
    ∧ length (waypoints route) = 3%nat.
Proof. unfold plan_hunting_route. destruct wind_direction; by eexists. Qed.

End RoutePlannerProperties.

(* ------------------------------------------------------------------ *)
(** ** Advisory generator *)
(* ------------------------------------------------------------------ *)

Section AIAdvisorProperties.
Import AIAdvisor.

Lemma filming_advice_from_ai_falls_back json_loads integration operation_type
    location subject_info weather :
  (∀ question context text,
     generate_expert_advice integration question context = Ok text →
     unparsable json_loads text) →
  _get_filming_advice_from_ai json_loads integration operation_type
    location subject_info weather
  = Ok (_get_filming_advice_default operation_type).
Proof.
  intros H. unfold _get_filming_advice_from_ai.
  destruct (generate_expert_advice integration _ _) as [text|e] eqn:Hgen;
    [|reflexivity].
  specialize (H _ _ _ Hgen). unfold unparsable in H. cbn.
  destruct (json_loads text) as [v|e] eqn:Hj; cbn.
  - destruct v; try reflexivity. exfalso. by eapply H.
  - destruct e; reflexivity.
Qed.

(** C1.  For the wedding operation kind, when no capability is configured and
    when the configured capability answers with text that is not a structured
    document, [get_filming_advice] raises nothing and returns the same
    advice, the wedding default: altitude 25.0, speed 2.0 and a shot sequence
    of 4 entries. *)
Theorem get_filming_advice_wedding_default json_loads self location
    subject_info weather :
  capability_absent self ∨ capability_unparsable json_loads self →
  ∃ advice shots,
    get_filming_advice json_loads self FILMING_WEDDING location subject_info
      weather = Ok advice
    ∧ advice = _get_filming_advice_default FILMING_WEDDING
    ∧ recommended_altitude advice = PyFloat 25
    ∧ recommended_speed advice = PyFloat 2
    ∧ shot_sequence advice = PyList shots
    ∧ length shots = 4%nat.
Proof.
  intros H. eexists _, _. split_and!; [|reflexivity..].
  unfold get_filming_advice.
  destruct H as [->|(integration & -> & H)]; [reflexivity|].
  by apply filming_advice_from_ai_falls_back.
Qed.

Lemma get_filming_advice_wedding_default_witness :
  (∃ advice shots,
     get_filming_advice empty_object_loads (advisor_init None) FILMING_WEDDING
       PyNone PyNone PyNone = Ok advice
     ∧ advice = _get_filming_advice_default FILMING_WEDDING
     ∧ recommended_altitude advice = PyFloat 25
     ∧ recommended_speed advice = PyFloat 2
     ∧ shot_sequence advice = PyList shots
     ∧ length shots = 4%nat)
  ∧ (∃ advice shots,
     get_filming_advice empty_object_loads
       (advisor_init (Some unconfigured_service)) FILMING_WEDDING
       PyNone PyNone PyNone = Ok advice
     ∧ advice = _get_filming_advice_default FILMING_WEDDING
     ∧ recommended_altitude advice = PyFloat 25
     ∧ recommended_speed advice = PyFloat 2
     ∧ shot_sequence advice = PyList shots
     ∧ length shots = 4%nat).
Proof.
  split.
  - apply get_filming_advice_wedding_default. left. reflexivity.
  - apply get_filming_advice_wedding_default. right.
    exists unconfigured_service. split; [reflexivity|].
    intros question context text [= <-] kv. discriminate.
Defined.

End AIAdvisorProperties.

(* ------------------------------------------------------------------ *)
(** ** Subject tracker *)
(* ------------------------------------------------------------------ *)

Section TrackerProperties.
Import Tracker.

(** The dict's items, in whatever order, are the map's. *)
Lemma dict_items_Permutation (m : gmap string ref) : dict_items m ≡ₚ map_to_list m.
Proof. apply merge_sort_Permutation. Qed.

Lemma elem_of_dict_items (m : gmap string ref) sid r :
  (sid, r) ∈ dict_items m ↔ m !! sid = Some r.
Proof. by rewrite dict_items_Permutation, elem_of_map_to_list. Qed.

Lemma NoDup_fst_dict_items (m : gmap string ref) : NoDup (dict_items m).*1.
Proof. rewrite dict_items_Permutation. apply NoDup_fst_map_to_list. Qed.

Lemma length_dict_items (m : gmap string ref) : length (dict_items m) = size m.
Proof. by rewrite dict_items_Permutation, length_map_to_list. Qed.

Lemma dict_items_singleton sid r : dict_items {[ sid := r ]} = [(sid, r)].
Proof. unfold dict_items. by rewrite map_to_list_singleton. Qed.

#[local] Instance inserted_before_total : Total inserted_before.
Proof. intros x y. unfold inserted_before. lia. Qed.

(** The items come in the order of their references, whatever their keys. *)
Lemma dict_items_sorted (m : gmap string ref) :
  Sorted inserted_before (dict_items m).
Proof. apply Sorted_merge_sort, _. Qed.

Example dict_items_order :
  dict_items (<["ant" := 1%nat]> (<["zebra" := 0%nat]> ∅))
  = [("zebra", 0%nat); ("ant", 1%nat)]
  ∧ dict_items (<["zebra" := 1%nat]> (<["ant" := 0%nat]> ∅))
    = [("ant", 0%nat); ("zebra", 1%nat)].
Proof. split; vm_compute; reflexivity. Qed.

Lemma py_clamp_bounds q : 0 <= py_min 1 (py_max 0 q) <= 1.
Proof. unfold py_min, py_max. repeat case_decide; lra. Qed.

Lemma framing_quality_range d q :
  _calculate_framing_quality d = Ok q → 0 <= q <= 1.
Proof.
  unfold _calculate_framing_quality.
  destruct (default _ _) as [|x1 [|y1 [|x2 [|y2 [|z l]]]]]; cbn;
    intros H; inversion H; subst; try lra.
  apply py_clamp_bounds.
Qed.

Lemma framing_quality_total d :
  (length (bbox_of d) ≤ 4)%nat →
  ∃ q, _calculate_framing_quality d = Ok q
       ∧ 0 <= q <= 1
       ∧ ((length (bbox_of d) < 4)%nat → q = 0.5).
Proof.
  unfold _calculate_framing_quality, bbox_of. intros Hlen.
  destruct (default _ _) as [|x1 [|y1 [|x2 [|y2 [|z l]]]]]; cbn in *; try lia;
    try (eexists; split; [reflexivity|]; split; [lra|]; intros; reflexivity).
  eexists; split; [reflexivity|]. split; [apply py_clamp_bounds|]. intros; lia.
Qed.

Lemma process_detection_outcome f cam t self d :
  detection_outcome f cam t self d (process_detection f cam t self d).
Proof.
  unfold process_detection.
  destruct (_calculate_framing_quality d) as [q|e] eqn:Hq; [|by constructor].
  destruct (tracked_subjects self !! detection_subject_id self d) as [r|] eqn:Hr.
  - exact (outcome_update f cam t self d q r Hq Hr).
  - exact (outcome_create f cam t self d q Hq Hr).
Qed.

Lemma same_settings_refl self : same_settings self self.
Proof. by repeat split. Qed.

Lemma same_settings_trans a b c :
  same_settings a b → same_settings b c → same_settings a c.
Proof.
  unfold same_settings. intros (?&?&?&?&?) (?&?&?&?&?). repeat split; congruence.
Qed.

Lemma process_detection_spec f cam t self d r self' :
  process_detection f cam t self d = (Ok r, self') →
  detection_step_spec t self r self'.
Proof.
  intros Heq. pose proof (process_detection_outcome f cam t self d) as Hout.
  rewrite Heq in Hout.
  inversion Hout as [|q r1 Hq Hr|q Hq Hr]; subst; clear Hout Heq.
  - (* an existing track is updated in place *)
    split; cbn.
    + by repeat split.
    + done.
    + done.
    + intros obj. rewrite list_lookup_alter_eq. intros (o & _ & ->)%fmap_Some.
      pose proof (framing_quality_range _ _ Hq).
      unfold refreshed. cbn. split_and!; try done; lra.
    + intros Hinv. split.
      * intros sid r0 Hsid.
        destruct (Hinv sid r0 Hsid) as (Hin & obj & Hobj & Hid). cbn. split.
        { apply elem_of_app. by left. }
        destruct (decide (r0 = r)) as [->|Hne].
        -- rewrite list_lookup_alter_eq, Hobj. cbn. by eexists.
        -- rewrite list_lookup_alter_ne by done. eauto.
      * destruct (Hinv _ _ Hr) as (_ & obj & Hobj & _).
        rewrite list_lookup_alter_eq, Hobj. by eexists.
  - (* a new track is created *)
    split; cbn.
    + by repeat split.
    + done.
    + intros sid r0 Hsid. rewrite lookup_insert_ne; [done|].
      intros Heq. congruence.
    + intros obj. rewrite list_lookup_middle by done. intros [= <-].
      pose proof (framing_quality_range _ _ Hq).
      unfold refreshed. cbn. split_and!; try done; lra.
    + intros Hinv. split.
      * intros sid r0. cbn.
        destruct (decide (detection_subject_id self d = sid)) as [<-|Hne].
        -- rewrite lookup_insert_eq. intros [= <-]. split.
           { apply elem_of_app. right. by apply list_elem_of_singleton. }
           rewrite list_lookup_middle by done. by eexists.
        -- rewrite lookup_insert_ne by done. intros Hsid.
           destruct (Hinv sid r0 Hsid) as (Hin & obj & Hobj & Hid). split.
           { apply elem_of_app. by left. }
           exists obj. split; [by apply lookup_app_l_Some|done].
      * rewrite list_lookup_middle by done. by eexists.
Qed.

Lemma process_detection_raise f cam t self d e self' :
  process_detection f cam t self d = (Raise e, self') → self' = self.
Proof.
  intros Heq. pose proof (process_detection_outcome f cam t self d) as Hout.
  rewrite Heq in Hout. by inversion Hout.
Qed.

(** An iteration assigns to the object it returns a reference to, and to no
    other. *)
Lemma process_detection_store f cam t self d r self' :
  process_detection f cam t self d = (Ok r, self') →
  ∀ r', r' ≠ r → store self' !! r' = store self !! r'.
Proof.
  intros Heq. pose proof (process_detection_outcome f cam t self d) as Hout.
  rewrite Heq in Hout.
  inversion Hout as [|q r1 Hq Hr|q Hq Hr]; subst; clear Hout Heq;
    intros r' Hne; cbn.
  - by rewrite list_lookup_alter_ne.
  - destruct (decide (r' < length (store self))%nat).
    + by rewrite lookup_app_l.
    + rewrite !lookup_ge_None_2; [done|lia|]. rewrite length_app. cbn. lia.
Qed.

Lemma detection_loop_ok f cam t dets : ∀ self upd upd' self',
  detection_loop f cam t self upd dets = (Ok upd', self') →
  ∃ new, upd' = upd ++ new ∧ detection_loop_spec t self new self'.
Proof.
  induction dets as [|d dets IH]; intros self upd upd' self' Hloop; cbn in Hloop.
  - simplify_eq. exists []. split; [by rewrite app_nil_r|].
    split.
    + by repeat split.
    + exists []. by rewrite app_nil_r.
    + done.
    + done.
    + intros r obj Hr. by apply elem_of_nil in Hr.
    + intros Hinv. split; [done|]. intros r Hr. by apply elem_of_nil in Hr.
  - destruct (process_detection f cam t self d) as [[r|e] self1] eqn:Hstep; [|done].
    pose proof (process_detection_spec _ _ _ _ _ _ _ Hstep) as S1.
    pose proof (process_detection_store _ _ _ _ _ _ _ Hstep) as F1.
    destruct (IH _ _ _ _ Hloop) as (new & -> & S2).
    exists (r :: new). split; [by rewrite <- app_assoc|].
    split.
    + eapply same_settings_trans; [apply S1|apply S2].
    + destruct (loop_history _ _ _ _ S2) as [ext Hext]. exists ([r] ++ ext).
      by rewrite Hext, (step_history _ _ _ _ S1), <- app_assoc.
    + intros sid r0 H. eapply loop_live; [done|]. by eapply step_live.
    + intros r' Hr'. apply not_elem_of_cons in Hr' as [Hne Hnew].
      rewrite (loop_frame _ _ _ _ S2) by done. by apply F1.
    + intros r' obj Hr' Hobj.
      destruct (decide (r' ∈ new)) as [Hin|Hnin].
      * by eapply loop_refreshed.
      * apply elem_of_cons in Hr' as [->|?]; [|done].
        rewrite (loop_frame _ _ _ _ S2) in Hobj by done.
        by eapply step_refreshed.
    + intros Hinv. destruct (step_inv _ _ _ _ S1 Hinv) as [Hinv1 Hsome1].
      destruct (loop_inv _ _ _ _ S2 Hinv1) as [Hinv2 Hsome2]. split; [done|].
      intros r' Hr'. destruct (decide (r' ∈ new)) as [Hin|Hnin]; [by apply Hsome2|].
      apply elem_of_cons in Hr' as [->|?]; [|done].
      by rewrite (loop_frame _ _ _ _ S2).
Qed.

Lemma detection_loop_raise f cam t dets : ∀ self upd e self',
  detection_loop f cam t self upd dets = (Raise e, self') →
  advice_history self' = advice_history self.
Proof.
  induction dets as [|d dets IH]; intros self upd e self' Hloop; cbn in Hloop; [done|].
  destruct (process_detection f cam t self d) as [[r|e1] self1] eqn:Hstep.
  - rewrite (IH _ _ _ _ Hloop).
    by destruct (step_settings _ _ _ _ (process_detection_spec _ _ _ _ _ _ _ Hstep))
      as (_ & -> & _).
  - apply process_detection_raise in Hstep. by simplify_eq.
Qed.

Lemma detection_loop_inv f cam t dets : ∀ self upd res self',
  detection_loop f cam t self upd dets = (res, self') →
  live_in_history self → live_in_history self'.
Proof.
  induction dets as [|d dets IH]; intros self upd res self' Hloop Hinv; cbn in Hloop.
  { by simplify_eq. }
  destruct (process_detection f cam t self d) as [[r|e] self1] eqn:Hstep.
  - eapply IH; [done|].
    by apply (step_inv _ _ _ _ (process_detection_spec _ _ _ _ _ _ _ Hstep)).
  - apply process_detection_raise in Hstep. by simplify_eq.
Qed.

Lemma lost_spec_refl t self : lost_spec t self self.
Proof. split; [by repeat split|done|done|by left]. Qed.

Lemma lost_spec_trans t a b c : lost_spec t a b → lost_spec t b c → lost_spec t a c.
Proof.
  intros [S1 H1 L1 M1] [S2 H2 L2 M2]. split.
  - by eapply same_settings_trans.
  - congruence.
  - eauto.
  - intros r. destruct (M2 r) as [E2|(o2 & Ho2 & Ht2 & E2)].
    + rewrite E2. apply M1.
    + destruct S1 as (_ & _ & _ & _ & Hlt). rewrite Hlt in Ht2.
      destruct (M1 r) as [E1|(o1 & Ho1 & Ht1 & E1)].
      * right. exists o2. by rewrite <- E1.
      * right. exists o1. rewrite E1 in Ho2. simplify_eq. done.
Qed.

Lemma check_lost_step_spec t acc item :
  lost_spec t acc.2 (check_lost_step t acc item).2.
Proof.
  destruct acc as [lost self], item as [sid r]. cbn.
  destruct (store self !! r) as [obj|] eqn:Hobj; [|apply lost_spec_refl].
  case_decide as Ht; [|apply lost_spec_refl].
  cbn. split; cbn.
  - by repeat split.
  - done.
  - intros sid' r'. by intros [_ ?]%lookup_delete_Some.
  - intros r'. destruct (decide (r' = r)) as [->|Hne].
    + right. exists obj. by rewrite list_lookup_alter_eq, Hobj.
    + left. by rewrite list_lookup_alter_ne.
Qed.

Lemma check_lost_fold_spec t items : ∀ acc,
  lost_spec t acc.2 (foldl (check_lost_step t) acc items).2.
Proof.
  induction items as [|item items IH]; intros acc; cbn; [apply lost_spec_refl|].
  eapply lost_spec_trans; [apply check_lost_step_spec|apply IH].
Qed.

(** An item whose timeout has run out is deleted from the live map and its
    object is marked, whatever the loop does with the other items. *)
Lemma check_lost_fold_evicts t items : ∀ acc sid r obj,
  (sid, r) ∈ items →
  store acc.2 !! r = Some obj ∨ store acc.2 !! r = Some (mark_lost obj) →
  lost_timeout acc.2 < t - timestamp obj →
  tracked_subjects (foldl (check_lost_step t) acc items).2 !! sid = None
  ∧ store (foldl (check_lost_step t) acc items).2 !! r = Some (mark_lost obj).
Proof.
  induction items as [|item items IH]; intros acc sid r obj Hin Hobj Ht.
  { by apply elem_of_nil in Hin. }
  cbn [foldl].
  pose proof (check_lost_step_spec t acc item) as S1.
  apply elem_of_cons in Hin as [<-|Hin].
  - pose proof (check_lost_fold_spec t items (check_lost_step t acc (sid, r))) as S2.
    assert (tracked_subjects (check_lost_step t acc (sid, r)).2 !! sid = None
            ∧ store (check_lost_step t acc (sid, r)).2 !! r = Some (mark_lost obj))
      as [Hdel Hmark].
    { destruct acc as [lost self]. cbn in *.
      destruct Hobj as [Hobj|Hobj]; rewrite Hobj; cbn;
        rewrite decide_True by done; cbn;
        (split; [apply lookup_delete_eq|]);
        by rewrite list_lookup_alter_eq, Hobj. }
    split.
    + apply eq_None_not_Some. intros [r' E].
      apply (lost_live _ _ _ S2) in E. congruence.
    + destruct (lost_store _ _ _ S2 r) as [E|(o & Ho & _ & E)].
      * by rewrite E.
      * rewrite E. rewrite Hmark in Ho. by simplify_eq.
  - apply IH; [done| |].
    + destruct (lost_store _ _ _ S1 r) as [E|(o & Ho & _ & E)].
      * by rewrite E.
      * right. rewrite E. destruct Hobj as [Hobj|Hobj]; rewrite Hobj in Ho; by simplify_eq.
    + by destruct (lost_settings _ _ _ S1) as (_ & _ & _ & _ & ->).
Qed.

Lemma check_lost_spec t self : lost_spec t self (check_lost t self).2.
Proof. apply (check_lost_fold_spec t _ ([], self)). Qed.

Lemma check_lost_evicts t self sid r obj :
  tracked_subjects self !! sid = Some r →
  store self !! r = Some obj →
  lost_timeout self < t - timestamp obj →
  tracked_subjects (check_lost t self).2 !! sid = None
  ∧ store (check_lost t self).2 !! r = Some (mark_lost obj).
Proof.
  intros Hsid Hobj Ht. unfold check_lost.
  apply (check_lost_fold_evicts t _ ([], self)); cbn; [|by left|done].
  by apply elem_of_dict_items.
Qed.

Lemma lost_spec_inv t self self' :
  lost_spec t self self' → live_in_history self → live_in_history self'.
Proof.
  intros [_ Hh Hl Hs] Hinv sid r Hsid.
  destruct (Hinv sid r (Hl _ _ Hsid)) as (Hin & obj & Hobj & Hid).
  rewrite Hh. split; [done|].
  destruct (Hs r) as [E|(o & Ho & _ & E)].
  - exists obj. by rewrite E.
  - exists (mark_lost o). split; [done|]. rewrite Hobj in Ho. by simplify_eq.
Qed.

Lemma set_advice_history_id self :
  set_advice_history (advice_history self) self = self.
Proof. by destruct self. Qed.

Lemma update_tracking_outcome fmt self dets f cam t ta :
  update_outcome fmt self dets f cam t ta (update_tracking fmt self dets f cam t ta).
Proof.
  unfold update_tracking.
  destruct (running self) eqn:Hrun; cbn; [|by constructor].
  destruct (detection_loop f cam t self [] dets) as [[upd|e] self1] eqn:Hloop;
    [|by constructor].
  pose proof (update_ok fmt self dets f cam t ta upd self1 Hrun Hloop) as H.
  destruct (check_lost t self1) as [lost self2]; cbn in *.
  destruct upd as [|r upd].
  - by rewrite app_nil_r, set_advice_history_id in H.
  - destruct (_generate_tracking_advice fmt self2 (r :: upd) cam ta); [|done].
    by rewrite app_nil_r, set_advice_history_id in H.
Qed.

Lemma update_tracking_inv fmt self dets f cam t ta :
  live_in_history self →
  live_in_history (update_tracking fmt self dets f cam t ta).2.
Proof.
  intros Hinv. destruct (update_tracking_outcome fmt self dets f cam t ta)
    as [Hrun|e self1 Hrun Hloop|upd self1 Hrun Hloop]; cbn.
  - done.
  - by eapply detection_loop_inv.
  - assert (live_in_history (check_lost t self1).2) as Hinv2.
    { eapply lost_spec_inv; [apply check_lost_spec|by eapply detection_loop_inv]. }
    intros sid r Hsid. apply (Hinv2 sid r Hsid).
Qed.

Lemma reachable_live_in_history fmt self :
  reachable fmt self → live_in_history self.
Proof.
  induction 1 as [cfg adv|self _ IH|self _ IH|self _ IH|self dets f cam t ta _ IH].
  - intros sid r. cbn. by rewrite lookup_empty.
  - done.
  - done.
  - intros sid r. cbn. by rewrite lookup_empty.
  - by apply update_tracking_inv.
Qed.

(** The eviction of a subject whose timeout has run out. *)
Lemma update_tracking_evicts fmt self dets f cam t ta updated self' sid r subj :
  live_in_history self →
  running self = true →
  tracked_subjects self !! sid = Some r →
  store self !! r = Some subj →
  lost_timeout self < t - timestamp subj →
  update_tracking fmt self dets f cam t ta = (Ok updated, self') →
  r ∉ updated →
  tracked_subjects self' !! sid = None
  ∧ store self' !! r = Some (mark_lost subj)
  ∧ r ∈ tracking_history self'.
Proof.
  intros Hinv Hrun Hsid Hsubj Ht Hupd Hnin.
  pose proof (update_tracking_outcome fmt self dets f cam t ta) as Hout.
  rewrite Hupd in Hout.
  inversion Hout as [Hrun'|e self1 _ Hloop|upd self1 _ Hloop]; subst; [congruence|].
  cbn. clear Hout Hupd.
  apply detection_loop_ok in Hloop as (new & -> & S1). cbn in Hnin.
  destruct (check_lost_evicts t self1 sid r subj) as [Hdel Hmark].
  - by apply (loop_live _ _ _ _ S1).
  - by rewrite (loop_frame _ _ _ _ S1).
  - by destruct (loop_settings _ _ _ _ S1) as (_ & _ & _ & _ & ->).
  - split_and!; [done|done|].
    rewrite (lost_history _ _ _ (check_lost_spec t self1)).
    destruct (loop_history _ _ _ _ S1) as [ext ->].
    apply elem_of_app. left. by apply (Hinv sid r).
Qed.

Lemma subject_advice_tracking fmt self ta obj :
  tracking_status obj = "tracking" →
  Forall (λ a, advice_type a ≠ "movement") (subject_advice fmt self ta obj).
Proof.
  intros Hst. unfold subject_advice. rewrite Hst. cbn.
  apply Forall_app_2.
  - case_decide; [|done]. by repeat constructor.
  - destruct (ai_advisor self) as [adv|]; [|done].
    case_decide; [|done]. destruct (AIAdvisor.get_general_advice _ _ _); [|done].
    by repeat constructor.
Qed.

(** With a timeout that is not negative, no call of [update_tracking] appends a
    "movement" message: the advice is generated for the subjects the call
    has matched, which were refreshed at the time the lost check compares
    with, and not for [lost_subjects]. *)
Lemma update_tracking_no_movement fmt self dets f cam t ta :
  0 <= lost_timeout self →
  ∃ new_advice,
    advice_history (update_tracking fmt self dets f cam t ta).2
      = advice_history self ++ new_advice
    ∧ Forall (λ a, advice_type a ≠ "movement") new_advice.
Proof.
  intros Hlt. destruct (update_tracking_outcome fmt self dets f cam t ta)
    as [Hrun|e self1 Hrun Hloop|upd self1 Hrun Hloop]; cbn.
  - exists []. by rewrite app_nil_r.
  - exists []. rewrite app_nil_r. split; [by eapply detection_loop_raise|done].
  - apply detection_loop_ok in Hloop as (new & -> & S1). cbn [app].
    pose proof (check_lost_spec t self1) as S2.
    set (self2 := (check_lost t self1).2) in *.
    destruct (loop_settings _ _ _ _ S1) as (_ & Hadv1 & _ & _ & Hlt1).
    destruct (lost_settings _ _ _ S2) as (_ & Hadv2 & _ & _ & _).
    rewrite Hadv2, Hadv1. eexists; split; [reflexivity|].
    destruct new as [|r0 new']; [done|].
    unfold _generate_tracking_advice. apply Forall_flat_map, Forall_forall.
    intros r Hr. destruct (store self2 !! r) as [obj|] eqn:Hobj; [|done].
    apply subject_advice_tracking.
    destruct (lost_store _ _ _ S2 r) as [E|(o & Ho & Hto & E)].
    + rewrite E in Hobj.
      by destruct (loop_refreshed _ _ _ _ S1 r obj Hr Hobj) as (_ & ? & _).
    + destruct (loop_refreshed _ _ _ _ S1 r o Hr Ho) as (Hts & _ & _).
      rewrite Hts, Hlt1 in Hto. lra.
Qed.

(** The subjects an update returns carry a quality in range. *)
Lemma update_tracking_quality fmt self dets f cam t ta updated self' :
  live_in_history self →
  update_tracking fmt self dets f cam t ta = (Ok updated, self') →
  ∀ r, r ∈ updated →
    ∃ obj, store self' !! r = Some obj ∧ 0 <= framing_quality obj <= 1.
Proof.
  intros Hinv Hupd r Hr.
  pose proof (update_tracking_outcome fmt self dets f cam t ta) as Hout.
  rewrite Hupd in Hout.
  inversion Hout as [Hrun'|e self1 _ Hloop|upd self1 _ Hloop]; subst.
  { by apply elem_of_nil in Hr. }
  cbn. clear Hout Hupd.
  apply detection_loop_ok in Hloop as (new & -> & S1). cbn in Hr.
  destruct (loop_inv _ _ _ _ S1 Hinv) as [_ Hsome].
  destruct (Hsome r Hr) as [obj Hobj].
  destruct (loop_refreshed _ _ _ _ S1 r obj Hr Hobj) as (_ & _ & Hq).
  destruct (lost_store _ _ _ (check_lost_spec t self1) r) as [E|(o & Ho & _ & E)].
  - exists obj. by rewrite E.
  - exists (mark_lost o). split; [done|]. rewrite Hobj in Ho. by simplify_eq.
Qed.

(** *** The closed scenario *)

(** The example of the specification: a box centred in the frame, of area
    fraction 0.3, with confidence 1, has quality 0.4 + 0.4 + 0.2. *)
Lemma centered_quality sid : _calculate_framing_quality (centered sid) = Ok 1.
Proof.
  unfold _calculate_framing_quality, centered, frame_width, frame_height. cbn.
  f_equal.
  replace ((480 + 1440) / 2 - 1920 / 2) with 0 by field.
  rewrite Rabs_R0.
  unfold py_min, py_max.
  rewrite (bool_decide_eq_true_2 (0.1 < _)) by lra.
  rewrite (bool_decide_eq_true_2 (_ < 0.5)) by lra.
  cbn. repeat case_decide; lra.
Qed.

Lemma one_subject_eq :
  one_subject =
  mkTracker default_config None {["s1" := 0%nat]} [0%nat] [] true 50 0.7 2
    [new_tracked "s1" (centered "s1") 1 0 "unknown" 1 None].
Proof.
  unfold one_subject, update_tracking.
  cbn [running start set_running negb tracker_init].
  cbn [detection_loop]. unfold process_detection. rewrite centered_quality.
  cbn. rewrite lookup_empty. cbn.
  unfold check_lost. cbn. rewrite insert_empty, dict_items_singleton. cbn.
  case_decide; [lra|]. cbn.
  unfold subject_advice. cbn.
  case_decide; [lra|]. reflexivity.
Qed.

Lemma one_subject_reachable : reachable render one_subject.
Proof. apply reach_update_tracking, reach_start, reach_init. Qed.

Lemma one_subject_live :
  tracked_subjects one_subject !! "s1" = Some 0%nat
  ∧ store one_subject !! 0%nat
    = Some (new_tracked "s1" (centered "s1") 1 0 "unknown" 1 None)
  ∧ running one_subject = true
  ∧ advice_history one_subject = []
  ∧ lost_timeout one_subject = 2.
Proof. rewrite one_subject_eq. cbn. by rewrite lookup_singleton_eq. Qed.

Lemma late_call_updated : late_call.1 = Ok [1%nat].
Proof.
  unfold late_call.
  destruct (update_tracking_outcome render one_subject [centered "s2"] 2 None 10 10)
    as [Hrun|e self1 Hrun Hloop|upd self1 Hrun Hloop]; cbn.
  - by rewrite one_subject_eq in Hrun.
  - rewrite one_subject_eq in Hloop. cbn [detection_loop] in Hloop.
    unfold process_detection in Hloop. rewrite centered_quality in Hloop.
    cbn in Hloop. by rewrite lookup_singleton_ne in Hloop.
  - rewrite one_subject_eq in Hloop. cbn [detection_loop] in Hloop.
    unfold process_detection in Hloop. rewrite centered_quality in Hloop.
    cbn in Hloop. rewrite lookup_singleton_ne in Hloop by done.
    by simplify_eq.
Qed.

Lemma late_call_eq : late_call = (Ok [1%nat], late_call.2).
Proof. rewrite <- late_call_updated. by destruct late_call. Qed.

(** *** The claims *)

(** C4, the failing call.  A started tracker holds subject "s1", seen at time
    0 and tracking; the timeout is 2.0.  The call at time 10 with one
    detection, of another subject, makes "s1" lost and evicts it, and the
    advice history, empty before, holds no "movement" message after it. *)
Theorem lost_subject_gets_no_movement_advice :
  reachable render one_subject
  ∧ advice_history one_subject = []
  ∧ tracked_subjects one_subject !! "s1" = Some 0%nat
  ∧ (∃ subj, store one_subject !! 0%nat = Some subj
             ∧ tracking_status subj = "tracking"
             ∧ lost_timeout one_subject < 10 - timestamp subj)
  ∧ late_call.1 = Ok [1%nat]
  ∧ tracked_subjects late_call.2 !! "s1" = None
  ∧ (∃ subj, store late_call.2 !! 0%nat = Some subj
             ∧ subject_id subj = "s1"
             ∧ tracking_status subj = "lost")
  ∧ Forall (λ a, advice_type a ≠ "movement") (advice_history late_call.2).
Proof.
  destruct one_subject_live as (Hlive & Hobj & Hrun & Hadv & Hlt).
  split_and!.
  - apply one_subject_reachable.
  - done.
  - done.
  - eexists. split; [done|]. cbn. rewrite Hlt. split; [done|lra].
  - apply late_call_updated.
  - eapply (update_tracking_evicts render one_subject [centered "s2"] 2 None 10 10
              [1%nat] late_call.2 "s1" 0%nat); eauto.
    + apply reachable_live_in_history with render, one_subject_reachable.
    + rewrite Hlt. cbn. lra.
    + exact late_call_eq.
    + by intros [=]%list_elem_of_singleton.
  - eexists. split.
    + eapply (update_tracking_evicts render one_subject [centered "s2"] 2 None 10 10
                [1%nat] late_call.2 "s1" 0%nat); eauto.
      * apply reachable_live_in_history with render, one_subject_reachable.
      * rewrite Hlt. cbn. lra.
      * exact late_call_eq.
      * by intros [=]%list_elem_of_singleton.
    + done.
  - destruct (update_tracking_no_movement render one_subject [centered "s2"]
                2 None 10 10) as (new_advice & Heq & Hall).
    { rewrite Hlt. lra. }
    unfold late_call. rewrite Heq, Hadv. done.
Qed.

(** C5, counterexample.  A tracker that was shut down keeps its live
    subjects, and [update_tracking] returns at once while the tracker is not
    running: the call at time 10 finds subject "s1", last matched at time 0
    with a timeout of 2.0, and leaves the tracker as it was, the subject live
    and tracking. *)
Lemma stopped_tracker_keeps_expired_subject :
  reachable render stopped_tracker
  ∧ tracked_subjects stopped_tracker !! "s1" = Some 0%nat
  ∧ (∃ subj, store stopped_tracker !! 0%nat = Some subj
             ∧ lost_timeout stopped_tracker < 10 - timestamp subj
             ∧ tracking_status subj = "tracking")
  ∧ update_tracking render stopped_tracker [] 2 None 10 10
    = (Ok [], stopped_tracker).
Proof.
  destruct one_subject_live as (Hlive & Hobj & Hrun & Hadv & Hlt).
  split_and!.
  - apply reach_shutdown, one_subject_reachable.
  - done.
  - eexists. split; [exact Hobj|]. cbn. rewrite Hlt. split; [lra|done].
  - reflexivity.
Qed.

(** C5, amended.  While the tracker is running: for a live subject that no
    detection of the call matches (the call does not return its object) and
    whose last match is more than [lost_timeout] before the call, a call of
    [update_tracking] that returns leaves the subject's object with status
    "lost", the subject absent from the live map, and the object, with the
    subject's id and status "lost", in the tracking history. *)
Theorem running_tracker_evicts_expired_subject fmt self detections frame_number
    camera_position current_time advice_time updated self' sid r subj :
  reachable fmt self →
  running self = true →
  tracked_subjects self !! sid = Some r →
  store self !! r = Some subj →
  lost_timeout self < current_time - timestamp subj →
  update_tracking fmt self detections frame_number camera_position
    current_time advice_time = (Ok updated, self') →
  r ∉ updated →
  tracked_subjects self' !! sid = None
  ∧ ∃ obj, store self' !! r = Some obj
           ∧ subject_id obj = sid
           ∧ tracking_status obj = "lost"
           ∧ r ∈ tracking_history self'.
Proof.
  intros Hreach Hrun Hsid Hsubj Ht Hupd Hnin.
  pose proof (reachable_live_in_history fmt self Hreach) as Hinv.
  destruct (update_tracking_evicts fmt self detections frame_number
              camera_position current_time advice_time updated self' sid r subj)
    as (Hdel & Hmark & Hhist); try done.
  split; [done|]. exists (mark_lost subj). split_and!; try done.
  cbn. by destruct (Hinv sid r Hsid) as (_ & obj & Hobj & <-); simplify_eq.
Qed.

Lemma running_tracker_evicts_expired_subject_witness :
  tracked_subjects (update_tracking render one_subject [] 2 None 10 10).2 !! "s1"
    = None
  ∧ ∃ obj, store (update_tracking render one_subject [] 2 None 10 10).2 !! 0%nat
             = Some obj
           ∧ subject_id obj = "s1"
           ∧ tracking_status obj = "lost"
           ∧ 0%nat ∈ tracking_history
                       (update_tracking render one_subject [] 2 None 10 10).2.
Proof.
  destruct one_subject_live as (Hlive & Hobj & Hrun & Hadv & Hlt).
  apply (running_tracker_evicts_expired_subject render one_subject [] 2 None
           10 10 [] _ "s1" 0%nat
           (new_tracked "s1" (centered "s1") 1 0 "unknown" 1 None)).
  - apply one_subject_reachable.
  - exact Hrun.
  - exact Hlive.
  - exact Hobj.
  - rewrite Hlt. cbn. lra.
  - unfold update_tracking. rewrite Hrun. cbn.
    by destruct (check_lost 10 one_subject).
  - apply not_elem_of_nil.
Defined.

(** C9, counterexample.  A bounding box of five coordinates is not caught by
    the [len(bbox) < 4] guard: the unpacking raises ValueError, no quality is
    computed, and [update_tracking] raises with it. *)
Lemma framing_quality_raises_on_five_coordinates :
  _calculate_framing_quality long_box = Raise ValueError
  ∧ (update_tracking render (start (tracker_init default_config None))
       [long_box] 1 None 0 0).1
    = Raise ValueError.
Proof. split; reflexivity. Qed.

(** C9, amended.  For every detection whose bounding box has at most four
    coordinates, and every confidence, the framing quality is computed and
    lies in [0,1]; a box of fewer than four coordinates gives 0.5.  Every
    quality the function returns lies in [0,1], and every subject a call of
    [update_tracking] returns carries a quality in [0,1]. *)
Theorem framing_quality_in_unit_interval :
  (∀ d, (length (bbox_of d) ≤ 4)%nat →
     ∃ q, _calculate_framing_quality d = Ok q
          ∧ 0 <= q <= 1
          ∧ ((length (bbox_of d) < 4)%nat → q = 0.5))
  ∧ (∀ d q, _calculate_framing_quality d = Ok q → 0 <= q <= 1)
  ∧ (∀ fmt self detections frame_number camera_position current_time
       advice_time updated self',
       reachable fmt self →
       update_tracking fmt self detections frame_number camera_position
         current_time advice_time = (Ok updated, self') →
       ∀ r, r ∈ updated →
         ∃ obj, store self' !! r = Some obj ∧ 0 <= framing_quality obj <= 1).
Proof.
  split_and!.
  - apply framing_quality_total.
  - apply framing_quality_range.
  - intros fmt self dets f cam t ta updated self' Hreach.
    apply update_tracking_quality. by eapply reachable_live_in_history.
Qed.

Lemma framing_quality_in_unit_interval_witness :
  (∃ q, _calculate_framing_quality short_box = Ok q
        ∧ 0 <= q <= 1
        ∧ ((length (bbox_of short_box) < 4)%nat → q = 0.5))
  ∧ 0 <= 1 <= 1.
Proof.
  split.
  - apply (proj1 framing_quality_in_unit_interval). cbn. lia.
  - apply (proj1 (proj2 framing_quality_in_unit_interval) (centered "s1")).
    apply centered_quality.
Defined.

(** C10.  While the running flag is false, [update_tracking] returns the empty
    list and the tracker it was given: the live map, the tracking history and
    the advice history are those before the call, whatever the detections. *)
Theorem update_tracking_not_running fmt self detections frame_number
    camera_position current_time advice_time :
  running self = false →
  update_tracking fmt self detections frame_number camera_position
    current_time advice_time = (Ok [], self)
  ∧ tracked_subjects
      (update_tracking fmt self detections frame_number camera_position
         current_time advice_time).2 = tracked_subjects self
  ∧ tracking_history
      (update_tracking fmt self detections frame_number camera_position
         current_time advice_time).2 = tracking_history self
  ∧ advice_history
      (update_tracking fmt self detections frame_number camera_position
         current_time advice_time).2 = advice_history self.
Proof.
  intros Hrun. unfold update_tracking. by rewrite Hrun.
Qed.

Lemma update_tracking_not_running_witness :
  update_tracking render (tracker_init default_config None)
    [centered "s1"] 1 None 0 0
  = (Ok [], tracker_init default_config None)
  ∧ tracked_subjects
      (update_tracking render (tracker_init default_config None)
         [centered "s1"] 1 None 0 0).2 = ∅
  ∧ tracking_history
      (update_tracking render (tracker_init default_config None)
         [centered "s1"] 1 None 0 0).2 = []
  ∧ advice_history
      (update_tracking render (tracker_init default_config None)
         [centered "s1"] 1 None 0 0).2 = [].
Proof.
  apply (update_tracking_not_running render (tracker_init default_config None)).
  reflexivity.
Defined.

End TrackerProperties.

(* ------------------------------------------------------------------ *)
(** ** Geodesy: further properties *)
(* ------------------------------------------------------------------ *)

Section Compass.
Import RoutePlanner.

Lemma py_mod_small x m : 0 <= x < m → py_mod x m = x.
Proof.
  intros Hx. unfold py_mod.
  replace (Int_part (x / m)) with 0%Z; [ring|].
  apply Int_part_spec.
  assert (0 < m) by lra.
  pose proof (Rinv_0_lt_compat m ltac:(lra)) as Hinv.
  assert (0 <= x / m) by (apply Rmult_le_pos; lra).
  assert (x / m < 1).
  { replace 1 with (m / m) by (field; lra). apply Rmult_lt_compat_r; lra. }
  lra.
Qed.

Lemma py_mod_wrap x m : 0 <= x < m → py_mod (x + m) m = x.
Proof.
  intros Hx. unfold py_mod.
  assert (0 < m) by lra.
  replace ((x + m) / m) with (x / m + 1) by (field; lra).
  replace (Int_part (x / m + 1)) with 1%Z; [ring|].
  apply Int_part_spec.
  pose proof (Rinv_0_lt_compat m ltac:(lra)) as Hinv.
  assert (0 <= x / m) by (apply Rmult_le_pos; lra).
  assert (x / m < 1).
  { replace 1 with (m / m) by (field; lra). apply Rmult_lt_compat_r; lra. }
  lra.
Qed.

Lemma np_radians_range d a b :
  a < d < b → a * (PI / 180) < np_radians d < b * (PI / 180).
Proof.
  intros [H1 H2]. unfold np_radians. pose proof PI_RGT_0.
  assert (0 < PI / 180) by lra. split; by apply Rmult_lt_compat_r.
Qed.

(** X27.  [_calculate_heading] follows the compass: it is 0 to a point due
    north (same longitude, less than 180 degrees of latitude away), 180 to a
    point due south, and along the equator 90 to a point to the east and 270
    to a point to the west (less than 180 degrees of longitude away). *)
Theorem heading_compass p q :
  (lon q = lon p → 0 < lat q - lat p < 180 → _calculate_heading p q = 0)
  ∧ (lon q = lon p → -180 < lat q - lat p < 0 → _calculate_heading p q = 180)
  ∧ (lat p = 0 → lat q = 0 → 0 < lon q - lon p < 180 →
     _calculate_heading p q = 90)
  ∧ (lat p = 0 → lat q = 0 → -180 < lon q - lon p < 0 →
     _calculate_heading p q = 270).
Proof.
  pose proof PI_RGT_0 as Hpi.
  assert (∀ a b, cos a * sin b - sin a * cos b * 1 = sin (b - a)) as Hsin.
  { intros. rewrite sin_minus. ring. }
  split_and!.
  - intros Hlon Hlat. unfold _calculate_heading, np_sin, np_cos.
    rewrite Hlon. replace (lon p - lon p) with 0 by ring.
    replace (np_radians 0) with 0 by (unfold np_radians; ring).
    rewrite sin_0, cos_0, Hsin.
    replace (np_radians (lat q) - np_radians (lat p))
      with (np_radians (lat q - lat p)) by (unfold np_radians; ring).
    apply np_radians_range in Hlat.
    assert (0 < sin (np_radians (lat q - lat p))) as Hpos
      by (apply sin_gt_0; lra).
    unfold np_arctan2. rewrite decide_True by done.
    replace (0 * cos (np_radians (lat q)) / _) with 0
      by (field; lra).
    rewrite atan_0. unfold np_degrees.
    replace (0 * (180 / PI) + 360) with (0 + 360) by (field; lra).
    apply py_mod_wrap. lra.
  - intros Hlon Hlat. unfold _calculate_heading, np_sin, np_cos.
    rewrite Hlon. replace (lon p - lon p) with 0 by ring.
    replace (np_radians 0) with 0 by (unfold np_radians; ring).
    rewrite sin_0, cos_0, Hsin.
    replace (np_radians (lat q) - np_radians (lat p))
      with (np_radians (lat q - lat p)) by (unfold np_radians; ring).
    apply np_radians_range in Hlat.
    assert (sin (np_radians (lat q - lat p)) < 0) as Hneg
      by (apply sin_lt_0_var; lra).
    unfold np_arctan2. rewrite decide_False by lra. rewrite decide_True by done.
    replace (0 * cos (np_radians (lat q))) with 0 by ring.
    rewrite decide_False by lra.
    replace (0 / _) with 0 by (field; lra).
    rewrite atan_0. unfold np_degrees.
    replace ((0 + PI) * (180 / PI) + 360) with (180 + 360) by (field; lra).
    apply py_mod_wrap. lra.
  - intros Hp Hq Hlon. unfold _calculate_heading, np_sin, np_cos.
    rewrite Hp, Hq. replace (np_radians 0) with 0 by (unfold np_radians; ring).
    rewrite sin_0, cos_0.
    apply np_radians_range in Hlon.
    assert (0 < sin (np_radians (lon q - lon p))) as Hpos
      by (apply sin_gt_0; lra).
    replace (1 * 0 - 0 * 1 * cos (np_radians (lon q - lon p))) with 0 by ring.
    unfold np_arctan2. rewrite decide_False by lra. rewrite decide_False by lra.
    rewrite decide_True by lra. unfold np_degrees.
    replace (PI / 2 * (180 / PI) + 360) with (90 + 360) by (field; lra).
    apply py_mod_wrap. lra.
  - intros Hp Hq Hlon. unfold _calculate_heading, np_sin, np_cos.
    rewrite Hp, Hq. replace (np_radians 0) with 0 by (unfold np_radians; ring).
    rewrite sin_0, cos_0.
    apply np_radians_range in Hlon.
    assert (sin (np_radians (lon q - lon p)) < 0) as Hneg
      by (apply sin_lt_0_var; lra).
    replace (1 * 0 - 0 * 1 * cos (np_radians (lon q - lon p))) with 0 by ring.
    unfold np_arctan2. rewrite decide_False by lra. rewrite decide_False by lra.
    rewrite decide_False by lra. rewrite decide_True by lra. unfold np_degrees.
    replace (- PI / 2 * (180 / PI) + 360) with 270 by (field; lra).
    apply py_mod_small. lra.
Qed.

Lemma arctan2_half_angle h :
  - (PI / 2) <= h <= PI / 2 →
  np_arctan2 (sqrt (sin h ^ 2)) (sqrt (1 - sin h ^ 2)) = Rabs h.
Proof.
  intros Hh. pose proof PI_RGT_0 as Hpi.
  assert (1 - sin h ^ 2 = cos h ^ 2) as ->.
  { pose proof (sin2_cos2 h) as H. unfold Rsqr in H. lra. }
  assert (0 <= cos h) as Hcos by (apply cos_ge_0; lra).
  rewrite (sqrt_pow2 (cos h)) by done.
  replace (sin h ^ 2) with ((sin (Rabs h)) ^ 2).
  2:{ unfold Rabs. destruct (Rcase_abs h); [rewrite sin_neg|]; ring. }
  assert (0 <= Rabs h <= PI / 2) as Ha.
  { unfold Rabs. destruct (Rcase_abs h); lra. }
  assert (cos (Rabs h) = cos h) as Hc.
  { unfold Rabs. destruct (Rcase_abs h); [apply cos_neg|done]. }
  rewrite <- Hc in *.
  set (x := Rabs h) in *. clearbody x. clear Hh Hc h.
  assert (0 <= sin x) as Hsin by (apply sin_ge_0; lra).
  rewrite sqrt_pow2 by done.
  unfold np_arctan2.
  destruct (decide (0 < cos x)) as [Hpos|Hzero].
  - destruct (decide (x = PI / 2)) as [->|Hne].
    { rewrite cos_PI2 in Hpos. lra. }
    change (sin x / cos x) with (tan x). apply atan_tan. lra.
  - assert (cos x = 0) as Hc0 by lra.
    rewrite decide_False by lra.
    assert (x = PI / 2) as ->.
    { destruct (decide (x = PI / 2)) as [|Hne]; [done|].
      assert (0 < cos x) by (apply cos_gt_0; lra). lra. }
    rewrite sin_PI2. rewrite decide_True by lra. done.
Qed.

(** X28.  Along a meridian the segment distance is the arc length: for two
    waypoints of the same longitude, at most 180 degrees of latitude apart,
    it is 6371000 * |lat2 - lat1| * pi / 180 metres. *)
Theorem meridian_distance wp1 wp2 :
  wp_lon wp2 = wp_lon wp1 →
  Rabs (wp_lat wp2 - wp_lat wp1) <= 180 →
  segment_distance wp1 wp2
  = Finite (EARTH_RADIUS * (Rabs (wp_lat wp2 - wp_lat wp1) * (PI / 180))).
Proof.
  intros Hlon Hlat. pose proof PI_RGT_0 as Hpi.
  unfold segment_distance.
  rewrite haversine_c_finite by apply haversine_a_bounds.
  cbn. f_equal. f_equal.
  unfold haversine_a, np_sin, np_cos. rewrite Hlon.
  replace (wp_lon wp1 - wp_lon wp1) with 0 by ring.
  replace (np_radians 0 / 2) with 0 by (unfold np_radians; field).
  rewrite sin_0.
  set (h := (np_radians (wp_lat wp2) - np_radians (wp_lat wp1)) / 2).
  replace (sin h ^ 2 + cos (np_radians (wp_lat wp1))
             * cos (np_radians (wp_lat wp2)) * 0 ^ 2)
    with (sin h ^ 2) by ring.
  assert (h = (wp_lat wp2 - wp_lat wp1) * (PI / 360)) as Hh.
  { unfold h, np_radians. field. }
  assert (Rabs h = Rabs (wp_lat wp2 - wp_lat wp1) * (PI / 360)) as Habs.
  { rewrite Hh, Rabs_mult. f_equal. apply Rabs_pos_eq. lra. }
  rewrite arctan2_half_angle.
  - rewrite Habs. field.
  - assert (Rabs h <= PI / 2) as Hb.
    { rewrite Habs.
      replace (PI / 2) with (180 * (PI / 360)) by field.
      apply Rmult_le_compat_r; lra. }
    unfold Rabs in Hb. destruct (Rcase_abs h); lra.
Qed.

Lemma meridian_distance_witness :
  segment_distance (mkWaypoint 0 0 50 0 5 "a" None None None)
    (mkWaypoint 1 0 50 0 5 "b" None None None)
  = Finite (EARTH_RADIUS
            * (Rabs (wp_lat (mkWaypoint 1 0 50 0 5 "b" None None None)
                     - wp_lat (mkWaypoint 0 0 50 0 5 "a" None None None))
               * (PI / 180))).
Proof.
  apply (meridian_distance (mkWaypoint 0 0 50 0 5 "a" None None None)
           (mkWaypoint 1 0 50 0 5 "b" None None None)).
  - reflexivity.
  - cbn. rewrite Rabs_pos_eq; lra.
Defined.

End Compass.

Section Reversal.
Import RoutePlanner.

Lemma segment_distance_great_circle w1 w2 :
  segment_distance w1 w2 = Finite (great_circle w1 w2).
Proof.
  unfold segment_distance, great_circle.
  by rewrite haversine_c_finite by apply haversine_a_bounds.
Qed.

Lemma great_circle_sym w1 w2 : great_circle w1 w2 = great_circle w2 w1.
Proof.
  pose proof (segment_distance_sym w1 w2) as H.
  rewrite !segment_distance_great_circle in H. by injection H.
Qed.

Lemma sum_segments_path wps : ∀ t,
  sum_segments (Finite t) wps = Finite (t + path_length wps).
Proof.
  induction wps as [|w1 [|w2 wps] IH]; intros t.
  - cbn. f_equal. lra.
  - cbn. f_equal. lra.
  - rewrite sum_segments_cons, segment_distance_great_circle. cbn [np_add np_lift2].
    rewrite IH. cbn [path_length]. f_equal. lra.
Qed.

Lemma total_distance_path wps :
  _calculate_total_distance wps = Finite (path_length wps).
Proof.
  unfold _calculate_total_distance.
  destruct wps as [|w1 [|w2 wps]]; try done.
  cbn [length Nat.ltb Nat.leb]. rewrite sum_segments_path. f_equal. lra.
Qed.

Lemma path_length_cons w wps :
  path_length (w :: wps) = leg (head wps) w + path_length wps.
Proof. destruct wps as [|w' wps]; cbn; [lra|]. by rewrite great_circle_sym. Qed.

Lemma path_length_snoc wps : ∀ w,
  path_length (wps ++ [w]) = path_length wps + leg (last wps) w.
Proof.
  induction wps as [|w1 [|w2 wps] IH]; intros w.
  - cbn. lra.
  - cbn. lra.
  - change ((w1 :: w2 :: wps) ++ [w]) with (w1 :: (w2 :: wps) ++ [w]).
    change (path_length (w1 :: (w2 :: wps) ++ [w]))
      with (great_circle w1 w2 + path_length ((w2 :: wps) ++ [w])).
    rewrite IH. cbn [path_length].
    replace (last (w1 :: w2 :: wps)) with (last (w2 :: wps)) by done. lra.
Qed.

Lemma path_length_reverse wps : path_length (reverse wps) = path_length wps.
Proof.
  induction wps as [|w wps IH]; [done|].
  rewrite reverse_cons, path_length_snoc, last_reverse, IH, path_length_cons. lra.
Qed.

(** X29.  In exact arithmetic the length of a route does not depend on the
    direction it is flown in: the reversed list of waypoints has the same
    length; and the length of a route through a waypoint is the sum of the
    lengths of the two parts that meet there. *)
Theorem reversed_route_has_same_length wps wps1 wp wps2 :
  _calculate_total_distance (reverse wps) = _calculate_total_distance wps
  ∧ ∃ d1 d2,
      _calculate_total_distance (wps1 ++ [wp]) = Finite d1
      ∧ _calculate_total_distance (wp :: wps2) = Finite d2
      ∧ _calculate_total_distance (wps1 ++ wp :: wps2) = Finite (d1 + d2).
Proof.
  split.
  - by rewrite !total_distance_path, path_length_reverse.
  - exists (path_length (wps1 ++ [wp])), (path_length (wp :: wps2)).
    rewrite !total_distance_path. split_and!; try done. f_equal.
    induction wps1 as [|w1 [|w2 wps1] IH].
    + cbn. lra.
    + cbn. destruct wps2; lra.
    + change (path_length ((w1 :: w2 :: wps1) ++ wp :: wps2))
        with (great_circle w1 w2 + path_length ((w2 :: wps1) ++ wp :: wps2)).
      change (path_length ((w1 :: w2 :: wps1) ++ [wp]))
        with (great_circle w1 w2 + path_length ((w2 :: wps1) ++ [wp])).
      rewrite IH. lra.
Qed.

End Reversal.

(* ------------------------------------------------------------------ *)
(** ** Route planner: further properties *)
(* ------------------------------------------------------------------ *)

Section RoutePlannerCoverage.
Import RoutePlanner.

Lemma heading_zero_normalized w : heading w = 0 → heading_normalized w.
Proof. unfold heading_normalized. intros ->. lra. Qed.

Lemma filming_subject_waypoints_headings n kind advice wps i p wps' :
  filming_subject_waypoints n kind advice wps i p = Ok wps' →
  Forall heading_normalized wps → Forall heading_normalized wps' ∧ wps' ≠ [].
Proof.
  unfold filming_subject_waypoints. intros H Hall.
  destruct (advice_camera_angle advice i) as [a|e]; [|done]. cbn [rbind] in H.
  assert (∀ q q', heading_normalized
            {| wp_lat := q; wp_lon := q'; altitude := advice_altitude advice;
               heading := _calculate_heading (last_position wps) p;
               speed := advice_speed advice;
               description := "Approach subject " +:+ pretty (i + 1)%nat;
               shot_type := if_advice advice "approach";
               camera_angle := if_advice advice "side"; duration := Some 3 |}) as Happ.
  { intros. apply heading_range. }
  case_match; simplify_eq; (split; [|by destruct wps]);
    repeat (apply Forall_app_2; [|apply Forall_singleton]); try done;
    try apply Happ; try (by apply heading_zero_normalized); apply heading_range.
Qed.

Lemma filming_loop_headings n kind advice subjects : ∀ wps i wps',
  filming_loop n kind advice wps i subjects = Ok wps' →
  wps ≠ [] → Forall heading_normalized wps →
  Forall heading_normalized wps' ∧ wps' ≠ [].
Proof.
  induction subjects as [|p subjects IH]; intros wps i wps' H Hne Hall; cbn in H.
  { by simplify_eq. }
  destruct (filming_subject_waypoints n kind advice wps i p) as [wps1|e] eqn:E; [|done].
  cbn in H. destruct (filming_subject_waypoints_headings _ _ _ _ _ _ _ E Hall).
  by eapply IH.
Qed.

Lemma route_well_formed_of route :
  route_type route ≠ GENERAL →
  waypoints route ≠ [] →
  Forall heading_normalized (waypoints route) →
  route_well_formed route.
Proof. intros ? ? ?. by split_and!. Qed.

Lemma plan_filming_route_well_formed self start_pos subjects kind advice now route self' :
  plan_filming_route self start_pos subjects kind advice now = (Ok route, self') →
  route_well_formed route ∧ self' = append_route self route.
Proof.
  unfold plan_filming_route.
  destruct (filming_loop _ _ _ _ _ _) as [wps|e] eqn:E; [|done].
  intros [= <- <-]. split; [|done].
  apply filming_loop_headings in E as [Hall Hne]; [| done |].
  - by apply route_well_formed_of.
  - apply Forall_singleton. by apply heading_zero_normalized.
Qed.

Lemma plan_mustering_route_well_formed self herd dest size terrain now route self' :
  plan_mustering_route self herd dest size terrain now = (Ok route, self') →
  route_well_formed route ∧ self' = append_route self route.
Proof.
  unfold plan_mustering_route. intros [= <- <-]. split; [|done].
  apply route_well_formed_of; [done|done|]. cbn.
  repeat (apply Forall_cons_2;
          [first [apply heading_range | by apply heading_zero_normalized]|]).
  apply Forall_nil_2.
Qed.

Lemma plan_hunting_route_well_formed self start_pos target animal terrain wind now route self' :
  plan_hunting_route self start_pos target animal terrain wind now = (Ok route, self') →
  route_well_formed route ∧ self' = append_route self route.
Proof.
  unfold plan_hunting_route. destruct wind; intros [= <- <-]; (split; [|done]);
    (apply route_well_formed_of; [done|done|]; cbn;
     repeat (apply Forall_cons_2;
             [first [apply heading_range | by apply heading_zero_normalized]|]);
     apply Forall_nil_2).
Qed.

Lemma advice_camera_angle_raise advice i e :
  advice_camera_angle advice i = Raise e →
  e = ZeroDivisionError ∧ ¬ angles_available advice.
Proof.
  unfold advice_camera_angle, angles_available, py_cycle_index.
  destruct advice as [d|]; [|done].
  destruct (fa_camera_angles d) as [[|x l]|]; cbn; intros [= <-]; split; [done|].
  by intros H.
Qed.

Lemma filming_loop_raise n kind advice subjects : ∀ wps i e,
  filming_loop n kind advice wps i subjects = Raise e →
  e = ZeroDivisionError ∧ ¬ angles_available advice.
Proof.
  induction subjects as [|p subjects IH]; intros wps i e H; cbn in H; [done|].
  destruct (filming_subject_waypoints n kind advice wps i p) as [wps1|e1] eqn:E.
  - cbn in H. by eapply IH.
  - cbn in H. simplify_eq. unfold filming_subject_waypoints in E.
    destruct (advice_camera_angle advice i) as [a|e1] eqn:Ha.
    + cbn in E. by case_match.
    + cbn in E. simplify_eq. by eapply advice_camera_angle_raise.
Qed.

(** plan_filming_route raises exactly when there is a subject and the advice
    carries an empty camera_angles list; the exception is ZeroDivisionError
    and the planner is unchanged. *)
Lemma plan_filming_route_raises_iff self start_pos subjects kind advice now :
  (∃ e, (plan_filming_route self start_pos subjects kind advice now).1 = Raise e)
  ↔ subjects ≠ [] ∧ ¬ angles_available advice.
Proof.
  split.
  - intros [e H]. unfold plan_filming_route in H.
    destruct (filming_loop _ _ _ _ _ _) as [wps|e1] eqn:E; [done|].
    split; [|by eapply filming_loop_raise]. intros ->. done.
  - intros [Hne Hna]. destruct subjects as [|p subjects]; [done|].
    unfold angles_available in Hna. destruct advice as [d|]; [|done].
    destruct (fa_camera_angles d) as [[|x l]|] eqn:Hd; try (exfalso; by apply Hna).
    exists ZeroDivisionError.
    by rewrite (plan_filming_route_empty_angles self start_pos p subjects kind d now Hd).
Qed.

Lemma plan_filming_route_raise self start_pos subjects kind advice now e self' :
  plan_filming_route self start_pos subjects kind advice now = (Raise e, self') →
  self' = self ∧ e = ZeroDivisionError.
Proof.
  unfold plan_filming_route.
  destruct (filming_loop _ _ _ _ _ _) as [wps|e1] eqn:E; [done|].
  intros [= <- <-]. split; [done|]. by eapply filming_loop_raise.
Qed.

Lemma planner_reachable_history self :
  planner_reachable self → Forall route_well_formed (generated_routes self).
Proof.
  induction 1 as [config
                 |self start_pos subjects kind advice now Hr IH
                 |self herd dest size terrain now Hr IH
                 |self start_pos target animal terrain wind now Hr IH
                 |self start_pos end_pos n now Hr IH].
  - constructor.
  - destruct (plan_filming_route _ _ _ _ _ _) as [[route|e] self'] eqn:E.
    + apply plan_filming_route_well_formed in E as [Hwf ->]. cbn.
      apply Forall_app_2; [done|by apply Forall_singleton].
    + apply plan_filming_route_raise in E as [-> _]. done.
  - destruct (plan_mustering_route _ _ _ _ _ _) as [[route|e] self'] eqn:E.
    + apply plan_mustering_route_well_formed in E as [Hwf ->]. cbn.
      apply Forall_app_2; [done|by apply Forall_singleton].
    + done.
  - destruct (plan_hunting_route _ _ _ _ _ _ _) as [[route|e] self'] eqn:E.
    + apply plan_hunting_route_well_formed in E as [Hwf ->]. cbn.
      apply Forall_app_2; [done|by apply Forall_singleton].
    + unfold plan_hunting_route in E. by destruct wind.
  - unfold plan_general_route.
    by rewrite (planner_reachable_approach_speed self Hr).
Qed.

(** X2.  On every planner object that [__init__] and the planning operations
    can produce, each recorded route is of a type other than GENERAL, has at
    least one waypoint and has all its headings in [0, 360);
    [get_route_history] gives one entry for each, none of type "general" and
    each with a waypoint count of at least 1. *)
Theorem route_history_invariant self :
  planner_reachable self →
  Forall route_well_formed (generated_routes self)
  ∧ length (get_route_history self) = length (generated_routes self)
  ∧ Forall (λ s, rs_route_type s ≠ "general" ∧ (1 ≤ rs_waypoint_count s)%nat)
      (get_route_history self).
Proof.
  intros Hr. pose proof (planner_reachable_history self Hr) as Hall.
  split_and!; [done|by unfold get_route_history; rewrite length_fmap|].
  unfold get_route_history. apply Forall_fmap. eapply Forall_impl; [exact Hall|].
  intros route (Hty & Hne & _). cbn. split.
  - by destruct (route_type route).
  - destruct (waypoints route); [done|cbn; lia].
Qed.

(** The waypoints one subject adds, and the film waypoint among them. *)
Lemma filming_subject_waypoints_inv n kind advice wps i p wps' :
  filming_subject_waypoints n kind advice wps i p = Ok wps' →
  ∃ approach film rest,
    wps' = wps ++ approach :: film :: rest
    ∧ length rest = (if orbit_flown n kind then 1 else 0)%nat
    ∧ duration approach = Some 3
    ∧ Forall (λ w, duration w = Some 8) rest
    ∧ description film = "Film subject " +:+ pretty (i + 1)%nat
    ∧ advice_camera_angle advice i = Ok (default "" (camera_angle film))
    ∧ shot_type film
      = Some (match advice_shot_info advice i with
              | Some si => default "following" (si_shot_type si)
              | None => "following"
              end)
    ∧ duration film
      = Some (match advice_shot_info advice i with
              | Some si => default 10 (si_duration si)
              | None => 10
              end).
Proof.
  unfold filming_subject_waypoints, orbit_flown. intros H.
  destruct (advice_camera_angle advice i) as [a|e]; [|done]. cbn [rbind] in H.
  destruct (bool_decide (1 < n)%nat || String.eqb kind "advertisement");
    simplify_eq; rewrite <- !app_assoc; cbn [app];
    eexists _, _, _; (split; [reflexivity|]); cbn; split_and!; try done.
  by repeat constructor.
Qed.

Lemma total_duration_app wps1 wps2 :
  total_duration (wps1 ++ wps2) = total_duration wps1 + total_duration wps2.
Proof.
  unfold total_duration. induction wps1 as [|w wps1 IH]; cbn; [lra|].
  rewrite IH. lra.
Qed.

Lemma filming_loop_count n kind advice subjects : ∀ wps i wps',
  filming_loop n kind advice wps i subjects = Ok wps' →
  length wps' = (length wps + (if orbit_flown n kind then 3 else 2) * length subjects)%nat.
Proof.
  induction subjects as [|p subjects IH]; intros wps i wps' H; cbn in H.
  { simplify_eq. cbn. lia. }
  destruct (filming_subject_waypoints n kind advice wps i p) as [wps1|e] eqn:E; [|done].
  cbn in H. apply IH in H. rewrite H.
  apply filming_subject_waypoints_inv in E as (a & f & rest & -> & Hlen & _).
  rewrite length_app. cbn [length]. rewrite Hlen.
  destruct (orbit_flown n kind); lia.
Qed.

Lemma filming_loop_duration_no_advice n kind subjects : ∀ wps i wps',
  filming_loop n kind None wps i subjects = Ok wps' →
  total_duration wps'
  = total_duration wps + (if orbit_flown n kind then 21 else 13) * INR (length subjects).
Proof.
  induction subjects as [|p subjects IH]; intros wps i wps' H; cbn [filming_loop] in H.
  { simplify_eq. cbn. lra. }
  destruct (filming_subject_waypoints n kind None wps i p) as [wps1|e] eqn:E; [|done].
  cbn [rbind] in H. apply IH in H. rewrite H.
  apply filming_subject_waypoints_inv in E
    as (a & f & rest & -> & Hlen & Ha & Hrest & _ & _ & _ & Hf).
  rewrite total_duration_app. cbn [length]. rewrite S_INR.
  assert (total_duration (a :: f :: rest)
          = if orbit_flown n kind then 21 else 13) as ->.
  { destruct (orbit_flown n kind).
    - destruct rest as [|o [|? ?]]; try done. apply Forall_inv in Hrest.
      unfold total_duration, duration_or_default. cbn. rewrite Ha, Hf, Hrest. cbn.
      rewrite !decide_False by lra. lra.
    - destruct rest; [|done].
      unfold total_duration, duration_or_default. cbn. rewrite Ha, Hf. cbn.
      rewrite !decide_False by lra. lra. }
  destruct (orbit_flown n kind); lra.
Qed.

(** X4.  When the advice has a camera angle to offer, a filming route over n
    subjects has 1 + 3n waypoints if an orbit is flown (more than one subject,
    or the kind "advertisement") and 1 + 2n otherwise; without advice its
    estimated duration is 5 + 21n seconds with orbits and 5 + 13n without. *)
Theorem plan_filming_route_size self start_pos subjects kind advice now :
  angles_available advice →
  ∃ route,
    (plan_filming_route self start_pos subjects kind advice now).1 = Ok route
    ∧ length (waypoints route)
      = (1 + (if orbit_flown (length subjects) kind then 3 else 2)
             * length subjects)%nat
    ∧ (advice = None →
       estimated_duration route
       = Finite (5 + (if orbit_flown (length subjects) kind then 21 else 13)
                       * INR (length subjects))).
Proof.
  intros Ha. unfold plan_filming_route.
  destruct (filming_loop_returns (length subjects) kind advice subjects Ha
              [ {| wp_lat := lat start_pos; wp_lon := lon start_pos;
                   altitude := advice_altitude advice; heading := 0;
                   speed := advice_speed advice;
                   description := "Starting position - prepare for filming";
                   shot_type := if_advice advice "establishing";
                   camera_angle := if_advice advice "overhead";
                   duration := Some 5 |} ] 0%nat) as [wps E].
  rewrite E. eexists; split; [reflexivity|]. cbn [waypoints estimated_duration].
  split.
  - by rewrite (filming_loop_count _ _ _ _ _ _ _ E).
  - intros ->. f_equal.
    change (foldr Rplus 0 (duration_or_default <$> wps)) with (total_duration wps).
    rewrite (filming_loop_duration_no_advice _ _ _ _ _ _ E).
    unfold total_duration. cbn. unfold duration_or_default. cbn.
    rewrite decide_False by lra. lra.
Qed.

Lemma cycle_lookup {A} (i : nat) (x : A) (l : list A) :
  (x :: l) !! (i mod length (x :: l))%nat
  = Some (nth (i mod length (x :: l)) (x :: l) x).
Proof.
  destruct (lookup_lt_is_Some_2 (x :: l) (i mod length (x :: l))) as [y Hy].
  { apply Nat.mod_upper_bound. done. }
  rewrite Hy. f_equal. symmetry. by apply nth_lookup_Some.
Qed.

Lemma filming_subject_waypoints_film n kind advice wps i p wps' :
  filming_subject_waypoints n kind advice wps i p = Ok wps' →
  ∃ film angle,
    wps' !! (length wps + 1)%nat = Some film
    ∧ length wps' = (length wps + (if orbit_flown n kind then 3 else 2))%nat
    ∧ (∀ k w, wps !! k = Some w → wps' !! k = Some w)
    ∧ wp_lat film = lat p ∧ wp_lon film = lon p
    ∧ description film = "Film subject " +:+ pretty (i + 1)%nat
    ∧ advice_camera_angle advice i = Ok angle
    ∧ camera_angle film = Some angle
    ∧ shot_type film
      = Some (match advice_shot_info advice i with
              | Some si => default "following" (si_shot_type si)
              | None => "following"
              end)
    ∧ duration film
      = Some (match advice_shot_info advice i with
              | Some si => default 10 (si_duration si)
              | None => 10
              end).
Proof.
  unfold filming_subject_waypoints, orbit_flown. intros H.
  destruct (advice_camera_angle advice i) as [a|e]; [|done]. cbn [rbind] in H.
  destruct (bool_decide (1 < n)%nat || String.eqb kind "advertisement");
    simplify_eq; rewrite <- !app_assoc; cbn [app];
    eexists _, a; split_and!;
    first [ by (rewrite lookup_app_r by lia;
                replace (length wps + 1 - length wps)%nat with 1%nat by lia)
          | (rewrite !length_app; cbn; lia)
          | (intros k w Hk; by apply lookup_app_l_Some)
          | done ].
Qed.

Lemma filming_loop_prefix n kind advice subjects : ∀ wps i wps',
  filming_loop n kind advice wps i subjects = Ok wps' →
  ∀ k w, wps !! k = Some w → wps' !! k = Some w.
Proof.
  induction subjects as [|p subjects IH]; intros wps i wps' H k w Hk;
    cbn [filming_loop] in H.
  { by simplify_eq. }
  destruct (filming_subject_waypoints n kind advice wps i p) as [wps1|e] eqn:E; [|done].
  cbn [rbind] in H. eapply IH; [done|].
  apply filming_subject_waypoints_film in E as (? & ? & _ & _ & Hpre & _). by apply Hpre.
Qed.

Lemma filming_loop_film n kind advice subjects : ∀ wps i wps' j p,
  filming_loop n kind advice wps i subjects = Ok wps' →
  subjects !! j = Some p →
  ∃ film angle,
    wps' !! (length wps + (if orbit_flown n kind then 3 else 2) * j + 1)%nat = Some film
    ∧ wp_lat film = lat p ∧ wp_lon film = lon p
    ∧ description film = "Film subject " +:+ pretty (i + j + 1)%nat
    ∧ advice_camera_angle advice (i + j) = Ok angle
    ∧ camera_angle film = Some angle
    ∧ shot_type film
      = Some (match advice_shot_info advice (i + j) with
              | Some si => default "following" (si_shot_type si)
              | None => "following"
              end)
    ∧ duration film
      = Some (match advice_shot_info advice (i + j) with
              | Some si => default 10 (si_duration si)
              | None => 10
              end).
Proof.
  induction subjects as [|q subjects IH]; intros wps i wps' j p H Hj;
    cbn [filming_loop] in H; [done|].
  destruct (filming_subject_waypoints n kind advice wps i q) as [wps1|e] eqn:E; [|done].
  cbn [rbind] in H.
  apply filming_subject_waypoints_film in E
    as (film & angle & Hfilm & Hlen & Hpre & Hrest).
  destruct j as [|j]; cbn in Hj.
  - simplify_eq. exists film, angle. rewrite Nat.mul_0_r, !Nat.add_0_r.
    split; [|done]. by eapply filming_loop_prefix.
  - destruct (IH _ _ _ _ _ H Hj) as (film' & angle' & Hfilm' & Hrest').
    exists film', angle'. rewrite Hlen in Hfilm'.
    replace (length wps + (if orbit_flown n kind then 3 else 2) * S j + 1)%nat
      with (length wps + (if orbit_flown n kind then 3 else 2)
            + (if orbit_flown n kind then 3 else 2) * j + 1)%nat
      by (destruct (orbit_flown n kind); lia).
    replace (i + S j)%nat with (S i + j)%nat by lia. done.
Qed.

(** X5.  With an advice that has camera angles and shots, the film waypoint of
    subject j (counted from 0) stands at index k * j + 2 of the route, k
    being 3 with orbits and 2 without, at the subject's position; its camera
    angle is entry [j mod len] of [camera_angles], and its shot type and
    duration are those of entry [j mod len] of [shot_sequence] ("following"
    and 10 where the entry has none). *)
Theorem plan_filming_route_shots_cycle self start_pos subjects kind d angles shots
    now j p :
  fa_camera_angles d = Some angles → angles ≠ [] →
  fa_shot_sequence d = Some shots → shots ≠ [] →
  subjects !! j = Some p →
  ∃ route film si angle,
    (plan_filming_route self start_pos subjects kind (Some d) now).1 = Ok route
    ∧ waypoints route
        !! ((if orbit_flown (length subjects) kind then 3 else 2) * j + 2)%nat
      = Some film
    ∧ shots !! (j mod length shots)%nat = Some si
    ∧ angles !! (j mod length angles)%nat = Some angle
    ∧ wp_lat film = lat p ∧ wp_lon film = lon p
    ∧ shot_type film = Some (default "following" (si_shot_type si))
    ∧ camera_angle film = Some angle
    ∧ duration film = Some (default 10 (si_duration si)).
Proof.
  intros Hangles Hne Hshots Hne' Hj.
  assert (angles_available (Some d)) as Ha.
  { cbn. rewrite Hangles. by intros [= ->]. }
  unfold plan_filming_route.
  destruct (filming_loop_returns (length subjects) kind (Some d) subjects Ha
              [ {| wp_lat := lat start_pos; wp_lon := lon start_pos;
                   altitude := advice_altitude (Some d); heading := 0;
                   speed := advice_speed (Some d);
                   description := "Starting position - prepare for filming";
                   shot_type := if_advice (Some d) "establishing";
                   camera_angle := if_advice (Some d) "overhead";
                   duration := Some 5 |} ] 0%nat) as [wps E].
  rewrite E. cbn [fst waypoints].
  destruct (filming_loop_film _ _ _ _ _ _ _ _ _ E Hj)
    as (film & angle & Hfilm & Hlat & Hlon & _ & Hangle & Hcam & Hshot & Hdur).
  cbn [length] in Hfilm. cbn [Nat.add] in Hangle, Hshot, Hdur.
  unfold advice_camera_angle in Hangle. rewrite Hangles in Hangle. cbn in Hangle.
  unfold advice_shot_info in Hshot, Hdur. rewrite Hshots in Hshot, Hdur.
  cbn in Hshot, Hdur.
  destruct angles as [|a0 angles]; [done|]. destruct shots as [|s0 shots]; [done|].
  cbn [py_cycle_index] in Hangle. simplify_eq.
  eexists _, film, _, _. split_and!; try done.
  - rewrite <- Hfilm. f_equal. lia.
  - apply cycle_lookup.
  - apply cycle_lookup.
Qed.

(** X7.  A hunting route has three waypoints: the start at 50 m and 4 m/s, an
    approach point at 40 m and 3 m/s, and the target at 35 m and 1 m/s.  The
    approach point lies on the circle of radius 0.0002 degrees around the
    target: at [target - 0.0002 * (cos w, sin w)] for a wind direction of w
    degrees, and 0.0002 degrees of latitude below the target without
    one. *)
Theorem plan_hunting_route_geometry self start_pos target animal terrain wind now :
  ∃ route approach,
    plan_hunting_route self start_pos target animal terrain wind now
      = (Ok route, append_route self route)
    ∧ (λ w, (wp_lat w, wp_lon w, altitude w, speed w)) <$> waypoints route
      = [(lat start_pos, lon start_pos, 50, 4);
         (approach.1, approach.2, 40, 3);
         (lat target, lon target, 35, 1)]
    ∧ (approach.1 - lat target) ^ 2 + (approach.2 - lon target) ^ 2 = 0.0002 ^ 2
    ∧ match wind with
      | Some w =>
          approach.1 = lat target - 0.0002 * cos (np_radians w)
          ∧ approach.2 = lon target - 0.0002 * sin (np_radians w)
      | None => approach = (lat target - 0.0002, lon target)
      end.
Proof.
  unfold plan_hunting_route. destruct wind as [w|].
  - eexists _, (_, _). split; [reflexivity|]. cbn. split; [reflexivity|].
    unfold np_cos, np_sin.
    replace (np_radians (w + 180)) with (np_radians w + PI)
      by (unfold np_radians; field; apply PI_neq0).
    rewrite neg_cos, neg_sin. split_and!; try lra.
    pose proof (sin2_cos2 (np_radians w)) as H. unfold Rsqr in H. nra.
  - eexists _, (_, _). split; [reflexivity|]. cbn. split; [reflexivity|].
    split; [|done]. lra.
Qed.

Lemma general_loop_spec self start_pos end_pos n indices : ∀ wps,
  ∃ ext,
    general_loop self start_pos end_pos n wps indices = wps ++ ext
    ∧ length ext = length indices
    ∧ ∀ k i, indices !! k = Some i →
        ∃ w, ext !! k = Some w
          ∧ on_segment start_pos end_pos (INR i / IZR n) w
          ∧ altitude w = 50 ∧ speed w = cruise_speed self.
Proof.
  induction indices as [|i rest IH]; intros wps.
  - exists []. cbn. rewrite app_nil_r. split_and!; try done.
  - cbn [general_loop].
    edestruct IH as (ext & -> & Hlen & Hext).
    eexists (_ :: ext). split_and!.
    + by rewrite <- app_assoc.
    + cbn. by rewrite Hlen.
    + intros [|k] j Hk.
      * cbn in Hk. simplify_eq. eexists. split; [done|]. by repeat split.
      * cbn in Hk. by apply Hext.
Qed.

(** X8.  On a planner object that has an [approach_speed], and for a
    [waypoint_count] n of at least 1, [plan_general_route] returns a GENERAL
    route of n + 1 waypoints at 50 m, the k-th at fraction k / n of the
    straight line from start to end; the last one is flown at
    [approach_speed], the others at [cruise_speed]. *)
Theorem plan_general_route_interpolates self start_pos end_pos n v now :
  approach_speed self = Some v → (1 <= n)%Z →
  ∃ route,
    plan_general_route self start_pos end_pos n now
      = (Ok route, append_route self route)
    ∧ route_type route = GENERAL
    ∧ length (waypoints route) = (Z.to_nat n + 1)%nat
    ∧ ∀ k, (k <= Z.to_nat n)%nat →
        ∃ w, waypoints route !! k = Some w
          ∧ on_segment start_pos end_pos (INR k / IZR n) w
          ∧ altitude w = 50
          ∧ speed w = if decide (k = Z.to_nat n) then v else cruise_speed self.
Proof.
  intros Hv Hn. unfold plan_general_route. rewrite Hv.
  destruct (general_loop_spec self start_pos end_pos n
              (seq 1 (Z.to_nat (n - 1)))
              [ {| wp_lat := lat start_pos; wp_lon := lon start_pos;
                   altitude := 50; heading := 0; speed := cruise_speed self;
                   description := "Starting position";
                   shot_type := None; camera_angle := None; duration := None |} ])
    as (ext & -> & Hlen & Hext).
  rewrite length_seq in Hlen.
  assert (IZR n = INR (Z.to_nat n)) as HINR.
  { rewrite INR_IZR_INZ, Z2Nat.id by lia. done. }
  assert (0 < IZR n) as Hpos by (apply IZR_lt; lia).
  eexists. split; [reflexivity|]. cbn [route_type waypoints].
  split; [done|]. split.
  { rewrite !length_app. cbn. rewrite Hlen. lia. }
  intros k Hk.
  destruct (decide (k = Z.to_nat n)) as [->|Hne].
  - eexists. split.
    { rewrite lookup_app_r by (rewrite length_app; cbn; lia).
      rewrite length_app, Hlen. cbn [length].
      replace (Z.to_nat n - (1 + Z.to_nat (n - 1)))%nat with 0%nat by lia.
      reflexivity. }
    rewrite <- HINR. unfold on_segment. cbn. split_and!; try done; field; lra.
  - destruct k as [|k].
    + eexists. split; [done|]. unfold on_segment. cbn.
      split_and!; try done; field; lra.
    + destruct (Hext k (S k)) as (w & Hw & Hseg & Halt & Hspeed).
      { rewrite lookup_seq_lt by lia. done. }
      exists w. split; [|done].
      rewrite <- app_assoc. cbn. by apply lookup_app_l_Some.
Qed.

Lemma filming_subject_waypoints_advised n kind advice wps i p wps' :
  filming_subject_waypoints n kind advice wps i p = Ok wps' →
  Forall (flown_as_advised advice) wps → Forall (flown_as_advised advice) wps'.
Proof.
  unfold filming_subject_waypoints. intros H Hall.
  destruct (advice_camera_angle advice i) as [a|e]; [|done]. cbn [rbind] in H.
  case_match; simplify_eq;
    repeat (apply Forall_app_2; [|apply Forall_singleton]); done.
Qed.

Lemma filming_loop_advised n kind advice subjects : ∀ wps i wps',
  filming_loop n kind advice wps i subjects = Ok wps' →
  Forall (flown_as_advised advice) wps → Forall (flown_as_advised advice) wps'.
Proof.
  induction subjects as [|p subjects IH]; intros wps i wps' H Hall; cbn in H.
  { by simplify_eq. }
  destruct (filming_subject_waypoints n kind advice wps i p) as [wps1|e] eqn:E; [|done].
  cbn in H. eapply IH; [done|]. by eapply filming_subject_waypoints_advised.
Qed.

(** X6.  Every waypoint of a filming route is flown at the altitude and speed
    of the advice (30.0 and 2.0 without one), whatever the planner's
    [max_altitude] and [min_altitude] are: the limits are not applied, and
    no call changes them.  A call that raises leaves the planner as it
    was. *)
Theorem plan_filming_route_flown_as_advised self start_pos subjects kind advice now :
  match plan_filming_route self start_pos subjects kind advice now with
  | (Ok route, self') =>
      Forall (flown_as_advised advice) (waypoints route)
      ∧ max_altitude self' = max_altitude self
      ∧ min_altitude self' = min_altitude self
  | (Raise _, self') => self' = self
  end.
Proof.
  unfold plan_filming_route.
  destruct (filming_loop _ _ _ _ _ _) as [wps|e] eqn:E; [|done].
  cbn. split; [|done].
  eapply filming_loop_advised; [done|]. by apply Forall_singleton.
Qed.

(** X3.  [plan_filming_route] raises exactly when there is at least one subject
    and the advice carries an empty [camera_angles] list; the exception is
    then ZeroDivisionError, and the planner object is left as it was: no route
    is recorded. *)
Theorem plan_filming_route_failure self start_pos subjects kind advice now :
  (plan_filming_route self start_pos subjects kind advice now
     = (Raise ZeroDivisionError, self)
   ↔ subjects ≠ [] ∧ ¬ angles_available advice)
  ∧ (∀ e self',
       plan_filming_route self start_pos subjects kind advice now = (Raise e, self') →
       e = ZeroDivisionError ∧ self' = self).
Proof.
  split; [split|].
  - intros H.
    apply (proj1 (plan_filming_route_raises_iff self start_pos subjects kind
                    advice now)).
    exists ZeroDivisionError. by rewrite H.
  - intros H.
    apply (proj2 (plan_filming_route_raises_iff self start_pos subjects kind
                    advice now)) in H as [e H].
    destruct (plan_filming_route self start_pos subjects kind advice now)
      as [r self'] eqn:E.
    cbn in H. subst r. by apply plan_filming_route_raise in E as [-> ->].
  - intros e self' H. by apply plan_filming_route_raise in H as [-> ->].
Qed.

Lemma route_history_invariant_witness :
  Forall route_well_formed
    (generated_routes
       (plan_mustering_route (planner_init no_planning_config)
          (mkPosition 0 0) (mkPosition 0 0.01) None None 0).2)
  ∧ length (get_route_history
              (plan_mustering_route (planner_init no_planning_config)
                 (mkPosition 0 0) (mkPosition 0 0.01) None None 0).2)
    = length (generated_routes
                (plan_mustering_route (planner_init no_planning_config)
                   (mkPosition 0 0) (mkPosition 0 0.01) None None 0).2)
  ∧ Forall (λ s, rs_route_type s ≠ "general" ∧ (1 ≤ rs_waypoint_count s)%nat)
      (get_route_history
         (plan_mustering_route (planner_init no_planning_config)
            (mkPosition 0 0) (mkPosition 0 0.01) None None 0).2).
Proof.
  apply (route_history_invariant
           (plan_mustering_route (planner_init no_planning_config)
              (mkPosition 0 0) (mkPosition 0 0.01) None None 0).2).
  apply planner_reach_mustering, planner_reach_init.
Defined.

Lemma plan_filming_route_size_witness :
  ∃ route,
    (plan_filming_route (planner_init no_planning_config) (mkPosition 0 0)
       two_subjects "wedding" None 0).1 = Ok route
    ∧ length (waypoints route)
      = (1 + (if orbit_flown (length two_subjects) "wedding" then 3 else 2)
             * length two_subjects)%nat
    ∧ (@None FilmingAdviceDict = None →
       estimated_duration route
       = Finite (5 + (if orbit_flown (length two_subjects) "wedding"
                      then 21 else 13) * INR (length two_subjects))).
Proof.
  apply (plan_filming_route_size (planner_init no_planning_config)
           (mkPosition 0 0) two_subjects "wedding" None 0).
  exact I.
Defined.

Lemma plan_filming_route_shots_cycle_witness :
  ∃ route film si angle,
    (plan_filming_route (planner_init no_planning_config) (mkPosition 0 0)
       two_subjects "wedding" (Some cycling_advice) 0).1 = Ok route
    ∧ waypoints route
        !! ((if orbit_flown (length two_subjects) "wedding" then 3 else 2) * 1 + 2)%nat
      = Some film
    ∧ [mkShotInfo (Some "reveal") None (Some 8)] !! (1 mod 1)%nat = Some si
    ∧ ["overhead"; "side"; "follow"] !! (1 mod 3)%nat = Some angle
    ∧ wp_lat film = 2 ∧ wp_lon film = 2
    ∧ shot_type film = Some (default "following" (si_shot_type si))
    ∧ camera_angle film = Some angle
    ∧ duration film = Some (default 10 (si_duration si)).
Proof.
  apply (plan_filming_route_shots_cycle (planner_init no_planning_config)
           (mkPosition 0 0) two_subjects "wedding" cycling_advice
           ["overhead"; "side"; "follow"]
           [mkShotInfo (Some "reveal") None (Some 8)] 0 1 (mkPosition 2 2)).
  - reflexivity.
  - discriminate.
  - reflexivity.
  - discriminate.
  - reflexivity.
Defined.

Lemma plan_general_route_interpolates_witness :
  ∃ route,
    plan_general_route configured_planner (mkPosition 0 0) (mkPosition 1 2) 5 0
      = (Ok route, append_route configured_planner route)
    ∧ route_type route = GENERAL
    ∧ length (waypoints route) = (Z.to_nat 5 + 1)%nat
    ∧ ∀ k, (k <= Z.to_nat 5)%nat →
        ∃ w, waypoints route !! k = Some w
          ∧ on_segment (mkPosition 0 0) (mkPosition 1 2) (INR k / IZR 5) w
          ∧ altitude w = 50
          ∧ speed w = if decide (k = Z.to_nat 5) then 1.5
                      else cruise_speed configured_planner.
Proof.
  apply (plan_general_route_interpolates configured_planner (mkPosition 0 0)
           (mkPosition 1 2) 5 1.5 0).
  - reflexivity.
  - lia.
Defined.

End RoutePlannerCoverage.

(* ------------------------------------------------------------------ *)
(** ** Advisory generator: further properties *)
(* ------------------------------------------------------------------ *)

Section AIAdvisorRouteAdvice.
Import AIAdvisor.

Lemma FLOAT_OVERFLOW_large : 1000 < FLOAT_OVERFLOW.
Proof. unfold FLOAT_OVERFLOW. apply IZR_lt. reflexivity. Qed.

Lemma float_of_real_ok x : Rabs x < FLOAT_OVERFLOW → float_of_real x = Ok x.
Proof. intros H. unfold float_of_real. by rewrite decide_True. Qed.

Lemma float_of_real_overflow x :
  FLOAT_OVERFLOW <= Rabs x → float_of_real x = Raise OverflowError.
Proof. intros H. unfold float_of_real. rewrite decide_False; [done|lra]. Qed.

Lemma float_of_real_small x : Rabs x <= 2 → float_of_real x = Ok x.
Proof.
  intros H. apply float_of_real_ok. pose proof FLOAT_OVERFLOW_large. lra.
Qed.

Lemma Rabs_half_sum x y :
  Rabs x < FLOAT_OVERFLOW / 2 → Rabs y < FLOAT_OVERFLOW / 2 →
  Rabs ((x + y) / 2) < FLOAT_OVERFLOW.
Proof.
  intros Hx Hy. pose proof FLOAT_OVERFLOW_large.
  apply Rabs_def1; apply Rabs_def2 in Hx, Hy; lra.
Qed.

Lemma midpoint_numeric a b x y :
  py_num a = Some x → py_num b = Some y →
  Rabs x < FLOAT_OVERFLOW / 2 → Rabs y < FLOAT_OVERFLOW / 2 →
  rbind (py_add a b) (λ s, py_truediv s (PyInt 2)) = Ok (PyFloat ((x + y) / 2)).
Proof.
  intros Ha Hb Hx Hy.
  pose proof FLOAT_OVERFLOW_large as Hlarge.
  pose proof (Rabs_half_sum x y Hx Hy) as Hs.
  assert (Rabs x < FLOAT_OVERFLOW) as Hx' by lra.
  assert (Rabs y < FLOAT_OVERFLOW) as Hy' by lra.
  assert (float_of_real 2 = Ok 2) as H2.
  { apply float_of_real_small. rewrite Rabs_pos_eq; lra. }
  destruct a as [|ba|za|ra| | |]; try discriminate Ha;
    destruct b as [|bb|zb|rb| | |]; try discriminate Hb;
    cbn in Ha, Hb; simplify_eq; cbn; unfold int_to_float;
    repeat first
      [ rewrite (float_of_real_ok _ Hx') | rewrite (float_of_real_ok _ Hy')
      | rewrite H2 | rewrite <- plus_IZR | rewrite (float_of_real_ok _ Hs)
      | rewrite decide_False by lia | rewrite decide_False by lra
      | progress cbn | progress unfold int_to_float ];
    rewrite ?plus_IZR in *; rewrite ?(float_of_real_ok _ Hs); done.
Qed.


(** The mean of two ints is rounded once: it overflows when it is itself
    beyond the floats. *)
Lemma midpoint_int_overflow z w :
  2 * FLOAT_OVERFLOW <= Rabs (IZR (z + w)) →
  rbind (py_add (PyInt z) (PyInt w)) (λ s, py_truediv s (PyInt 2))
  = Raise OverflowError.
Proof.
  intros H. cbn. rewrite decide_False by lia.
  rewrite float_of_real_overflow; [done|].
  unfold Rdiv. rewrite Rabs_mult, (Rabs_pos_eq (/ 2)); lra.
Qed.

(** An int beyond the floats cannot be added to a float. *)
Lemma midpoint_mixed_overflow z r :
  FLOAT_OVERFLOW <= Rabs (IZR z) →
  rbind (py_add (PyInt z) (PyFloat r)) (λ s, py_truediv s (PyInt 2))
  = Raise OverflowError
  ∧ rbind (py_add (PyFloat r) (PyInt z)) (λ s, py_truediv s (PyInt 2))
    = Raise OverflowError.
Proof.
  intros H. cbn. unfold int_to_float. by rewrite float_of_real_overflow.
Qed.

Lemma generate_mustering_waypoints_ok herd dest a b c d :
  coordinate "lat" herd = Some a → coordinate "lon" herd = Some b →
  coordinate "lat" dest = Some c → coordinate "lon" dest = Some d →
  Rabs a < FLOAT_OVERFLOW / 2 → Rabs b < FLOAT_OVERFLOW / 2 →
  Rabs c < FLOAT_OVERFLOW / 2 → Rabs d < FLOAT_OVERFLOW / 2 →
  _generate_mustering_waypoints herd dest
  = Ok [ {| aw_position := [dict_get "lat" (PyInt 0) herd;
                            dict_get "lon" (PyInt 0) herd; PyFloat 25];
            aw_altitude := 25;
            aw_description := "Start position - approach herd from side" |};
         {| aw_position := [PyFloat ((a + c) / 2); PyFloat ((b + d) / 2); PyFloat 30];
            aw_altitude := 30;
            aw_description := "Midpoint - guide herd direction" |};
         {| aw_position := [dict_get "lat" (PyInt 0) dest;
                            dict_get "lon" (PyInt 0) dest; PyFloat 25];
            aw_altitude := 25;
            aw_description := "Destination - final approach" |} ].
Proof.
  unfold coordinate, _generate_mustering_waypoints.
  intros Ha Hb Hc Hd Ra Rb Rc Rd.
  rewrite (midpoint_numeric _ _ _ _ Ha Hc Ra Rc),
    (midpoint_numeric _ _ _ _ Hb Hd Rb Rd).
  done.
Qed.



Lemma generate_mustering_waypoints_overflow herd dest z :
  dict_get "lat" (PyInt 0) herd = PyInt z →
  match dict_get "lat" (PyInt 0) dest with
  | PyInt w => 2 * FLOAT_OVERFLOW <= Rabs (IZR (z + w))
  | PyFloat _ => FLOAT_OVERFLOW <= Rabs (IZR z)
  | _ => False
  end →
  _generate_mustering_waypoints herd dest = Raise OverflowError.
Proof.
  unfold _generate_mustering_waypoints. intros -> H.
  destruct (dict_get "lat" (PyInt 0) dest) as [| |w|r| | |]; try done.
  - by rewrite midpoint_int_overflow.
  - by rewrite (proj1 (midpoint_mixed_overflow z r H)).
Qed.

Lemma get_mustering_advice_cases self herd dest size terrain :
  match _generate_mustering_waypoints herd dest with
  | Ok wps =>
      ∃ advice, get_mustering_advice self herd dest size terrain = Ok advice
                ∧ waypoints advice = wps
  | Raise e => get_mustering_advice self herd dest size terrain = Raise e
  end.
Proof.
  unfold get_mustering_advice, _get_mustering_advice_from_ai,
    _get_mustering_advice_default.
  destruct (_generate_mustering_waypoints herd dest) as [wps|e'];
    destruct (claude_integration self) as [integration|]; cbn;
    try destruct (generate_expert_advice integration _ _) as [text|e];
    cbn; eauto.
Qed.


(** Two closed calls: a herd at latitude 10^400 with a destination that has
    no latitude, and a herd and a destination within range. *)
Example mustering_advice_of_huge_latitude :
  get_mustering_advice (mkAdvisor None false) [("lat", PyInt (10 ^ 400))] []
    None PyNone = Raise OverflowError
  ∧ ∃ advice,
      get_mustering_advice (mkAdvisor None false)
        [("lat", PyInt 2); ("lon", PyFloat 1)] [("lat", PyFloat 3)]
        None PyNone = Ok advice
      ∧ aw_position <$> waypoints advice
        = [ [PyInt 2; PyFloat 1; PyFloat 25];
            [PyFloat ((2 + 3) / 2); PyFloat ((1 + 0) / 2); PyFloat 30];
            [PyFloat 3; PyInt 0; PyFloat 25] ].
Proof.
  split.
  - pose proof (get_mustering_advice_cases (mkAdvisor None false)
                  [("lat", PyInt (10 ^ 400))] [] None PyNone) as E.
    rewrite (generate_mustering_waypoints_overflow _ _ (10 ^ 400)) in E; [done..|].
    cbn [dict_get]. unfold FLOAT_OVERFLOW.
    rewrite <- mult_IZR, <- abs_IZR. apply IZR_le. by vm_compute.
  - pose proof (get_mustering_advice_cases (mkAdvisor None false)
                  [("lat", PyInt 2); ("lon", PyFloat 1)] [("lat", PyFloat 3)]
                  None PyNone) as E.
    pose proof FLOAT_OVERFLOW_large.
    rewrite (generate_mustering_waypoints_ok _ _ 2 1 3 0) in E;
      try done; try (rewrite Rabs_pos_eq; lra).
    destruct E as (advice & E & Hw). exists advice. split; [done|]. by rewrite Hw.
Qed.

Lemma generate_hunting_waypoints_cases target :
  match coordinate "lat" target with
  | Some a =>
      (Rabs a < FLOAT_OVERFLOW →
       _generate_hunting_waypoints target
       = Ok [ {| aw_position := [PyFloat (a - 0.001);
                                 dict_get "lon" (PyInt 0) target; PyFloat 40];
                 aw_altitude := 40;
                 aw_description := "Approach point - downwind side" |};
              {| aw_position := [dict_get "lat" (PyInt 0) target;
                                 dict_get "lon" (PyInt 0) target; PyFloat 35];
                 aw_altitude := 35;
                 aw_description := "Target location - maintain safe distance" |} ])
      ∧ (∀ z, dict_get "lat" (PyInt 0) target = PyInt z →
              FLOAT_OVERFLOW <= Rabs (IZR z) →
              _generate_hunting_waypoints target = Raise OverflowError)
  | None => _generate_hunting_waypoints target = Raise TypeError
  end.
Proof.
  unfold coordinate, _generate_hunting_waypoints, py_sub.
  destruct (dict_get "lat" (PyInt 0) target) as [|b|z|r| | |]; cbn; try done.
  - split; [|done]. intros H. unfold int_to_float.
    by rewrite float_of_real_ok.
  - split.
    + intros H. unfold int_to_float. by rewrite float_of_real_ok.
    + intros ? [= <-] H. unfold int_to_float.
      by rewrite float_of_real_overflow.
Qed.

Lemma get_hunting_advice_cases self target animal terrain weather :
  match _generate_hunting_waypoints target with
  | Ok wps =>
      ∃ advice, get_hunting_advice self target animal terrain weather = Ok advice
                ∧ waypoints advice = wps
  | Raise e => get_hunting_advice self target animal terrain weather = Raise e
  end.
Proof.
  unfold get_hunting_advice, _get_hunting_advice_from_ai,
    _get_hunting_advice_default.
  destruct (_generate_hunting_waypoints target) as [wps|e'];
    destruct (claude_integration self) as [integration|]; cbn;
    try destruct (generate_expert_advice integration _ _) as [text|e];
    cbn; eauto.
Qed.

(** X10.  [get_hunting_advice], with or without a capability, by the latitude
    of the target (0 if absent).  A number within the floats: the call
    returns an advice of two waypoints, an approach point 0.001 degrees of
    latitude below the target at 40 m and the target at 35 m, the longitude
    being passed on as it is.  An int beyond the floats: the subtraction
    raises OverflowError.  Not a number: TypeError. *)
Theorem get_hunting_advice_outcome self target animal terrain weather :
  match coordinate "lat" target with
  | Some a =>
      (Rabs a < FLOAT_OVERFLOW →
       ∃ advice,
         get_hunting_advice self target animal terrain weather = Ok advice
         ∧ (λ w, (aw_position w, aw_altitude w)) <$> waypoints advice
           = [ ([PyFloat (a - 0.001); dict_get "lon" (PyInt 0) target; PyFloat 40],
                40);
               ([dict_get "lat" (PyInt 0) target; dict_get "lon" (PyInt 0) target;
                 PyFloat 35], 35) ])
      ∧ (∀ z, dict_get "lat" (PyInt 0) target = PyInt z →
              FLOAT_OVERFLOW <= Rabs (IZR z) →
              get_hunting_advice self target animal terrain weather
              = Raise OverflowError)
  | None =>
      get_hunting_advice self target animal terrain weather = Raise TypeError
  end.
Proof.
  pose proof (get_hunting_advice_cases self target animal terrain weather) as E.
  pose proof (generate_hunting_waypoints_cases target) as G.
  destruct (coordinate "lat" target) as [a|]; [|by rewrite G in E].
  destruct G as [Gok Gover]. split.
  - intros Ra. rewrite (Gok Ra) in E.
    destruct E as (advice & E & Hw). exists advice. split; [done|]. by rewrite Hw.
  - intros z Hz Hover. by rewrite (Gover z Hz Hover) in E.
Qed.

(** Two closed calls: a target at latitude 10^400 and one at latitude 2. *)
Example hunting_advice_of_huge_latitude :
  get_hunting_advice (mkAdvisor None false) [("lat", PyInt (10 ^ 400))] "deer"
    PyNone PyNone = Raise OverflowError
  ∧ ∃ advice,
      get_hunting_advice (mkAdvisor None false) [("lat", PyInt 2)] "deer"
        PyNone PyNone = Ok advice
      ∧ aw_position <$> waypoints advice
        = [ [PyFloat (2 - 0.001); PyInt 0; PyFloat 40];
            [PyInt 2; PyInt 0; PyFloat 35] ].
Proof.
  split.
  - pose proof (get_hunting_advice_cases (mkAdvisor None false)
                  [("lat", PyInt (10 ^ 400))] "deer" PyNone PyNone) as E.
    pose proof (generate_hunting_waypoints_cases [("lat", PyInt (10 ^ 400))]) as G.
    cbn [coordinate dict_get String.eqb Ascii.eqb Bool.eqb py_num py_int_like
         fmap option_fmap option_map] in G.
    destruct G as [_ G]. rewrite (G (10 ^ 400)%Z) in E; [done..|].
    unfold FLOAT_OVERFLOW. rewrite <- abs_IZR. apply IZR_le. by vm_compute.
  - pose proof (get_hunting_advice_cases (mkAdvisor None false)
                  [("lat", PyInt 2)] "deer" PyNone PyNone) as E.
    pose proof (generate_hunting_waypoints_cases [("lat", PyInt 2)]) as G.
    cbn [coordinate dict_get String.eqb Ascii.eqb Bool.eqb py_num py_int_like
         fmap option_fmap option_map] in G.
    destruct G as [G _]. pose proof FLOAT_OVERFLOW_large.
    rewrite G in E by (rewrite Rabs_pos_eq; lra).
    destruct E as (advice & E & Hw). exists advice. split; [done|]. by rewrite Hw.
Qed.

(** X11.  The mustering and the hunting advice do not depend on what the
    capability answers: two advisors whose capabilities answer every request,
    with whatever text, and whether started or not, give the same result. *)
Theorem route_advice_ignores_service_text c1 c2 r1 r2 herd dest size terrain
    target animal weather :
  answers c1 → answers c2 →
  get_mustering_advice (mkAdvisor (Some c1) r1) herd dest size terrain
  = get_mustering_advice (mkAdvisor (Some c2) r2) herd dest size terrain
  ∧ get_hunting_advice (mkAdvisor (Some c1) r1) target animal terrain weather
    = get_hunting_advice (mkAdvisor (Some c2) r2) target animal terrain weather.
Proof.
  intros H1 H2.
  unfold get_mustering_advice, _get_mustering_advice_from_ai,
    get_hunting_advice, _get_hunting_advice_from_ai. cbn [claude_integration].
  split.
  - edestruct H1 as [t1 ->]. edestruct H2 as [t2 ->]. done.
  - edestruct H1 as [t1 ->]. edestruct H2 as [t2 ->]. done.
Qed.

Lemma route_advice_ignores_service_text_witness :
  get_mustering_advice (mkAdvisor (Some unconfigured_service) false) [] [] None PyNone
  = get_mustering_advice (mkAdvisor (Some empty_object_service) true) [] [] None PyNone
  ∧ get_hunting_advice (mkAdvisor (Some unconfigured_service) false) [] "deer"
      PyNone PyNone
    = get_hunting_advice (mkAdvisor (Some empty_object_service) true) [] "deer"
        PyNone PyNone.
Proof.
  apply (route_advice_ignores_service_text unconfigured_service
           empty_object_service false true [] [] None PyNone [] "deer" PyNone).
  - intros q c. by eexists.
  - intros q c. by eexists.
Defined.

End AIAdvisorRouteAdvice.

Section AIAdvisorFilming.
Import AIAdvisor.

(** [json.loads] *)
Variable json_loads : string → result pyval.

(** X12.  [get_filming_advice] never raises, whatever the capability and
    [json.loads] do: it returns the default advice of the operation type, or,
    when the capability has answered with a text that [json.loads] turns
    into a dict, the advice built from that dict. *)
Theorem get_filming_advice_returns self op location subject_info weather :
  ∃ advice,
    get_filming_advice json_loads self op location subject_info weather = Ok advice
    ∧ (advice = _get_filming_advice_default op
       ∨ ∃ integration question context text kv,
           claude_integration self = Some integration
           ∧ generate_expert_advice integration question context = Ok text
           ∧ json_loads text = Ok (PyDict kv)
           ∧ advice_of_json (PyDict kv) = Ok advice).
Proof.
  unfold get_filming_advice.
  destruct (claude_integration self) as [integration|]; [|eauto].
  unfold _get_filming_advice_from_ai.
  destruct (generate_expert_advice integration _ _) as [text|e] eqn:Eg; cbn;
    [|eauto].
  destruct (json_loads text) as [v|e] eqn:Ej; cbn.
  - destruct v; cbn; eauto.
    eexists. split; [done|]. right. eexists _, _, _, _, _. split_and!; done.
  - destruct e; cbn; eauto.
Qed.

Lemma generic_default_differs op :
  op = FILMING_WEDDING ∨ op = FILMING_ADVERTISEMENT →
  _get_filming_advice_default op ≠ _get_filming_advice_default FILMING_EVENT.
Proof.
  intros [-> | ->]; cbn; intros [= H]; lra.
Qed.

(** X13.  When the capability answers with a text that parses to the empty
    object, the advice is the generic default (altitude 30.0, speed 3.0, no
    shots) for every operation type: for a wedding or an advertisement it is
    not the default of that operation. *)
Theorem empty_object_gives_generic_advice self integration op location
    subject_info weather :
  claude_integration self = Some integration →
  (∀ question context, ∃ text,
     generate_expert_advice integration question context = Ok text
     ∧ json_loads text = Ok (PyDict [])) →
  get_filming_advice json_loads self op location subject_info weather
  = Ok (_get_filming_advice_default FILMING_EVENT)
  ∧ (op = FILMING_WEDDING ∨ op = FILMING_ADVERTISEMENT →
     get_filming_advice json_loads self op location subject_info weather
     ≠ Ok (_get_filming_advice_default op)).
Proof.
  intros Hc Hjson.
  assert (get_filming_advice json_loads self op location subject_info weather
          = Ok (_get_filming_advice_default FILMING_EVENT)) as E.
  { unfold get_filming_advice. rewrite Hc. unfold _get_filming_advice_from_ai.
    edestruct Hjson as (text & -> & Ej). cbn. by rewrite Ej. }
  split; [done|]. intros Hop. rewrite E. intros [= H].
  by eapply generic_default_differs.
Qed.

End AIAdvisorFilming.

Section AIAdvisorFilmingExample.
Import AIAdvisor.

Lemma empty_object_gives_generic_advice_witness :
  get_filming_advice empty_object_loads (mkAdvisor (Some empty_object_service) true)
    FILMING_WEDDING PyNone PyNone PyNone
  = Ok (_get_filming_advice_default FILMING_EVENT)
  ∧ (FILMING_WEDDING = FILMING_WEDDING ∨ FILMING_WEDDING = FILMING_ADVERTISEMENT →
     get_filming_advice empty_object_loads
       (mkAdvisor (Some empty_object_service) true)
       FILMING_WEDDING PyNone PyNone PyNone
     ≠ Ok (_get_filming_advice_default FILMING_WEDDING)).
Proof.
  apply (empty_object_gives_generic_advice empty_object_loads
           (mkAdvisor (Some empty_object_service) true) empty_object_service).
  - reflexivity.
  - intros q c. exists "{}". split; reflexivity.
Defined.

End AIAdvisorFilmingExample.

(* ------------------------------------------------------------------ *)
(** ** The reasoning service *)
(* ------------------------------------------------------------------ *)

Section ClaudeProperties.
Import Claude.

(** The exchange with the API, and [json.loads]. *)
Variable api_exchange : ClaudeIntegration → string → pyval → option string → string.
Variable json_loads : string → result pyval.

Lemma integration_reachable_inv key env_key self :
  integration_reachable key env_key self →
  api_key self = key_or_env key env_key
  ∧ (running self = true → key_present (api_key self) = true).
Proof.
  induction 1 as [|self H [IHk IHr]|self H [IHk IHr]].
  - unfold integration_init.
    destruct (key_present (key_or_env key env_key)) eqn:E; cbn; split; done.
  - unfold start. destruct (key_present (api_key self)) eqn:E; cbn; split;
      try done.
    intros Hr. by rewrite IHr in E.
  - cbn. split; done.
Qed.

Lemma keyless_integration_answer key env_key self question context system_prompt :
  key_present (key_or_env key env_key) = false →
  integration_reachable key env_key self →
  generate_expert_advice api_exchange self question context system_prompt
  = Ok NOT_AVAILABLE.
Proof.
  intros Hkey H. destruct (integration_reachable_inv key env_key self H) as [Hk Hr].
  unfold generate_expert_advice. rewrite Hk, Hkey. cbn.
  by rewrite orb_true_r.
Qed.

(** X14.  On every integration object that [__init__], [start] and [shutdown]
    can produce, [generate_expert_advice] returns, and goes through the API
    exactly while the object is running; the object runs only if a key was
    given or found in the environment, and without a key every call returns
    the "not available" text. *)
Theorem integration_answers_while_running key env_key self question context
    system_prompt :
  integration_reachable key env_key self →
  generate_expert_advice api_exchange self question context system_prompt
  = Ok (if running self
        then api_exchange self question context system_prompt
        else NOT_AVAILABLE)
  ∧ (running self = true → key_present (key_or_env key env_key) = true)
  ∧ (key_present (key_or_env key env_key) = false →
     generate_expert_advice api_exchange self question context system_prompt
     = Ok NOT_AVAILABLE).
Proof.
  intros H. destruct (integration_reachable_inv key env_key self H) as [Hk Hr].
  unfold generate_expert_advice. rewrite <- Hk.
  destruct (running self) eqn:Er; cbn.
  - rewrite Hr by done. cbn. split_and!; try done.
  - split_and!; done.
Qed.

(** X15.  An advisor over an integration without a key, whatever [start] and
    [shutdown] calls were made on it: when [json.loads] does not turn the
    "not available" text into a dict, [get_filming_advice] returns the
    default advice of the operation type, and [get_general_advice] returns the
    "not available" text. *)
Theorem advisor_over_keyless_integration key env_key self advisor_running op
    location subject_info weather question context :
  key_present (key_or_env key env_key) = false →
  integration_reachable key env_key self →
  AIAdvisor.unparsable json_loads NOT_AVAILABLE →
  AIAdvisor.get_filming_advice json_loads
    (AIAdvisor.mkAdvisor (Some (as_capability api_exchange self)) advisor_running)
    op location subject_info weather
  = Ok (AIAdvisor._get_filming_advice_default op)
  ∧ AIAdvisor.get_general_advice
      (AIAdvisor.mkAdvisor (Some (as_capability api_exchange self)) advisor_running)
      question context
    = Ok NOT_AVAILABLE.
Proof.
  intros Hkey Hreach Hjson.
  assert (∀ q c, generate_expert_advice api_exchange self q c None = Ok NOT_AVAILABLE)
    as Hgen.
  { intros q c. by apply (keyless_integration_answer key env_key). }
  split.
  - unfold AIAdvisor.get_filming_advice. cbn [AIAdvisor.claude_integration].
    apply filming_advice_from_ai_falls_back. intros q c text. cbn.
    rewrite Hgen. by intros [= <-].
  - cbn. apply Hgen.
Qed.

End ClaudeProperties.

Lemma integration_answers_while_running_witness :
  Claude.generate_expert_advice (λ _ _ _ _, "{}")
    (Claude.shutdown (Claude.integration_init (Some "key") None)) "q" PyNone None
  = Ok (if Claude.running
             (Claude.shutdown (Claude.integration_init (Some "key") None))
        then "{}" else Claude.NOT_AVAILABLE)
  ∧ (Claude.running (Claude.shutdown (Claude.integration_init (Some "key") None))
     = true →
     Claude.key_present (Claude.key_or_env (Some "key") None) = true)
  ∧ (Claude.key_present (Claude.key_or_env (Some "key") None) = false →
     Claude.generate_expert_advice (λ _ _ _ _, "{}")
       (Claude.shutdown (Claude.integration_init (Some "key") None)) "q" PyNone None
     = Ok Claude.NOT_AVAILABLE).
Proof.
  apply (integration_answers_while_running (λ _ _ _ _, "{}") (Some "key") None).
  apply Claude.reach_integration_shutdown, Claude.reach_integration_init.
Defined.

Lemma advisor_over_keyless_integration_witness :
  AIAdvisor.get_filming_advice AIAdvisor.empty_object_loads
    (AIAdvisor.mkAdvisor
       (Some (Claude.as_capability (λ _ _ _ _, "{}")
                (Claude.start (Claude.integration_init None (Some "")))))
       true)
    AIAdvisor.FILMING_WEDDING PyNone PyNone PyNone
  = Ok (AIAdvisor._get_filming_advice_default AIAdvisor.FILMING_WEDDING)
  ∧ AIAdvisor.get_general_advice
      (AIAdvisor.mkAdvisor
         (Some (Claude.as_capability (λ _ _ _ _, "{}")
                  (Claude.start (Claude.integration_init None (Some "")))))
         true)
      "q" PyNone
    = Ok Claude.NOT_AVAILABLE.
Proof.
  apply (advisor_over_keyless_integration (λ _ _ _ _, "{}")
           AIAdvisor.empty_object_loads None (Some "")).
  - reflexivity.
  - apply Claude.reach_integration_start, Claude.reach_integration_init.
  - intros kv. vm_compute. discriminate.
Defined.

(* ------------------------------------------------------------------ *)
(** ** Subject tracker: further properties *)
(* ------------------------------------------------------------------ *)

Section TrackerQueries.
Import Tracker.

Lemma py_slice_from_suffix {A} start (l : list A) : py_slice_from start l `suffix_of` l.
Proof. unfold py_slice_from. apply suffix_drop. Qed.

(** X16.  [get_recent_advice(count)] returns a suffix of the advice history:
    the last [min(count, len)] entries for a positive [count], the whole
    history for [count = 0], and the history without its first [-count]
    entries for a negative [count]. *)
Theorem get_recent_advice_slices self count :
  get_recent_advice self count `suffix_of` advice_history self
  ∧ ((0 < count)%Z →
     length (get_recent_advice self count)
     = Nat.min (Z.to_nat count) (length (advice_history self)))
  ∧ (count = 0%Z → get_recent_advice self count = advice_history self)
  ∧ ((count < 0)%Z →
     get_recent_advice self count = drop (Z.to_nat (- count)) (advice_history self)).
Proof.
  unfold get_recent_advice. split; [apply py_slice_from_suffix|].
  unfold py_slice_from. split_and!.
  - intros Hc. rewrite (proj2 (Z.ltb_lt _ _)) by lia. rewrite length_drop. lia.
  - intros ->. cbn. rewrite Z.min_l by lia. done.
  - intros Hc. rewrite (proj2 (Z.ltb_ge _ _)) by lia.
    destruct (decide (- count <= Z.of_nat (length (advice_history self)))%Z).
    + by rewrite Z.min_l by lia.
    + rewrite Z.min_r by lia. rewrite Nat2Z.id.
      rewrite !drop_ge; [done|lia|lia].
Qed.

Lemma py_clamp_mono a b : a <= b → py_min 1 (py_max 0 a) <= py_min 1 (py_max 0 b).
Proof. unfold py_min, py_max. intros. repeat case_decide; lra. Qed.

(** X17.  The framing quality of a four-coordinate box does not change when
    the box is moved vertically or mirrored about the vertical centre line
    of the 1920-pixel frame, and it does not decrease when the confidence
    increases. *)
Theorem framing_quality_symmetries sid sid' x1 y1 x2 y2 dy c c' :
  _calculate_framing_quality (box_detection sid x1 (y1 + dy) x2 (y2 + dy) c)
  = _calculate_framing_quality (box_detection sid' x1 y1 x2 y2 c)
  ∧ _calculate_framing_quality
      (box_detection sid (frame_width - x2) y1 (frame_width - x1) y2 c)
    = _calculate_framing_quality (box_detection sid' x1 y1 x2 y2 c)
  ∧ (default 0.5 c <= default 0.5 c' →
     ∃ q q', _calculate_framing_quality (box_detection sid x1 y1 x2 y2 c) = Ok q
             ∧ _calculate_framing_quality (box_detection sid x1 y1 x2 y2 c') = Ok q'
             ∧ q <= q').
Proof.
  unfold _calculate_framing_quality, box_detection. cbn. split_and!.
  - replace (y2 + dy - (y1 + dy)) with (y2 - y1) by lra. done.
  - replace (frame_width - x1 - (frame_width - x2)) with (x2 - x1) by lra.
    replace ((frame_width - x2 + (frame_width - x1)) / 2 - frame_width / 2)
      with (- ((x1 + x2) / 2 - frame_width / 2)) by lra.
    by rewrite Rabs_Ropp.
  - intros Hc. eexists _, _. split; [done|]. split; [done|].
    apply py_clamp_mono. lra.
Qed.

End TrackerQueries.

Section TrackerInvariants.
Import Tracker.

Lemma process_detection_store_inv f cam t self d res self' :
  process_detection f cam t self d = (res, self') →
  store_invariant self → store_invariant self'.
Proof.
  intros Heq [Hall Hlive].
  pose proof (process_detection_outcome f cam t self d) as Hout.
  rewrite Heq in Hout.
  inversion Hout as [|q r1 Hq Hr|q Hq Hr]; subst; clear Hout Heq.
  - done.
  - pose proof (framing_quality_range _ _ Hq) as Hrange. split; cbn.
    + intros r obj. destruct (decide (r = r1)) as [->|Hne].
      * rewrite list_lookup_alter_eq. intros (o & _ & ->)%fmap_Some. cbn. auto.
      * rewrite list_lookup_alter_ne by done. apply (Hall r).
    + intros sid r Hsid. destruct (Hlive sid r Hsid) as (obj & Hobj & Hid & Hst).
      destruct (decide (r = r1)) as [->|Hne].
      * rewrite list_lookup_alter_eq, Hobj. cbn. by eexists.
      * rewrite list_lookup_alter_ne by done. eauto.
  - pose proof (framing_quality_range _ _ Hq) as Hrange. split; cbn.
    + intros r obj Hobj. apply lookup_app_Some in Hobj as [Hobj|[_ Hobj]].
      * by apply (Hall r).
      * apply list_lookup_singleton_Some in Hobj as [_ <-]. cbn. auto.
    + intros sid r.
      destruct (decide (detection_subject_id self d = sid)) as [<-|Hne].
      * rewrite lookup_insert_eq. intros [= <-].
        rewrite list_lookup_middle by done. by eexists.
      * rewrite lookup_insert_ne by done. intros Hsid.
        destruct (Hlive sid r Hsid) as (obj & Hobj & Hid & Hst).
        exists obj. split; [by apply lookup_app_l_Some|done].
Qed.

Lemma detection_loop_store_inv f cam t dets : ∀ self upd res self',
  detection_loop f cam t self upd dets = (res, self') →
  store_invariant self → store_invariant self'.
Proof.
  induction dets as [|d dets IH]; intros self upd res self' Hloop Hinv; cbn in Hloop.
  { by simplify_eq. }
  destruct (process_detection f cam t self d) as [[r|e] self1] eqn:Hstep.
  - eapply IH; [done|]. by eapply process_detection_store_inv.
  - apply process_detection_raise in Hstep. by simplify_eq.
Qed.

(** The lost check leaves the objects of the subjects that stay live as they
    are. *)
Lemma check_lost_fold_survivors t items : ∀ acc,
  NoDup items.*1 →
  (∀ sid r, (sid, r) ∈ items → tracked_subjects acc.2 !! sid = Some r) →
  (∀ sid r, tracked_subjects acc.2 !! sid = Some r →
     ∃ obj, store acc.2 !! r = Some obj ∧ subject_id obj = sid) →
  ∀ sid r, tracked_subjects (foldl (check_lost_step t) acc items).2 !! sid = Some r →
    store (foldl (check_lost_step t) acc items).2 !! r = store acc.2 !! r.
Proof.
  induction items as [|[sid0 r0] items IH]; intros acc Hnd Hitems Hkey sid r Hsid;
    [done|].
  cbn [foldl] in *. apply NoDup_cons in Hnd as [Hnin Hnd]. cbn in Hnin.
  pose proof (check_lost_step_spec t acc (sid0, r0)) as S1.
  pose proof (check_lost_fold_spec t items (check_lost_step t acc (sid0, r0))) as S2.
  assert (tracked_subjects acc.2 !! sid0 = Some r0) as Hlive0.
  { apply Hitems. by left. }
  assert (∀ sid' r', (sid', r') ∈ items →
            tracked_subjects (check_lost_step t acc (sid0, r0)).2 !! sid' = Some r')
    as Hitems1.
  { intros sid' r' Hin.
    assert (sid' ≠ sid0) as Hne.
    { intros ->. apply Hnin. apply list_elem_of_fmap. by exists (sid0, r'). }
    assert (tracked_subjects acc.2 !! sid' = Some r') as Hl by (apply Hitems; by right).
    destruct acc as [lost self]. cbn in *.
    destruct (store self !! r0); [|done]. case_decide; [|done]. cbn.
    by rewrite lookup_delete_ne. }
  assert (∀ sid' r', tracked_subjects (check_lost_step t acc (sid0, r0)).2 !! sid'
                     = Some r' →
            ∃ obj, store (check_lost_step t acc (sid0, r0)).2 !! r' = Some obj
                   ∧ subject_id obj = sid') as Hkey1.
  { intros sid' r' Hl'. destruct (Hkey sid' r' (lost_live _ _ _ S1 _ _ Hl'))
      as (obj & Hobj & Hid).
    destruct (lost_store _ _ _ S1 r') as [E|(o & Ho & _ & E)].
    - exists obj. by rewrite E.
    - exists (mark_lost o). split; [done|]. rewrite Hobj in Ho. by simplify_eq. }
  rewrite (IH _ Hnd Hitems1 Hkey1 sid r Hsid).
  pose proof (lost_live _ _ _ S2 _ _ Hsid) as Hsid1.
  pose proof (lost_live _ _ _ S1 _ _ Hsid1) as Hsid0.
  destruct acc as [lost self]. cbn in *.
  destruct (store self !! r0) as [obj0|] eqn:Hobj0; [|done].
  case_decide; [|done]. cbn in *.
  apply lookup_delete_Some in Hsid1 as [Hne _].
  rewrite list_lookup_alter_ne; [done|]. intros ->.
  destruct (Hkey _ _ Hsid0) as (o1 & Ho1 & Hid1).
  destruct (Hkey _ _ Hlive0) as (o2 & Ho2 & Hid2). congruence.
Qed.

Lemma check_lost_survivors t self sid r :
  live_in_history self →
  tracked_subjects (check_lost t self).2 !! sid = Some r →
  store (check_lost t self).2 !! r = store self !! r.
Proof.
  intros Hinv. unfold check_lost.
  apply (check_lost_fold_survivors t _ ([], self)).
  - apply NoDup_fst_dict_items.
  - intros sid' r' Hin. by apply elem_of_dict_items.
  - intros sid' r' Hl. destruct (Hinv sid' r' Hl) as (_ & obj & ? & ?). eauto.
Qed.

(** A live subject whose timeout has not run out is kept, with its object. *)
Lemma check_lost_fold_keeps t items : ∀ acc sid r obj,
  tracked_subjects acc.2 !! sid = Some r →
  store acc.2 !! r = Some obj →
  ¬ lost_timeout acc.2 < t - timestamp obj →
  (∀ r', (sid, r') ∈ items → r' = r) →
  tracked_subjects (foldl (check_lost_step t) acc items).2 !! sid = Some r
  ∧ store (foldl (check_lost_step t) acc items).2 !! r = Some obj.
Proof.
  induction items as [|[sid0 r0] items IH]; intros acc sid r obj Hsid Hobj Ht Hitems;
    [done|].
  cbn [foldl]. apply IH.
  - destruct acc as [lost self]. cbn in *.
    destruct (store self !! r0) as [obj0|] eqn:Hobj0; [|done].
    case_decide as Hexp; [|done]. cbn.
    rewrite lookup_delete_ne; [done|]. intros ->.
    assert (r0 = r) as -> by (apply Hitems; by left). congruence.
  - destruct acc as [lost self]. cbn in *.
    destruct (store self !! r0) as [obj0|] eqn:Hobj0; [|done].
    case_decide as Hexp; [|done]. cbn.
    rewrite list_lookup_alter_ne; [done|]. intros ->. congruence.
  - destruct acc as [lost self]. cbn in *.
    destruct (store self !! r0) as [obj0|] eqn:Hobj0; [|done].
    by case_decide.
  - intros r' Hin. apply Hitems. by right.
Qed.

Lemma check_lost_keeps t self sid r obj :
  tracked_subjects self !! sid = Some r →
  store self !! r = Some obj →
  ¬ lost_timeout self < t - timestamp obj →
  tracked_subjects (check_lost t self).2 !! sid = Some r
  ∧ store (check_lost t self).2 !! r = Some obj.
Proof.
  intros Hsid Hobj Ht. unfold check_lost.
  apply (check_lost_fold_keeps t _ ([], self)); cbn; try done.
  intros r' Hin%elem_of_dict_items. congruence.
Qed.

Lemma check_lost_store_inv t self :
  live_in_history self → store_invariant self →
  store_invariant (check_lost t self).2.
Proof.
  intros Hhist [Hall Hlive]. pose proof (check_lost_spec t self) as S. split.
  - intros r obj Hobj. destruct (lost_store _ _ _ S r) as [E|(o & Ho & _ & E)].
    + apply Hall with r. by rewrite <- E.
    + rewrite E in Hobj. simplify_eq. cbn. split; [by right|].
      by apply (Hall r o).
  - intros sid r Hsid. rewrite (check_lost_survivors t self sid r Hhist Hsid).
    apply Hlive. by apply (lost_live _ _ _ S).
Qed.

Lemma update_tracking_store_inv fmt self dets f cam t ta :
  live_in_history self → store_invariant self →
  store_invariant (update_tracking fmt self dets f cam t ta).2.
Proof.
  intros Hhist Hinv. destruct (update_tracking_outcome fmt self dets f cam t ta)
    as [Hrun|e self1 Hrun Hloop|upd self1 Hrun Hloop]; cbn.
  - done.
  - by eapply detection_loop_store_inv.
  - assert (store_invariant (check_lost t self1).2) as Hinv2.
    { apply check_lost_store_inv; [by eapply detection_loop_inv|].
      by eapply detection_loop_store_inv. }
    exact Hinv2.
Qed.

Lemma reachable_store_inv fmt self : reachable fmt self → store_invariant self.
Proof.
  induction 1 as [cfg adv|self _ IH|self _ IH|self H IH|self dets f cam t ta H IH].
  - split; intros ? ?; cbn; [by rewrite lookup_nil|by rewrite lookup_empty].
  - done.
  - done.
  - destruct IH as [Hall _]. split; [done|]. intros sid r. cbn.
    by rewrite lookup_empty.
  - apply update_tracking_store_inv; [|done]. by eapply reachable_live_in_history.
Qed.

End TrackerInvariants.

Section TrackerLifeCycle.
Import Tracker.

(** The float formatting of the advice messages. *)
Variable fmt : R → string.

(** X18.  In every tracker state that [__init__], [start], [shutdown],
    [clear_history] and [update_tracking] can produce, each tracked-subject
    object has status "tracking" or "lost" and a framing quality in [0, 1],
    the object of a live subject carries its key and has status "tracking",
    and no object has status "reacquired". *)
Theorem tracking_status_invariant self :
  reachable fmt self →
  store_invariant self
  ∧ ∀ r obj, store self !! r = Some obj → tracking_status obj ≠ "reacquired".
Proof.
  intros H. pose proof (reachable_store_inv fmt self H) as Hinv.
  split; [done|]. intros r obj Hobj.
  destruct (proj1 Hinv r obj Hobj) as [[-> | ->] _]; done.
Qed.

Lemma live_refs_NoDup self :
  live_in_history self → NoDup (map_to_list (tracked_subjects self)).*2.
Proof.
  intros Hinv. apply NoDup_fmap_2_strong; [|apply NoDup_map_to_list].
  intros [s1 r1] [s2 r2] H1 H2 Heq. cbn in Heq. subst r2.
  apply elem_of_map_to_list in H1, H2.
  destruct (Hinv _ _ H1) as (_ & o1 & Ho1 & Hid1).
  destruct (Hinv _ _ H2) as (_ & o2 & Ho2 & Hid2).
  f_equal. congruence.
Qed.

(** X19.  In every such state, [get_tracking_status] reports no more active
    tracks than tracked entries, as many [subjects] entries as active
    tracks, and each entry is a live subject with status "tracking" and a
    framing quality in [0, 1]. *)
Theorem tracking_status_counts self :
  reachable fmt self →
  (active_tracks (get_tracking_status self)
   ≤ total_tracked (get_tracking_status self))%nat
  ∧ length (subjects (get_tracking_status self))
    = active_tracks (get_tracking_status self)
  ∧ Forall (λ s, ss_tracking_status s = "tracking"
                 ∧ 0 <= ss_framing_quality s <= 1
                 ∧ ∃ r, tracked_subjects self !! ss_subject_id s = Some r)
      (subjects (get_tracking_status self)).
Proof.
  intros H. pose proof (reachable_live_in_history fmt self H) as Hhist.
  destruct (reachable_store_inv fmt self H) as [Hall Hlive].
  cbn. split_and!.
  - rewrite <- length_map_to_list, <- (length_fmap snd).
    apply submseteq_length, NoDup_submseteq; [by apply live_refs_NoDup|].
    intros r ([sid r'] & -> & Hin)%list_elem_of_fmap.
    apply elem_of_map_to_list in Hin. by apply (Hhist sid r').
  - rewrite <- length_dict_items.
    assert (∀ items : list (string * nat),
              (∀ sid r, (sid, r) ∈ items → tracked_subjects self !! sid = Some r) →
              length (omap (λ item : string * nat,
                              subject_status <$> store self !! item.2) items)
              = length items) as Hlen.
    { induction items as [|[sid r] items IH]; intros Hitems; [done|]. cbn.
      destruct (Hlive sid r) as (obj & -> & _); [apply Hitems; by left|].
      cbn. f_equal. apply IH. intros. apply Hitems. by right. }
    apply Hlen. intros sid r. apply elem_of_dict_items.
  - apply Forall_forall. intros s ([sid r] & Hin & Hs)%list_elem_of_omap.
    apply elem_of_dict_items in Hin. cbn in Hs.
    destruct (Hlive sid r Hin) as (obj & Hobj & Hid & Hst).
    rewrite Hobj in Hs. cbn in Hs. simplify_eq. cbn.
    split; [done|]. split; [by apply (Hall r obj)|by exists r].
Qed.

Lemma detection_loop_lost_frozen f cam t dets : ∀ self upd res self' r obj,
  detection_loop f cam t self upd dets = (res, self') →
  store_invariant self →
  store self !! r = Some obj → tracking_status obj = "lost" →
  store self' !! r = Some obj
  ∧ ∀ upd', res = Ok upd' → r ∈ upd' → r ∈ upd.
Proof.
  induction dets as [|d dets IH]; intros self upd res self' r obj Hloop Hinv Hobj Hst;
    cbn in Hloop.
  { simplify_eq. split; [done|]. by intros ? [= <-]. }
  destruct (process_detection f cam t self d) as [[r1|e] self1] eqn:Hstep.
  - assert (r1 ≠ r) as Hne.
    { pose proof (process_detection_outcome f cam t self d) as Hout.
      rewrite Hstep in Hout.
      inversion Hout as [|q r2 Hq Hr|q Hq Hr]; subst.
      - intros ->. destruct (proj2 Hinv _ _ Hr) as (o & Ho & _ & Hs). congruence.
      - apply lookup_lt_Some in Hobj. lia. }
    pose proof (process_detection_store _ _ _ _ _ _ _ Hstep r (not_eq_sym Hne)) as F.
    destruct (IH _ _ _ _ r obj Hloop) as [Hfin Hupd].
    + by eapply process_detection_store_inv.
    + by rewrite F.
    + done.
    + split; [done|]. intros upd' Hres Hin.
      specialize (Hupd upd' Hres Hin).
      apply elem_of_app in Hupd as [?|Hr1]; [done|].
      apply list_elem_of_singleton in Hr1. congruence.
  - apply process_detection_raise in Hstep. simplify_eq. done.
Qed.

Lemma mark_lost_lost obj : tracking_status obj = "lost" → mark_lost obj = obj.
Proof. destruct obj. cbn. by intros ->. Qed.

(** X20.  An object that is "lost" stays as it is through every later
    [update_tracking] call, and no call returns it: a later detection of the
    same subject makes a new object. *)
Theorem lost_subject_is_never_reacquired self detections frame_number
    camera_position current_time advice_time r obj :
  reachable fmt self →
  store self !! r = Some obj →
  tracking_status obj = "lost" →
  store (update_tracking fmt self detections frame_number camera_position
           current_time advice_time).2 !! r = Some obj
  ∧ ∀ updated,
      (update_tracking fmt self detections frame_number camera_position
         current_time advice_time).1 = Ok updated →
      r ∉ updated.
Proof.
  intros H Hobj Hst. pose proof (reachable_store_inv fmt self H) as Hinv.
  destruct (update_tracking_outcome fmt self detections frame_number
              camera_position current_time advice_time)
    as [Hrun|e self1 Hrun Hloop|upd self1 Hrun Hloop]; cbn.
  - split; [done|]. intros ? [= <-]. apply not_elem_of_nil.
  - split; [|done].
    by destruct (detection_loop_lost_frozen _ _ _ _ _ _ _ _ r obj Hloop Hinv Hobj Hst).
  - destruct (detection_loop_lost_frozen _ _ _ _ _ _ _ _ r obj Hloop Hinv Hobj Hst)
      as [Hfin Hupd].
    split.
    + destruct (lost_store _ _ _ (check_lost_spec current_time self1) r)
        as [E|(o & Ho & _ & E)].
      * by rewrite E.
      * rewrite E. rewrite Hfin in Ho. simplify_eq. by rewrite mark_lost_lost.
    + intros updated [= <-] Hin. specialize (Hupd upd eq_refl Hin).
      by apply elem_of_nil in Hupd.
Qed.

(** X21.  After a call of [update_tracking] on a running tracker that
    returns, each live subject's object carries its key, is "tracking" and
    was matched at most [lost_timeout] seconds before the time of the
    call. *)
Theorem live_subjects_are_fresh self detections frame_number camera_position
    current_time advice_time updated self' sid r :
  reachable fmt self →
  running self = true →
  update_tracking fmt self detections frame_number camera_position
    current_time advice_time = (Ok updated, self') →
  tracked_subjects self' !! sid = Some r →
  ∃ obj, store self' !! r = Some obj
         ∧ subject_id obj = sid
         ∧ tracking_status obj = "tracking"
         ∧ current_time - timestamp obj <= lost_timeout self'.
Proof.
  intros H Hrun Hupd Hsid.
  pose proof (reachable_live_in_history fmt self H) as Hhist.
  pose proof (reachable_store_inv fmt self H) as Hinv.
  pose proof (update_tracking_outcome fmt self detections frame_number
                camera_position current_time advice_time) as Hout.
  rewrite Hupd in Hout.
  inversion Hout as [Hrun'|e self1 _ Hloop|upd self1 _ Hloop]; subst; [congruence|].
  cbn in *. clear Hout Hupd.
  assert (live_in_history self1) as Hhist1 by (by eapply detection_loop_inv).
  assert (store_invariant self1) as Hinv1 by (by eapply detection_loop_store_inv).
  pose proof (check_lost_spec current_time self1) as S.
  pose proof (lost_live _ _ _ S _ _ Hsid) as Hsid1.
  destruct (proj2 Hinv1 _ _ Hsid1) as (obj & Hobj & Hid & Hst).
  rewrite (check_lost_survivors current_time self1 sid r Hhist1 Hsid).
  exists obj. split_and!; [done|done|done|].
  destruct (lost_settings _ _ _ S) as (_ & _ & _ & _ & ->).
  destruct (Rle_or_lt (current_time - timestamp obj) (lost_timeout self1))
    as [Hle|Hlt]; [done|].
  destruct (check_lost_evicts current_time self1 sid r obj Hsid1 Hobj Hlt)
    as [Hdel _].
  congruence.
Qed.

(** X26.  With a timeout that is not negative, a live subject that was
    matched at most [lost_timeout] seconds before the time of an
    [update_tracking] call that returns is still live after it, with the
    same object, which is "tracking" and, unless the call has matched it
    again, unchanged. *)
Theorem fresh_subject_stays_live self detections frame_number camera_position
    current_time advice_time updated self' sid r obj :
  reachable fmt self →
  0 <= lost_timeout self →
  tracked_subjects self !! sid = Some r →
  store self !! r = Some obj →
  current_time - timestamp obj <= lost_timeout self →
  update_tracking fmt self detections frame_number camera_position
    current_time advice_time = (Ok updated, self') →
  tracked_subjects self' !! sid = Some r
  ∧ ∃ obj', store self' !! r = Some obj'
            ∧ tracking_status obj' = "tracking"
            ∧ (r ∉ updated → obj' = obj).
Proof.
  intros H Hlt Hsid Hobj Ht Hupd.
  pose proof (reachable_live_in_history fmt self H) as Hhist.
  pose proof (reachable_store_inv fmt self H) as Hinv.
  pose proof (update_tracking_outcome fmt self detections frame_number
                camera_position current_time advice_time) as Hout.
  rewrite Hupd in Hout.
  inversion Hout as [Hrun'|e self1 _ Hloop|upd self1 Hrun Hloop]; subst.
  { split; [done|]. destruct (proj2 Hinv _ _ Hsid) as (o & Ho & _ & Hst).
    exists obj. rewrite Hobj in Ho. by simplify_eq. }
  cbn. clear Hout Hupd.
  apply detection_loop_ok in Hloop as (new & Hnew & S1). cbn in Hnew. subst new.
  pose proof (loop_live _ _ _ _ S1 _ _ Hsid) as Hsid1.
  destruct (loop_settings _ _ _ _ S1) as (_ & _ & _ & _ & Hlt1).
  destruct (proj2 Hinv _ _ Hsid) as (o & Ho & _ & Hst).
  rewrite Hobj in Ho. simplify_eq.
  destruct (decide (r ∈ updated)) as [Hin|Hnin].
  - destruct (loop_inv _ _ _ _ S1 Hhist) as [_ Hsome].
    destruct (Hsome r Hin) as [obj1 Hobj1].
    destruct (loop_refreshed _ _ _ _ S1 r obj1 Hin Hobj1) as (Hts & Hst1 & _).
    destruct (check_lost_keeps current_time self1 sid r obj1 Hsid1 Hobj1)
      as [Hk1 Hk2]; [rewrite Hts, Hlt1; lra|].
    split; [done|]. exists obj1. by split_and!.
  - pose proof (loop_frame _ _ _ _ S1 r Hnin) as Hfr. rewrite Hobj in Hfr.
    destruct (check_lost_keeps current_time self1 sid r o Hsid1 Hfr)
      as [Hk1 Hk2]; [rewrite Hlt1; lra|].
    split; [done|]. exists o. by split_and!.
Qed.

Lemma framing_quality_oversized d :
  oversized d → _calculate_framing_quality d = Raise ValueError.
Proof.
  unfold oversized, bbox_of, _calculate_framing_quality.
  destruct (default _ _) as [|x1 [|y1 [|x2 [|y2 [|z l]]]]]; cbn; intros; (lia || done).
Qed.

Lemma framing_quality_raise d e :
  _calculate_framing_quality d = Raise e → e = ValueError ∧ oversized d.
Proof.
  unfold oversized, bbox_of, _calculate_framing_quality.
  destruct (default _ _) as [|x1 [|y1 [|x2 [|y2 [|z l]]]]]; cbn; intros; simplify_eq.
  split; [done|lia].
Qed.

Lemma process_detection_ok f cam t self d :
  ¬ oversized d →
  ∃ r self', process_detection f cam t self d = (Ok r, self').
Proof.
  intros Hd. destruct (process_detection f cam t self d) as [[r|e] self'] eqn:E;
    [eauto|].
  pose proof (process_detection_outcome f cam t self d) as Hout.
  rewrite E in Hout. inversion Hout as [e' Hq| |]; subst.
  by apply framing_quality_raise in Hq as [_ ?].
Qed.

Lemma process_detection_oversized f cam t self d :
  oversized d → process_detection f cam t self d = (Raise ValueError, self).
Proof.
  intros Hd. unfold process_detection. by rewrite framing_quality_oversized.
Qed.

(** The loop over well-formed detections returns one reference for each and
    appends them to the history. *)
Lemma detection_loop_well_formed f cam t dets : ∀ self upd,
  Forall (λ d, ¬ oversized d) dets →
  ∃ new self',
    detection_loop f cam t self upd dets = (Ok (upd ++ new), self')
    ∧ length new = length dets
    ∧ tracking_history self' = tracking_history self ++ new.
Proof.
  induction dets as [|d dets IH]; intros self upd Hall; cbn.
  - exists [], self. by rewrite !app_nil_r.
  - apply Forall_cons in Hall as [Hd Hall].
    destruct (process_detection_ok f cam t self d Hd) as (r & self1 & Hstep).
    rewrite Hstep.
    destruct (IH self1 (upd ++ [r]) Hall) as (new & self' & -> & Hlen & Hhist).
    exists (r :: new), self'. split_and!.
    + by rewrite <- app_assoc.
    + cbn. by rewrite Hlen.
    + rewrite Hhist,
        (step_history _ _ _ _ (process_detection_spec _ _ _ _ _ _ _ Hstep)).
      by rewrite <- app_assoc.
Qed.

Lemma detection_loop_app f cam t dets1 dets2 : ∀ self upd,
  detection_loop f cam t self upd (dets1 ++ dets2)
  = match detection_loop f cam t self upd dets1 with
    | (Ok upd1, self1) => detection_loop f cam t self1 upd1 dets2
    | (Raise e, self1) => (Raise e, self1)
    end.
Proof.
  induction dets1 as [|d dets1 IH]; intros self upd; cbn; [done|].
  destruct (process_detection f cam t self d) as [[r|e] self1]; [|done].
  apply IH.
Qed.

Lemma detection_loop_history f cam t dets : ∀ self upd upd' self',
  detection_loop f cam t self upd dets = (Ok upd', self') →
  ∃ new, upd' = upd ++ new ∧ tracking_history self' = tracking_history self ++ new.
Proof.
  induction dets as [|d dets IH]; intros self upd upd' self' Hloop; cbn in Hloop.
  - simplify_eq. exists []. by rewrite !app_nil_r.
  - destruct (process_detection f cam t self d) as [[r|e] self1] eqn:Hstep; [|done].
    destruct (IH _ _ _ _ Hloop) as (new & -> & Hhist).
    exists (r :: new). rewrite Hhist,
      (step_history _ _ _ _ (process_detection_spec _ _ _ _ _ _ _ Hstep)).
    by rewrite <- !app_assoc.
Qed.

Lemma detection_loop_raises f cam t dets : ∀ self upd e self',
  detection_loop f cam t self upd dets = (Raise e, self') →
  e = ValueError ∧ Exists oversized dets.
Proof.
  induction dets as [|d dets IH]; intros self upd e self' Hloop; cbn in Hloop; [done|].
  destruct (process_detection f cam t self d) as [[r|e1] self1] eqn:Hstep.
  - destruct (IH _ _ _ _ Hloop) as [-> Hex]. split; [done|]. by right.
  - simplify_eq.
    pose proof (process_detection_outcome f cam t self d) as Hout.
    rewrite Hstep in Hout. inversion Hout as [e' Hq| |]; subst.
    apply framing_quality_raise in Hq as [-> Hd]. split; [done|]. by left.
Qed.

Lemma Exists_first {A} (P : A → Prop) `{∀ x, Decision (P x)} (l : list A) :
  Exists P l → ∃ l1 x l2, l = l1 ++ x :: l2 ∧ Forall (λ y, ¬ P y) l1 ∧ P x.
Proof.
  induction l as [|a l IH]; intros Hex; [by apply Exists_nil in Hex|].
  destruct (decide (P a)) as [Ha|Hna].
  - exists [], a, l. by split_and!.
  - apply Exists_cons in Hex as [?|Hex]; [done|].
    destruct (IH Hex) as (l1 & x & l2 & -> & Hall & Hx).
    exists (a :: l1), x, l2. split_and!; [done| |done]. by constructor.
Qed.

(** X22.  On a running tracker [update_tracking] raises exactly when a
    detection has a bounding box of more than four coordinates, and then
    with ValueError.  The call is not atomic: the detections before the first
    such box have been recorded in the tracking history, no advice has been
    added, and no subject has been evicted. *)
Theorem update_tracking_raises self detections frame_number camera_position
    current_time advice_time :
  running self = true →
  ((∃ e, (update_tracking fmt self detections frame_number camera_position
            current_time advice_time).1 = Raise e)
   ↔ Exists oversized detections)
  ∧ (∀ e, (update_tracking fmt self detections frame_number camera_position
             current_time advice_time).1 = Raise e → e = ValueError)
  ∧ (∀ good bad rest,
       detections = good ++ bad :: rest →
       Forall (λ d, ¬ oversized d) good → oversized bad →
       ∃ new self',
         update_tracking fmt self detections frame_number camera_position
           current_time advice_time = (Raise ValueError, self')
         ∧ length new = length good
         ∧ tracking_history self' = tracking_history self ++ new
         ∧ advice_history self' = advice_history self
         ∧ ∀ sid r, tracked_subjects self !! sid = Some r →
             tracked_subjects self' !! sid = Some r).
Proof.
  intros Hrun.
  assert (∀ good bad rest,
       detections = good ++ bad :: rest →
       Forall (λ d, ¬ oversized d) good → oversized bad →
       ∃ new self',
         update_tracking fmt self detections frame_number camera_position
           current_time advice_time = (Raise ValueError, self')
         ∧ length new = length good
         ∧ tracking_history self' = tracking_history self ++ new
         ∧ advice_history self' = advice_history self
         ∧ ∀ sid r, tracked_subjects self !! sid = Some r →
             tracked_subjects self' !! sid = Some r) as Hpartial.
  { intros good bad rest -> Hgood Hbad.
    destruct (detection_loop_well_formed frame_number camera_position current_time
                good self [] Hgood) as (new & self1 & Hloop & Hlen & Hhist).
    cbn [app] in Hloop.
    exists new, self1. unfold update_tracking. rewrite Hrun. cbn [negb].
    rewrite detection_loop_app, Hloop. cbn [detection_loop].
    rewrite process_detection_oversized by done.
    apply detection_loop_ok in Hloop as (new' & _ & S1).
    split_and!; try done.
    - by destruct (loop_settings _ _ _ _ S1) as (_ & -> & _).
    - apply (loop_live _ _ _ _ S1). }
  split_and!; [split| |done].
  - intros [e He].
    destruct (update_tracking_outcome fmt self detections frame_number
                camera_position current_time advice_time)
      as [Hrun'|e1 self1 _ Hloop|upd self1 _ Hloop]; cbn in He; try done.
    by apply detection_loop_raises in Hloop as [_ ?].
  - intros Hex. apply Exists_first in Hex as (good & bad & rest & E & Hgood & Hbad);
      [|apply _].
    destruct (Hpartial good bad rest E Hgood Hbad) as (new & self' & -> & _).
    by eexists.
  - intros e He.
    destruct (update_tracking_outcome fmt self detections frame_number
                camera_position current_time advice_time)
      as [Hrun'|e1 self1 _ Hloop|upd self1 _ Hloop]; cbn in He; try done.
    simplify_eq. by apply detection_loop_raises in Hloop as [? _].
Qed.

Lemma substring_length n : ∀ s, (String.length (String.substring 0 n s) ≤ n)%nat.
Proof.
  induction n as [|n IH]; intros [|c s]; cbn; try lia.
  specialize (IH s). lia.
Qed.

Lemma subject_advice_shape self ta obj :
  Forall (advice_shape ta) (subject_advice fmt self ta obj)
  ∧ (length (subject_advice fmt self ta obj) ≤ 3)%nat.
Proof.
  unfold subject_advice.
  assert (∀ l1 l2 l3 : list FilmingAdvice,
            (length l1 ≤ 1)%nat → (length l2 ≤ 1)%nat → (length l3 ≤ 1)%nat →
            (length (l1 ++ l2 ++ l3) ≤ 3)%nat) as Hlen.
  { intros. rewrite !length_app. lia. }
  split.
  - repeat apply Forall_app_2.
    + case_decide; [|done]. apply Forall_singleton. split; [done|]. by left.
    + destruct (String.eqb _ _); [|done]. apply Forall_singleton.
      split; [done|]. right. by left.
    + destruct (ai_advisor self) as [adv|]; [|done].
      case_decide; [|done].
      destruct (AIAdvisor.get_general_advice _ _ _) as [text|e]; [|done].
      apply Forall_singleton. split; [done|]. right. right. cbn.
      split_and!; try done. apply substring_length.
  - apply Hlen.
    + case_decide; cbn; lia.
    + destruct (String.eqb _ _); cbn; lia.
    + destruct (ai_advisor self) as [adv|]; [|cbn; lia].
      case_decide; [|cbn; lia].
      destruct (AIAdvisor.get_general_advice _ _ _) as [text|e]; cbn; lia.
Qed.

Lemma generate_tracking_advice_shape self refs cam ta :
  Forall (advice_shape ta) (_generate_tracking_advice fmt self refs cam ta)
  ∧ (length (_generate_tracking_advice fmt self refs cam ta) ≤ 3 * length refs)%nat.
Proof.
  unfold _generate_tracking_advice. induction refs as [|r refs [IH1 IH2]]; cbn.
  { split; [done|lia]. }
  destruct (store self !! r) as [obj|]; cbn.
  - destruct (subject_advice_shape self ta obj) as [H1 H2]. split.
    + by apply Forall_app_2.
    + rewrite length_app. lia.
  - split; [done|lia].
Qed.

(** X23.  A call of [update_tracking] that returns appends the returned
    subjects, one for each detection when the tracker is running, to the
    tracking history, and appends at most three advice entries for each of
    them to the advice history; each returned subject is an object of the
    tracker, and each new advice entry is stamped with the time the advice
    was generated and is a "framing" entry of priority "medium", a
    "movement" entry of priority "high" or a "composition" entry of
    priority "low" whose message has at most 200 characters. *)
Theorem update_tracking_appends self detections frame_number camera_position
    current_time advice_time updated self' :
  reachable fmt self →
  update_tracking fmt self detections frame_number camera_position
    current_time advice_time = (Ok updated, self') →
  tracking_history self' = tracking_history self ++ updated
  ∧ (running self = true → length updated = length detections)
  ∧ (∀ r, r ∈ updated → is_Some (store self' !! r))
  ∧ ∃ advice,
      advice_history self' = advice_history self ++ advice
      ∧ Forall (advice_shape advice_time) advice
      ∧ (length advice ≤ 3 * length updated)%nat.
Proof.
  intros H Hupd. pose proof (reachable_live_in_history fmt self H) as Hhist.
  pose proof (update_tracking_outcome fmt self detections frame_number
                camera_position current_time advice_time) as Hout.
  rewrite Hupd in Hout.
  inversion Hout as [Hrun'|e self1 _ Hloop|upd self1 Hrun Hloop]; subst.
  { rewrite app_nil_r.
    split_and!; [done|intros; congruence|by intros r Hr%elem_of_nil|].
    exists []. by rewrite app_nil_r. }
  cbn. clear Hout Hupd.
  pose proof (check_lost_spec current_time self1) as S2.
  destruct (detection_loop_history _ _ _ _ _ _ _ _ Hloop) as (new & Hnew & Hh).
  cbn in Hnew. subst new.
  pose proof Hloop as Hloop'.
  apply detection_loop_ok in Hloop' as (new & Hnew & S1). cbn in Hnew. subst new.
  split_and!.
  - by rewrite (lost_history _ _ _ S2).
  - intros _. clear -Hloop.
    assert (∀ dets self upd upd' self',
              detection_loop frame_number camera_position current_time self upd dets
              = (Ok upd', self') →
              length upd' = (length upd + length dets)%nat) as Hlen.
    { induction dets as [|d dets IH]; intros s u u' s' E; cbn in E.
      - simplify_eq. cbn. lia.
      - destruct (process_detection _ _ _ s d) as [[r|e] s1]; [|done].
        apply IH in E. rewrite E, length_app. cbn. lia. }
    apply Hlen in Hloop. cbn in Hloop. done.
  - intros r Hr. destruct (loop_inv _ _ _ _ S1 Hhist) as [_ Hsome].
    destruct (Hsome r Hr) as [obj Hobj].
    destruct (lost_store _ _ _ S2 r) as [E|(o & Ho & _ & E)]; rewrite E; eauto.
  - destruct (loop_settings _ _ _ _ S1) as (_ & Hadv1 & _).
    destruct (lost_settings _ _ _ S2) as (_ & Hadv2 & _).
    rewrite Hadv2, Hadv1. eexists. split; [reflexivity|].
    destruct updated as [|r0 upd']; [split; [done|cbn; lia]|].
    apply generate_tracking_advice_shape.
Qed.

End TrackerLifeCycle.

Section TrackerExamples.
Import Tracker.

Lemma late_call_reachable : reachable render late_call.2.
Proof. apply reach_update_tracking, one_subject_reachable. Qed.

Lemma late_call_lost :
  store late_call.2 !! 0%nat
  = Some (mark_lost (new_tracked "s1" (centered "s1") 1 0 "unknown" 1 None)).
Proof.
  destruct one_subject_live as (Hlive & Hobj & Hrun & Hadv & Hlt).
  eapply (update_tracking_evicts render one_subject [centered "s2"] 2 None 10 10
            [1%nat] late_call.2 "s1" 0%nat); eauto.
  - apply reachable_live_in_history with render, one_subject_reachable.
  - rewrite Hlt. cbn. lra.
  - exact late_call_eq.
  - by intros [=]%list_elem_of_singleton.
Qed.

Lemma tracking_status_invariant_witness :
  store_invariant late_call.2
  ∧ ∀ r obj, store late_call.2 !! r = Some obj → tracking_status obj ≠ "reacquired".
Proof.
  apply (tracking_status_invariant render late_call.2).
  apply reach_update_tracking, one_subject_reachable.
Defined.

Lemma tracking_status_counts_witness :
  (active_tracks (get_tracking_status late_call.2)
   ≤ total_tracked (get_tracking_status late_call.2))%nat
  ∧ length (subjects (get_tracking_status late_call.2))
    = active_tracks (get_tracking_status late_call.2)
  ∧ Forall (λ s, ss_tracking_status s = "tracking"
                 ∧ 0 <= ss_framing_quality s <= 1
                 ∧ ∃ r, tracked_subjects late_call.2 !! ss_subject_id s = Some r)
      (subjects (get_tracking_status late_call.2)).
Proof.
  apply (tracking_status_counts render late_call.2).
  apply reach_update_tracking, one_subject_reachable.
Defined.

Lemma lost_subject_is_never_reacquired_witness :
  store (update_tracking render late_call.2 [centered "s1"] 3 None 11 11).2 !! 0%nat
  = Some (mark_lost (new_tracked "s1" (centered "s1") 1 0 "unknown" 1 None))
  ∧ ∀ updated,
      (update_tracking render late_call.2 [centered "s1"] 3 None 11 11).1
        = Ok updated →
      0%nat ∉ updated.
Proof.
  apply (lost_subject_is_never_reacquired render late_call.2 [centered "s1"] 3
           None 11 11 0%nat).
  - apply reach_update_tracking, one_subject_reachable.
  - apply late_call_lost.
  - reflexivity.
Defined.

Lemma late_call_live : tracked_subjects late_call.2 !! "s2" = Some 1%nat.
Proof.
  unfold late_call.
  destruct (update_tracking_outcome render one_subject [centered "s2"] 2 None 10 10)
    as [Hrun|e self1 Hrun Hloop|upd self1 Hrun Hloop]; cbn.
  - by rewrite one_subject_eq in Hrun.
  - rewrite one_subject_eq in Hloop. cbn [detection_loop] in Hloop.
    unfold process_detection in Hloop. rewrite centered_quality in Hloop.
    cbn in Hloop. by rewrite lookup_singleton_ne in Hloop.
  - rewrite one_subject_eq in Hloop. cbn [detection_loop] in Hloop.
    unfold process_detection in Hloop. rewrite centered_quality in Hloop.
    cbn in Hloop. rewrite lookup_singleton_ne in Hloop by done.
    simplify_eq.
    eapply (check_lost_keeps 10 _ "s2" 1%nat).
    + cbn. apply lookup_insert_eq.
    + cbn. reflexivity.
    + cbn. lra.
Qed.

Lemma live_subjects_are_fresh_witness :
  ∃ obj, store late_call.2 !! 1%nat = Some obj
         ∧ subject_id obj = "s2"
         ∧ tracking_status obj = "tracking"
         ∧ 10 - timestamp obj <= lost_timeout late_call.2.
Proof.
  apply (live_subjects_are_fresh render one_subject [centered "s2"] 2 None 10 10
           [1%nat] late_call.2 "s2" 1%nat).
  - apply one_subject_reachable.
  - apply one_subject_live.
  - exact late_call_eq.
  - apply late_call_live.
Defined.

Lemma fresh_subject_stays_live_witness :
  tracked_subjects (update_tracking render one_subject [] 2 None 1 1).2 !! "s1"
  = Some 0%nat
  ∧ ∃ obj', store (update_tracking render one_subject [] 2 None 1 1).2 !! 0%nat
              = Some obj'
            ∧ tracking_status obj' = "tracking"
            ∧ (0%nat ∉ [] →
               obj' = new_tracked "s1" (centered "s1") 1 0 "unknown" 1 None).
Proof.
  destruct one_subject_live as (Hlive & Hobj & Hrun & Hadv & Hlt).
  apply (fresh_subject_stays_live render one_subject [] 2 None 1 1 [] _ "s1" 0%nat
           (new_tracked "s1" (centered "s1") 1 0 "unknown" 1 None)).
  - apply one_subject_reachable.
  - rewrite Hlt. lra.
  - exact Hlive.
  - exact Hobj.
  - rewrite Hlt. cbn. lra.
  - unfold update_tracking. rewrite Hrun. cbn.
    by destruct (check_lost 1 one_subject).
Defined.

Lemma update_tracking_raises_witness :
  ((∃ e, (update_tracking render (start (tracker_init default_config None))
            [centered "s1"; long_box] 1 None 0 0).1 = Raise e)
   ↔ Exists oversized [centered "s1"; long_box])
  ∧ (∀ e, (update_tracking render (start (tracker_init default_config None))
             [centered "s1"; long_box] 1 None 0 0).1 = Raise e → e = ValueError)
  ∧ (∀ good bad rest,
       [centered "s1"; long_box] = good ++ bad :: rest →
       Forall (λ d, ¬ oversized d) good → oversized bad →
       ∃ new self',
         update_tracking render (start (tracker_init default_config None))
           [centered "s1"; long_box] 1 None 0 0 = (Raise ValueError, self')
         ∧ length new = length good
         ∧ tracking_history self'
           = tracking_history (start (tracker_init default_config None)) ++ new
         ∧ advice_history self'
           = advice_history (start (tracker_init default_config None))
         ∧ ∀ sid r,
             tracked_subjects (start (tracker_init default_config None)) !! sid
               = Some r →
             tracked_subjects self' !! sid = Some r).
Proof.
  apply (update_tracking_raises render (start (tracker_init default_config None))
           [centered "s1"; long_box] 1 None 0 0).
  reflexivity.
Defined.

Lemma update_tracking_appends_witness :
  tracking_history late_call.2 = tracking_history one_subject ++ [1%nat]
  ∧ (running one_subject = true → length [1%nat] = length [centered "s2"])
  ∧ (∀ r, r ∈ [1%nat] → is_Some (store late_call.2 !! r))
  ∧ ∃ advice,
      advice_history late_call.2 = advice_history one_subject ++ advice
      ∧ Forall (advice_shape 10) advice
      ∧ (length advice ≤ 3 * length [1%nat])%nat.
Proof.
  apply (update_tracking_appends render one_subject [centered "s2"] 2 None 10 10
           [1%nat] late_call.2).
  - apply one_subject_reachable.
  - exact late_call_eq.
Defined.

End TrackerExamples.

Section TrackerWithAdvisor.
Import Tracker.

(** The float formatting of the advice messages. *)
Variable fmt : R → string.

Lemma single_detection_object f cam t self d q :
  live_in_history self →
  _calculate_framing_quality d = Ok q →
  ∃ r self1 obj,
    detection_loop f cam t self [] [d] = (Ok [r], self1)
    ∧ store self1 !! r = Some obj
    ∧ subject_id obj = detection_subject_id self d
    ∧ framing_quality obj = q
    ∧ timestamp obj = t
    ∧ tracking_status obj = "tracking"
    ∧ same_settings self self1.
Proof.
  intros Hinv Hq. cbn [detection_loop].
  pose proof (process_detection_outcome f cam t self d) as Hout.
  destruct (process_detection f cam t self d) as [[r|e] self1] eqn:Hstep.
  - pose proof (step_settings _ _ _ _ (process_detection_spec _ _ _ _ _ _ _ Hstep))
      as Hset.
    inversion Hout as [|q' r1 Hq' Hr|q' Hq' Hr]; subst; rewrite Hq in Hq';
      simplify_eq.
    + destruct (Hinv _ _ Hr) as (_ & o & Ho & Hid).
      eexists _, _, _. split; [reflexivity|]. cbn.
      rewrite list_lookup_alter_eq, Ho. cbn. split_and!; try done.
    + eexists _, _, _. split; [reflexivity|]. cbn.
      rewrite list_lookup_middle by done. split_and!; try done.
  - inversion Hout; subst. congruence.
Qed.

(** X30.  A running tracker with an advisor that has no capability: a call
    with one detection whose framing quality is below 0.6 returns its
    subject and appends, after the "framing" entry if the quality is below
    the framing threshold, a "composition" entry of priority "low" whose
    message is the advisor's notice that advice is unavailable. *)
Theorem advisor_without_capability_notice self advisor d q frame_number
    camera_position current_time advice_time :
  reachable fmt self →
  running self = true →
  0 <= lost_timeout self →
  ai_advisor self = Some advisor →
  AIAdvisor.claude_integration advisor = None →
  _calculate_framing_quality d = Ok q →
  q < 0.6 →
  ∃ r self',
    update_tracking fmt self [d] frame_number camera_position
      current_time advice_time = (Ok [r], self')
    ∧ advice_history self'
      = advice_history self
        ++ (if decide (q < framing_threshold self)
            then [framing_notice fmt (detection_subject_id self d) q advice_time]
            else [])
        ++ [unavailable_notice advice_time].
Proof.
  intros H Hrun Hlt Hadv Hcap Hq Hlow.
  pose proof (reachable_live_in_history fmt self H) as Hinv.
  destruct (single_detection_object frame_number camera_position current_time
              self d q Hinv Hq)
    as (r & self1 & obj & Hloop & Hobj & Hid & Hfq & Hts & Hst & Hset).
  destruct Hset as (Hadv1 & Hah1 & _ & Hft1 & Hlt1).
  pose proof (check_lost_spec current_time self1) as S2.
  destruct (lost_settings _ _ _ S2) as (Hadv2 & Hah2 & _ & Hft2 & Hlt2).
  assert (store (check_lost current_time self1).2 !! r = Some obj) as Hobj2.
  { destruct (lost_store _ _ _ S2 r) as [E|(o & Ho & Hexp & E)]; [by rewrite E|].
    assert (o = obj) as -> by congruence. rewrite Hts, Hlt1 in Hexp. lra. }
  destruct (check_lost current_time self1) as [lost self2] eqn:Hcl.
  cbn [snd] in *.
  assert (_generate_tracking_advice fmt self2 [r] camera_position advice_time
          = (if decide (q < framing_threshold self)
             then [framing_notice fmt (detection_subject_id self d) q advice_time]
             else [])
            ++ [unavailable_notice advice_time]) as Hgen.
  { unfold _generate_tracking_advice. cbn. rewrite Hobj2, app_nil_r.
    unfold subject_advice. rewrite Hst, Hfq, Hid, Hft2, Hft1, Hadv2, Hadv1, Hadv.
    cbn. destruct (decide (q < 0.6)); [|lra].
    unfold AIAdvisor.get_general_advice. rewrite Hcap. cbn.
    by destruct (decide (q < framing_threshold self)). }
  assert (update_tracking fmt self [d] frame_number camera_position
            current_time advice_time
          = (Ok [r],
             set_advice_history
               (advice_history self2
                  ++ _generate_tracking_advice fmt self2 [r] camera_position
                       advice_time) self2)) as Hcall.
  { unfold update_tracking. rewrite Hrun. cbn [negb].
    rewrite Hloop, Hcl. cbv beta iota zeta. rewrite Hgen.
    by destruct (decide (q < framing_threshold self)). }
  eexists _, _. split; [exact Hcall|].
  unfold set_advice_history. cbn [advice_history]. by rewrite Hgen, Hah2, Hah1.
Qed.

End TrackerWithAdvisor.

Section TrackerWithAdvisorExample.
Import Tracker.

Lemma advisor_without_capability_notice_witness :
  ∃ r self',
    update_tracking render
      (start (tracker_init default_config (Some (AIAdvisor.advisor_init None))))
      [short_box] 1 None 0 0 = (Ok [r], self')
    ∧ advice_history self'
      = advice_history
          (start (tracker_init default_config (Some (AIAdvisor.advisor_init None))))
        ++ (if decide (0.5 < framing_threshold
                               (start (tracker_init default_config
                                         (Some (AIAdvisor.advisor_init None)))))
            then [framing_notice render
                    (detection_subject_id
                       (start (tracker_init default_config
                                 (Some (AIAdvisor.advisor_init None))))
                       short_box) 0.5 0]
            else [])
        ++ [unavailable_notice 0].
Proof.
  apply (advisor_without_capability_notice render
           (start (tracker_init default_config (Some (AIAdvisor.advisor_init None))))
           (AIAdvisor.advisor_init None) short_box 0.5 1 None 0 0).
  - apply reach_start, reach_init.
  - reflexivity.
  - cbn. lra.
  - reflexivity.
  - reflexivity.
  - reflexivity.
  - lra.
Defined.

End TrackerWithAdvisorExample.

(* ------------------------------------------------------------------ *)
(** ** The route endpoints *)
(* ------------------------------------------------------------------ *)

Section ServerProperties.
Import RoutePlanner Server.

(** [float] on a string. *)
Variable float_of_str : string → result R.

(** X24.  With the planner the server builds, and after any sequence of
    planning calls on it, the endpoints over [plan_general_route] (the
    general route, the fishing route and the mining route) answer every
    request with an HTTPException of status 500, for the general and fishing
    routes the one of the AttributeError, and leave the planner as it
    was. *)
Theorem general_route_endpoints_fail planner request mining_request now :
  planner_reachable planner →
  plan_general_route_endpoint (Some planner) request now
  = (HTTPException 500 AttributeError, Some planner)
  ∧ plan_fishing_route_endpoint (Some planner) request now
    = (HTTPException 500 AttributeError, Some planner)
  ∧ ∃ e, plan_mining_route_endpoint float_of_str (Some planner) mining_request now
         = (HTTPException 500 e, Some planner).
Proof.
  intros H. apply planner_reachable_approach_speed in H.
  unfold plan_general_route_endpoint, plan_fishing_route_endpoint,
    plan_mining_route_endpoint, plan_general_route.
  rewrite H. split_and!; [done|done|].
  destruct (rbind (float_position _ _) _) as [[s e]|e]; by eexists.
Qed.

(** X25.  With a planner, the filming endpoint answers every request with a
    route at 30 m of three waypoints, the start, the approach point and the
    subject (the destination, or the start itself when no destination is
    given), and a fourth, the orbit point, when the operation is
    "advertisement"; the hunting endpoint answers with the start at 50 m,
    the approach point 0.0002 degrees below the target at 40 m and the target
    at 35 m.  Both record the route in the planner. *)
Theorem route_endpoints_answer planner request now :
  ∃ film hunt,
    plan_filming_route_endpoint (Some planner) request now
    = (Response (route_body film), Some (append_route planner film))
    ∧ body_waypoints (route_body film)
      = [ (lat (request_start request), lon (request_start request), 30);
          (lat (request_subject request) - 0.0001,
           lon (request_subject request), 30);
          (lat (request_subject request), lon (request_subject request), 30) ]
        ++ (if String.eqb (operation request) "advertisement"
            then [ (lat (request_subject request) + 0.0001,
                    lon (request_subject request) + 0.0001, 30) ]
            else [])
    ∧ plan_hunting_route_endpoint (Some planner) request now
      = (Response (route_body hunt), Some (append_route planner hunt))
    ∧ body_waypoints (route_body hunt)
      = [ (lat (request_start request), lon (request_start request), 50);
          (lat (request_target request) - 0.0002, lon (request_target request), 40);
          (lat (request_target request), lon (request_target request), 35) ].
Proof.
  unfold plan_filming_route_endpoint, plan_hunting_route_endpoint,
    request_subject, request_start, request_target.
  assert (String.eqb (str_or (operation request) "wedding") "advertisement"
          = String.eqb (operation request) "advertisement") as Hop.
  { unfold str_or. destruct (String.eqb (operation request) "") eqn:E; [|done].
    apply String.eqb_eq in E. by rewrite E. }
  destruct (destination request) as [d|]; cbn [default];
    unfold plan_filming_route, plan_hunting_route; cbn; rewrite Hop;
    destruct (String.eqb (operation request) "advertisement"); cbn;
    eexists _, _; split_and!; try reflexivity; cbn; repeat f_equal; lra.
Qed.

End ServerProperties.

Lemma general_route_endpoints_fail_witness :
  Server.plan_general_route_endpoint Server.route_planner_init
    (Server.mkRoutePlanRequest "survey" "manual" None None) 0
  = (Server.HTTPException 500 AttributeError, Server.route_planner_init)
  ∧ Server.plan_fishing_route_endpoint Server.route_planner_init
      (Server.mkRoutePlanRequest "survey" "manual" None None) 0
    = (Server.HTTPException 500 AttributeError, Server.route_planner_init)
  ∧ ∃ e, Server.plan_mining_route_endpoint (λ _, Raise ValueError)
           Server.route_planner_init [] 0
         = (Server.HTTPException 500 e, Server.route_planner_init).
Proof.
  apply (general_route_endpoints_fail (λ _, Raise ValueError)
           (RoutePlanner.planner_init RoutePlanner.no_planning_config)).
  apply RoutePlanner.planner_reach_init.
Defined.
